(** * Yark archive synchronisation engine: a shallow embedding of
    [yark/archive.py] and the properties its specification states.

    Python objects are references: a [Video] that sits in a bucket of the
    archive, in the curated download list and in the reporter is one object.
    The embedding therefore keeps the videos in an object store indexed by
    references and lets every list hold references.  Exceptions are values of
    type [exn]; a function that may raise returns a [result]. *)

From Stdlib Require Import FunctionalExtensionality.
From stdpp Require Import base numbers list strings functions gmap.

Local Set Warnings "-clear-no-such-hyp".

Open Scope Z_scope.
Open Scope string_scope.
Open Scope list_scope.

(** ** Python exceptions *)

Inductive exn : Type :=
  | DownloadError (msg : string)          (* yt_dlp.DownloadError *)
  | VideoNotFoundException (msg : string) (* yark.errors *)
  | KeyError (key : string)
  | IndexError
  | TypeError
  | AttributeError
  | OSError
  | Exception (msg : string)              (* a plain [Exception] *)
  | KeyboardInterrupt                     (* a [BaseException] only *)
  | SystemExit (code : Z).                (* raised by [sys.exit] *)

(** [except Exception] catches every class above but the two that derive from
    [BaseException] directly. *)
Definition is_Exception (e : exn) : bool :=
  match e with
  | SystemExit _ | KeyboardInterrupt => false
  | _ => true
  end.

Inductive result (A : Type) : Type :=
  | Ok (a : A)
  | Raise (e : exn).
Arguments Ok {A} a.
Arguments Raise {A} e.

(** Sequencing: a raised exception propagates.  With these instances
    [x ← m; k] is stdpp's notation for it. *)
Global Instance result_ret : MRet result := fun _ a => Ok a.
Global Instance result_bind : MBind result := fun _ _ k r =>
  match r with
  | Ok a => k a
  | Raise e => Raise e
  end.

(** [needle in hay] on Python strings. *)
Fixpoint str_in (needle hay : string) : bool :=
  String.prefix needle hay ||
  match hay with
  | EmptyString => false
  | String _ rest => str_in needle rest
  end.

(** ** Time-tracked attributes *)

Definition Time := Z.

Module Element.
Section Element.
Context {T : Type} `{EqDecision T}.

(** Modelled from the spec: the class [Element] of [yark/video.py], which is
    not part of the sources at hand.  It is the spec's TimeTrackedValue: an
    insertion-ordered, append-only sequence of [(timestamp, value)] pairs;
    [current] is the value of the last entry, or a defined default when the
    history is empty; [update] appends iff the value differs from [current];
    a [None] timestamp means now. *)
Record t : Type := { inner : list (Time * T) }.

Definition new (now : Time) (data : T) : t := {| inner := [(now, data)] |}.

Definition current (dflt : T) (e : t) : T :=
match last (inner e) with
| Some entry => entry.2
| None => dflt
end.

Definition update (dflt : T) (now : Time)
  (timestamp : option Time) (value : T) (e : t) : t :=
if decide (value = current dflt e) then e
else {| inner := inner e ++ [(default now timestamp, value)] |}.

End Element.
Arguments t : clear implicits.
End Element.

(** ** Raw snapshot entries, videos, comment authors *)

Module RawEntry.
(** One entry of a fetched snapshot with the fields the spec lists for it
    (id, title, description, view count, like count, thumbnail, format list,
    upload recency indicator).  [formats = None] is an entry without the
    ["formats"] key. *)
Record t : Type := {
  id : string;
  title : string;
  description : string;
  view_count : Z;
  like_count : option Z;
  thumbnail : string;
  formats : option (list string);
  upload_date : Z
}.
End RawEntry.

(** The defined default of every tracked attribute of a video. *)
Record Defaults : Type := {
  d_title : string;
  d_description : string;
  d_views : Z;
  d_likes : option Z;
  d_thumbnail : string;
  d_deleted : bool
}.

Module Video.
(** Modelled from the spec: the class [Video] of [yark/video.py], which is not
    part of the sources at hand: an identity, a recency key, the tracked
    attributes and the marker [known_not_deleted] that [archive.py] reads
    (the spec's "confirmed present"). *)
Record t : Type := {
  id : string;
  uploaded : Z;
  title : Element.t string;
  description : Element.t string;
  views : Element.t Z;
  likes : Element.t (option Z);
  thumbnail : Element.t string;
  deleted : Element.t bool;
  known_not_deleted : bool
}.

Definition set_deleted (d : Element.t bool) (v : t) : t :=
{| id := id v; uploaded := uploaded v; title := title v;
   description := description v; views := views v; likes := likes v;
   thumbnail := thumbnail v; deleted := d;
   known_not_deleted := known_not_deleted v |}.

(** Modelled from the spec: [Video.new], absent from the sources.  Every
    attribute's history is seeded with a single entry at now. *)
Definition new (now : Time) (entry : RawEntry.t) : t :=
{| id := RawEntry.id entry;
   uploaded := RawEntry.upload_date entry;
   title := Element.new now (RawEntry.title entry);
   description := Element.new now (RawEntry.description entry);
   views := Element.new now (RawEntry.view_count entry);
   likes := Element.new now (RawEntry.like_count entry);
   thumbnail := Element.new now (RawEntry.thumbnail entry);
   deleted := Element.new now false;
   known_not_deleted := true |}.

(** Modelled from the spec: [Video.update], absent from the sources.  It
    calls [update] on each tracked attribute with the snapshot's
    corresponding field, timestamp [None], and marks the video as confirmed
    present. *)
Definition update (dflt : Defaults) (now : Time) (entry : RawEntry.t) (v : t) : t :=
{| id := id v;
   uploaded := uploaded v;
   title := Element.update (d_title dflt) now None (RawEntry.title entry) (title v);
   description :=
     Element.update (d_description dflt) now None (RawEntry.description entry)
       (description v);
   views := Element.update (d_views dflt) now None (RawEntry.view_count entry) (views v);
   likes := Element.update (d_likes dflt) now None (RawEntry.like_count entry) (likes v);
   thumbnail :=
     Element.update (d_thumbnail dflt) now None (RawEntry.thumbnail entry) (thumbnail v);
   deleted := deleted v;
   known_not_deleted := true |}.

End Video.

Module CommentAuthor.
(** Modelled from the spec: the class [CommentAuthor] of [yark/video.py]. *)
Record t : Type := {
  id : string;
  name : Element.t string;
  icon : Element.t string
}.
End CommentAuthor.

(** ** The archive and the object store *)

Definition ref := nat.

Module Reporter.
Record t : Type := { added : list ref; deleted : list ref }.
Definition empty : t := {| added := []; deleted := [] |}.
End Reporter.

Module Config.
(** The fields of [yark/config.py]'s [Config] that [archive.py] reads. *)
Record t : Type := {
  max_videos : option Z;
  max_livestreams : option Z;
  max_shorts : option Z;
  comments : bool;
  format : option string;
  proxy : option string
}.
End Config.

Module Archive.
Record t : Type := {
  path : string;
  version : Z;
  url : string;
  videos : list ref;
  livestreams : list ref;
  shorts : list ref;
  comment_authors : gmap string CommentAuthor.t;
  reporter : Reporter.t
}.
End Archive.

(** What the program prints or asks of its surroundings, in order. *)
Inductive event : Type :=
  | Skipping (id reason : string) (warning : bool) (* notice of [_skip_video] *)
  | Requested (urls : list string)                 (* [ydl.download(urls)] *)
  | Extracting (url : string)                      (* [ydl.extract_info(url)] *)
  | ErrorReported (name : string) (retrying : bool) (* message of [_err_dl] *)
  | Sleeping (seconds : Z).                        (* [time.sleep] *)

(** The interpreter's state: the video objects by reference, the next free
    reference, the archive object and the output so far. *)
Record State : Type := {
  objs : ref → Video.t;
  fresh : ref;
  archive : Archive.t;
  out : list event
}.

Definition set_objs (f : ref → Video.t) (σ : State) : State :=
{| objs := f; fresh := fresh σ; archive := archive σ; out := out σ |}.

Definition set_reporter (r : Reporter.t) (σ : State) : State :=
{| objs := objs σ; fresh := fresh σ; out := out σ;
   archive :=
     {| Archive.path := Archive.path (archive σ);
        Archive.version := Archive.version (archive σ);
        Archive.url := Archive.url (archive σ);
        Archive.videos := Archive.videos (archive σ);
        Archive.livestreams := Archive.livestreams (archive σ);
        Archive.shorts := Archive.shorts (archive σ);
        Archive.comment_authors := Archive.comment_authors (archive σ);
        Archive.reporter := r |} |}.

Definition emit (e : event) (σ : State) : State :=
{| objs := objs σ; fresh := fresh σ; archive := archive σ; out := out σ ++ [e] |}.

Definition add_reported_deleted (video : ref) (σ : State) : State :=
set_reporter
  {| Reporter.added := Reporter.added (Archive.reporter (archive σ));
     Reporter.deleted := Reporter.deleted (Archive.reporter (archive σ)) ++ [video] |} σ.

Definition add_reported_added (video : ref) (σ : State) : State :=
set_reporter
  {| Reporter.added := Reporter.added (Archive.reporter (archive σ)) ++ [video];
     Reporter.deleted := Reporter.deleted (Archive.reporter (archive σ)) |} σ.

(** [video.deleted.update(None, True)] on the object behind [video]. *)
Definition flag_deleted (dflt : Defaults) (now : Time) (video : ref) (σ : State) : State :=
set_objs
  (<[video := Video.set_deleted
       (Element.update (d_deleted dflt) now None true (Video.deleted (objs σ video)))
       (objs σ video)]> (objs σ)) σ.

Definition deleted_current (dflt : Defaults) (σ : State) (video : ref) : bool :=
Element.current (d_deleted dflt) (Video.deleted (objs σ video)).

(** The three buckets of the archive. *)
Inductive Bucket : Type := Videos | Livestreams | Shorts.

Definition bucket (b : Bucket) (σ : State) : list ref :=
match b with
| Videos => Archive.videos (archive σ)
| Livestreams => Archive.livestreams (archive σ)
| Shorts => Archive.shorts (archive σ)
end.

Definition set_bucket (b : Bucket) (l : list ref) (σ : State) : State :=
let a := archive σ in
{| objs := objs σ; fresh := fresh σ; out := out σ;
   archive :=
     {| Archive.path := Archive.path a;
        Archive.version := Archive.version a;
        Archive.url := Archive.url a;
        Archive.videos := match b with Videos => l | _ => Archive.videos a end;
        Archive.livestreams := match b with Livestreams => l | _ => Archive.livestreams a end;
        Archive.shorts := match b with Shorts => l | _ => Archive.shorts a end;
        Archive.comment_authors := Archive.comment_authors a;
        Archive.reporter := Archive.reporter a |} |}.

(** ** Curation and lookup *)

Section Engine.
(** The surroundings: the files on disk, the clock and the remote service.
    [downloaded] and [video_url] are the accessors [downloaded()] and [url()]
    of a video, which [yark/video.py] defines; [ydl_download] is yt-dlp's
    [YoutubeDL.download], which returns normally ([None]) or raises, and
    [ydl_extract_info] is its [extract_info]. *)
Context {World Res : Type}.
Variable downloaded : World → Video.t → bool.
Variable video_url : Video.t → string.
Variable clock : World → Time.
Variable ydl_download : World → list string → World * option exn.
Variable ydl_extract_info : World → string → World * result Res.
(** The file work of [_clean_parts] (unlinking the [.part] and [.ytdl] files
    of [videos/]) and [Converter.run] of [yark/converter.py]. *)
Variable unlink_parts : World → World * option exn.
Variable converter_run : World → World * option exn.
Variable dflt : Defaults.

(** [for ind in range(fixed_maximum): new_videos.append(videos[ind])];
    [videos[ind]] raises [IndexError] out of range. *)
Fixpoint take_indices (videos : list ref) (inds : list nat) : result (list ref) :=
match inds with
| [] => Ok []
| ind :: inds' =>
    match videos !! ind with
    | None => Raise IndexError
    | Some video => new_videos ← take_indices videos inds'; Ok (video :: new_videos)
    end
end.

(** [range(n)] for a Python integer [n]: empty when [n <= 0]. *)
Definition range (n : Z) : list nat := seq 0 (Z.to_nat n).

Definition curate_list (w : World) (objs : ref → Video.t)
  (videos : list ref) (maximum : option Z) : result (list ref) :=
videos' ←
  match maximum with
  | Some maximum =>
      let fixed_maximum := Z.min (Z.max (Z.of_nat (length videos) - 1) 0) maximum in
      take_indices videos (range fixed_maximum)
  | None => Ok videos
  end;
Ok (filter (λ video, downloaded w (objs video) = false) videos').

Definition _curate (w : World) (σ : State) (config : Config.t) : result (list ref) :=
a ← curate_list w (objs σ) (Archive.videos (archive σ)) (Config.max_videos config);
b ← curate_list w (objs σ) (Archive.livestreams (archive σ)) (Config.max_livestreams config);
c ← curate_list w (objs σ) (Archive.shorts (archive σ)) (Config.max_shorts config);
Ok (a ++ b ++ c).

(** [Archive.search]: the loop runs over [self.videos]. *)
Definition search (σ : State) (id : string) : result ref :=
match List.find (λ video, bool_decide (Video.id (objs σ video) = id))
        (Archive.videos (archive σ)) with
| Some video => Ok video
| None => Raise (VideoNotFoundException ("Couldn't find " +:+ id +:+ " inside archive"))
end.

(** ** Download: skipping, classification, the two retry loops *)

(** [for ind, video in enumerate(videos): if not video.downloaded(): ...]:
    the index and the object of the first video that is not downloaded. *)
Fixpoint first_undownloaded (w : World) (objs : ref → Video.t)
  (videos : list ref) (ind : nat) : option (nat * ref) :=
match videos with
| [] => None
| video :: rest =>
    if downloaded w (objs video) then first_undownloaded w objs rest (S ind)
    else Some (ind, video)
end.

Definition _skip_video (w : World) (σ : State) (videos : list ref)
  (reason : string) (warning : bool) : State * result (list ref * ref) :=
match first_undownloaded w (objs σ) videos 0 with
| Some (ind, video) =>
    (emit (Skipping (Video.id (objs σ video)) reason warning) σ,
     Ok (drop (ind + 1) videos, video))
| None =>
    (σ, Raise (Exception
        "We expected to skip a video and return it but nothing to skip was found"))
end.

(** [_dl_exception_handle(not_downloaded, exception)] for
    [exception = DownloadError(msg)]. *)
Definition _dl_exception_handle (w : World) (σ : State)
  (not_downloaded : list ref) (msg : string) : State * result (option (list ref)) :=
if str_in "Private video" msg
   || str_in "This video has been removed by the uploader" msg then
  match _skip_video w σ not_downloaded "deleted" false with
  | (σ1, Raise e) => (σ1, Raise e)
  | (σ1, Ok (new_not_downloaded, video)) =>
      if bool_decide (deleted_current dflt σ1 video = false) then
        (flag_deleted dflt (clock w) video (add_reported_deleted video σ1),
         Ok (Some new_not_downloaded))
      else (σ1, Ok (Some new_not_downloaded))
  end
else if str_in " bytes, expected " msg then
  match _skip_video w σ not_downloaded "no format found; please download ffmpeg!" true with
  | (σ1, Raise e) => (σ1, Raise e)
  | (σ1, Ok (new_not_downloaded, _)) => (σ1, Ok (Some new_not_downloaded))
  end
else (σ, Raise (DownloadError msg)).

(** [_dl_launch]: the [while True] loop.  [None] is the loop still running
    when the fuel is spent. *)
Fixpoint _dl_launch_loop (fuel : nat) (w : World) (σ : State)
  (not_downloaded : list ref) : option (World * State * result unit) :=
match fuel with
| O => None
| S fuel' =>
    let urls := map (λ video, video_url (objs σ video)) not_downloaded in
    let '(w1, raised) := ydl_download w urls in
    let σ1 := emit (Requested urls) σ in
    match raised with
    | None => Some (w1, σ1, Ok ())
    | Some (DownloadError msg) =>
        match _dl_exception_handle w1 σ1 not_downloaded msg with
        | (σ2, Raise e) => Some (w1, σ2, Raise e)
        | (σ2, Ok (Some new_not_downloaded)) =>
            _dl_launch_loop fuel' w1 σ2 new_not_downloaded
        | (σ2, Ok None) => _dl_launch_loop fuel' w1 σ2 not_downloaded
        end
    | Some e => Some (w1, σ1, Raise e)
    end
end.

Definition _dl_launch (w : World) (σ : State) (not_downloaded : list ref)
  : option (World * State * result unit) :=
_dl_launch_loop (S (length not_downloaded)) w σ not_downloaded.

(** [_err_dl]: the printed message is reduced to what was being downloaded;
    then five seconds of sleep when retrying, [sys.exit(1)] otherwise. *)
Definition _err_dl (name : string) (exception : exn) (retrying : bool)
  (σ : State) : State * result unit :=
let σ1 := emit (ErrorReported name retrying) σ in
if retrying then (emit (Sleeping 5) σ1, Ok ())
else (σ1, Raise (SystemExit 1)).

(** One pass of the outer loop of [download]: its index, the surroundings
    and the state it started from, what it curated, and how the launch ended
    ([Ok] too when there was nothing to launch). *)
Record Attempt : Type := {
  at_index : nat;
  at_world : World;
  at_state : State;
  at_curated : list ref;
  at_result : result unit
}.

(** The loop [for i in range(5)] of [Archive.download] over the remaining
    indices.  The result is [anything_downloaded] when the loop ends by
    [break] or by exhaustion, or the exception that leaves it; the passes
    made are returned with it. *)
Fixpoint download_loop (config : Config.t) (inds : list nat) (w : World) (σ : State)
  : option (World * State * result bool * list Attempt) :=
match inds with
| [] => Some (w, σ, Ok true, [])
| i :: inds' =>
    let on_exception (w1 : World) (σ1 : State) (e : exn) (a : list Attempt) :=
      if is_Exception e then
        match _err_dl "videos" e (negb (i =? 4)%nat) σ1 with
        | (σ2, Ok _) =>
            '(w3, σ3, r, rest) ← download_loop config inds' w1 σ2;
            Some (w3, σ3, r, a ++ rest)
        | (σ2, Raise e') => Some (w1, σ2, Raise e', a)
        end
      else Some (w1, σ1, Raise e, a) in
    match _curate w σ config with
    | Raise e => on_exception w σ e []
    | Ok not_downloaded =>
        let pass (r : result unit) :=
          [{| at_index := i; at_world := w; at_state := σ;
              at_curated := not_downloaded; at_result := r |}] in
        if bool_decide (length not_downloaded = 0%nat) then
          Some (w, σ, Ok false, pass (Ok ()))
        else
          match _dl_launch w σ not_downloaded with
          | None => None
          | Some (w1, σ1, Ok _) => Some (w1, σ1, Ok true, pass (Ok ()))
          | Some (w1, σ1, Raise e) => on_exception w1 σ1 e (pass (Raise e))
          end
    end
end.

(** [Archive.download]: clean, loop, convert when anything was downloaded. *)
Definition download (config : Config.t) (w : World) (σ : State)
  : option (World * State * result unit * list Attempt) :=
let '(w0, raised) := unlink_parts w in
match raised with
| Some e => Some (w0, σ, Raise e, [])
| None =>
    '(w1, σ1, r, passes) ← download_loop config (range 5) w0 σ;
    match r with
    | Raise e => Some (w1, σ1, Raise e, passes)
    | Ok anything_downloaded =>
        if (anything_downloaded : bool) then
          let '(w2, raised) := converter_run w1 in
          match raised with
          | Some e => Some (w2, σ1, Raise e, passes)
          | None => Some (w2, σ1, Ok (), passes)
          end
        else Some (w1, σ1, Ok (), passes)
    end
end.



End Engine.

(** ** Ingestion of a snapshot *)

(** [Video.new(config, entry, self)] allocates a new object. *)
Definition alloc (v : Video.t) (σ : State) : State :=
{| objs := <[fresh σ := v]> (objs σ); fresh := S (fresh σ);
   archive := archive σ; out := out σ |}.

(** The [for video in videos] search of [_parse_metadata_video]. *)
Definition find_id (objs : ref → Video.t) (id : string) (videos : list ref) : option ref :=
List.find (λ video, bool_decide (Video.id (objs video) = id)) videos.

(** [_parse_metadata_video(config, entry, videos)], where [videos] is the
    bucket [b] of the archive. *)
Definition _parse_metadata_video (dflt : Defaults) (now : Time)
  (entry : RawEntry.t) (b : Bucket) (σ : State) : State :=
match RawEntry.formats entry with
| None => σ
| Some formats =>
    if bool_decide (length formats = 0%nat) then σ
    else
      match find_id (objs σ) (RawEntry.id entry) (bucket b σ) with
      | Some video =>
          set_objs (<[video := Video.update dflt now entry (objs σ video)]> (objs σ)) σ
      | None =>
          let video := fresh σ in
          let σ1 := alloc (Video.new now entry) σ in
          let σ2 := set_bucket b (bucket b σ1 ++ [video]) σ1 in
          add_reported_added video σ2
      end
end.

(** Modelled from the spec: the order [Video.__lt__] of [yark/video.py] that
    [videos.sort(reverse=True)] uses compares the recency keys.  The sort is
    Python's: stable, so that videos with equal keys keep their order. *)
Fixpoint insert_newest (objs : ref → Video.t) (x : ref) (l : list ref) : list ref :=
match l with
| [] => [x]
| y :: l' =>
    if (Video.uploaded (objs y) <=? Video.uploaded (objs x))%Z then x :: l
    else y :: insert_newest objs x l'
end.

Definition sort_newest (objs : ref → Video.t) (l : list ref) : list ref :=
foldr (insert_newest objs) [] l.

Definition _parse_metadata (dflt : Defaults) (now : Time)
  (entries : list RawEntry.t) (b : Bucket) (σ : State) : State :=
let σ1 :=
  foldl (λ (σ : State) (entry : RawEntry.t), _parse_metadata_video dflt now entry b σ)
    σ entries in
set_bucket b (sort_newest (objs σ1) (bucket b σ1)) σ1.

(** One turn of the loop of [_report_deleted]. *)
Definition report_deleted_video (dflt : Defaults) (now : Time)
  (σ : State) (video : ref) : State :=
if bool_decide (deleted_current dflt σ video = false)
   && negb (Video.known_not_deleted (objs σ video))
then flag_deleted dflt now video (add_reported_deleted video σ)
else σ.

Definition _report_deleted (dflt : Defaults) (now : Time)
  (videos : list ref) (σ : State) : State :=
foldl (report_deleted_video dflt now) σ videos.

(** The second half of [Archive.metadata]: the three buckets of entries are
    parsed, then every bucket is gone through for deleted videos. *)
Definition metadata_parse (dflt : Defaults) (now : Time)
  (videos livestreams shorts : list RawEntry.t) (σ : State) : State :=
let σ1 := _parse_metadata dflt now videos Videos σ in
let σ2 := _parse_metadata dflt now livestreams Livestreams σ1 in
let σ3 := _parse_metadata dflt now shorts Shorts σ2 in
let σ4 := _report_deleted dflt now (Archive.videos (archive σ3)) σ3 in
let σ5 := _report_deleted dflt now (Archive.livestreams (archive σ4)) σ4 in
_report_deleted dflt now (Archive.shorts (archive σ5)) σ5.

(** ** The persisted representation *)

Local Set Warnings "-register-all".

(** What [json.load] returns: a tree of fresh objects, so no two places of
    it share a dictionary or a list.  A dictionary keeps its keys in
    insertion order. *)
Inductive json : Type :=
  | JNull
  | JBool (b : bool)
  | JInt (n : Z)
  | JStr (s : string)
  | JList (items : list json)
  | JDict (fields : list (string * json)).

Fixpoint dict_get (key : string) (fields : list (string * json)) : option json :=
match fields with
| [] => None
| (k, v) :: rest => if decide (k = key) then Some v else dict_get key rest
end.

(** [d[key] = value]: in place when the key is there, at the end otherwise. *)
Fixpoint dict_set (key : string) (value : json) (fields : list (string * json))
  : list (string * json) :=
match fields with
| [] => [(key, value)]
| (k, v) :: rest =>
    if decide (k = key) then (k, value) :: rest
    else (k, v) :: dict_set key value rest
end.

Definition dict_del (key : string) (fields : list (string * json)) : list (string * json) :=
filter (λ kv, kv.1 ≠ key) fields.

(** [e[key]] *)
Definition getitem (key : string) (e : json) : result json :=
match e with
| JDict fields =>
    match dict_get key fields with
    | Some v => Ok v
    | None => Raise (KeyError key)
    end
| _ => Raise TypeError
end.

(** [e[key] = value], with the object after the assignment as result. *)
Definition setitem (key : string) (value : json) (e : json) : result json :=
match e with
| JDict fields => Ok (JDict (dict_set key value fields))
| _ => Raise TypeError
end.

(** [del e[key]] *)
Definition delitem (key : string) (e : json) : result json :=
match e with
| JDict fields =>
    match dict_get key fields with
    | Some _ => Ok (JDict (dict_del key fields))
    | None => Raise (KeyError key)
    end
| _ => Raise TypeError
end.

(** [a + b] with a string on the left. *)
Definition str_add (a : string) (b : json) : result json :=
match b with
| JStr s => Ok (JStr (a +:+ s))
| _ => Raise TypeError
end.

Fixpoint chars (s : string) : list json :=
match s with
| EmptyString => []
| String c rest => JStr (String c EmptyString) :: chars rest
end.

(** What [for x in e] goes through. *)
Definition iterate (e : json) : result (list json) :=
match e with
| JList items => Ok items
| JDict fields => Ok (map (λ kv, JStr kv.1) fields)
| JStr s => Ok (chars s)
| _ => Raise TypeError
end.

Fixpoint mapM {A B : Type} (f : A → result B) (l : list A) : result (list B) :=
match l with
| [] => Ok []
| x :: rest => y ← f x; ys ← mapM f rest; Ok (y :: ys)
end.

(** [for video in encoded[bucket]: video[key] = value].  The videos are
    changed in place, so the list under [bucket] holds the changed videos
    afterwards. *)
Definition set_on_each (bucket key : string) (value : json) (encoded : json) : result json :=
container ← getitem bucket encoded;
items ← iterate container;
items' ← mapM (setitem key value) items;
match container with
| JList _ => setitem bucket (JList items') encoded
| _ => Ok encoded
end.

(** ** Files *)

Record FS : Type := {
  files : gmap string string;   (* the content of every file, by path *)
  dirs : gset string            (* the directories *)
}.

(** [path / name] *)
Definition join (path name : string) : string := path +:+ "/" +:+ name.

(** [path.exists()] *)
Definition exists_path (fs : FS) (path : string) : bool :=
bool_decide (is_Some (files fs !! path)) || bool_decide (path ∈ dirs fs).

Definition write_file (path content : string) (fs : FS) : FS :=
{| files := <[path := content]> (files fs); dirs := dirs fs |}.

Definition mkdir (path : string) (fs : FS) : FS :=
{| files := files fs; dirs := {[path]} ∪ dirs fs |}.

Definition newline : string := String (Ascii.ascii_of_nat 10) EmptyString.

(** ** Migration *)

Definition ARCHIVE_COMPAT : Z := 4.

Section Migration.
(** [Path.rename] of the operating system ([None]: it raised),
    [Converter.run] of [yark/converter.py], and the dictionary
    [Element.new(Video._new_empty(), False)._to_dict()] of [yark/video.py]. *)
Variable rename : FS → string → string → option FS.
Variable converter_run : FS → string → FS * option exn.
Variable deleted_false : json.

(** The structural edit of one version; [sys.exit(1)] for a version that has
    none. *)
Definition migrate_edit (path : string) (cur : Z) (encoded : json) (fs : FS)
  : FS * result json :=
if (cur =? 1)%Z then
  (fs,
   id ← getitem "id" encoded;
   url ← str_add "https://www.youtube.com/channel/" id;
   e1 ← setitem "url" url encoded;
   e2 ← delitem "id" e1;
   e3 ← setitem "livestreams" (JList []) e2;
   setitem "shorts" (JList []) e3)
else if (cur =? 2)%Z then
  (fs,
   e1 ← set_on_each "videos" "deleted" deleted_false encoded;
   e2 ← set_on_each "livestreams" "deleted" deleted_false e1;
   set_on_each "shorts" "deleted" deleted_false e2)
else if (cur =? 3)%Z then
  match
    e1 ← setitem "comment_authors" (JDict []) encoded;
    e2 ← set_on_each "videos" "comments" (JDict []) e1;
    e3 ← set_on_each "livestreams" "comments" (JDict []) e2;
    set_on_each "shorts" "comments" (JDict []) e3
  with
  | Raise e => (fs, Raise e)
  | Ok e4 =>
      match rename fs (join path "thumbnails") (join path "images") with
      | None => (fs, Raise (SystemExit 1))
      | Some fs1 =>
          let '(fs2, raised) := converter_run fs1 (join path "videos") in
          match raised with
          | Some e => (fs2, Raise e)
          | None => (fs2, Ok e4)
          end
      end
  end
else (fs, Raise (SystemExit 1)).

(** [migrate_step(cur, encoded)].  The recursion of the source is on the
    version; [fuel] bounds its depth, [None] is a recursion that goes
    deeper.  The last component lists the values assigned to
    [encoded["version"]], in order. *)
Fixpoint migrate_step (fuel : nat) (expected_version : Z) (path : string)
  (cur : Z) (encoded : json) (fs : FS) : option (FS * result json * list Z) :=
match fuel with
| O => None
| S fuel' =>
    if (cur =? expected_version)%Z then Some (fs, Ok encoded, [])
    else
      match migrate_edit path cur encoded fs with
      | (fs1, Raise e) => Some (fs1, Raise e, [])
      | (fs1, Ok e1) =>
          let cur' := (cur + 1)%Z in
          match setitem "version" (JInt cur') e1 with
          | Raise e => Some (fs1, Raise e, [])
          | Ok e2 =>
              '(fs2, r, written) ← migrate_step fuel' expected_version path cur' e2 fs1;
              Some (fs2, r, cur' :: written)
          end
      end
end.

(** [_migrate_archive]: no version takes more than four calls of
    [migrate_step]. *)
Definition _migrate_archive (current_version expected_version : Z)
  (encoded : json) (path : string) (fs : FS) : option (FS * result json * list Z) :=
migrate_step 4 expected_version path current_version encoded fs.

End Migration.

(** ** Encoding and decoding of the archive *)

Section Codec.
(** The codecs of [yark/video.py]: [Video._to_dict], [Video._from_dict],
    [CommentAuthor._to_dict_head] and [CommentAuthor._from_dict_head].  The
    decoders are given the archive as it is when they are called. *)
Variable Video_to_dict : Video.t → json.
Variable Video_from_dict : json → Archive.t → result Video.t.
Variable CommentAuthor_to_dict_head : CommentAuthor.t → json.
Variable CommentAuthor_from_dict_head : Archive.t → string → json → result CommentAuthor.t.

Definition set_comment_authors (m : gmap string CommentAuthor.t) (a : Archive.t) : Archive.t :=
{| Archive.path := Archive.path a; Archive.version := Archive.version a;
   Archive.url := Archive.url a; Archive.videos := Archive.videos a;
   Archive.livestreams := Archive.livestreams a; Archive.shorts := Archive.shorts a;
   Archive.comment_authors := m; Archive.reporter := Archive.reporter a |}.

(** An [Archive()] whose attributes are not assigned yet. *)
Definition blank_archive : Archive.t :=
{| Archive.path := ""; Archive.version := 0; Archive.url := "";
   Archive.videos := []; Archive.livestreams := []; Archive.shorts := [];
   Archive.comment_authors := ∅; Archive.reporter := Reporter.empty |}.

(** [for id in encoded["comment_authors"].keys(): archive.comment_authors[id] = ...] *)
Fixpoint decode_authors (table : json) (keys : list string) (a : Archive.t)
  : result Archive.t :=
match keys with
| [] => Ok a
| id :: keys' =>
    head ← getitem id table;
    author ← CommentAuthor_from_dict_head a id head;
    decode_authors table keys'
      (set_comment_authors (<[id := author]> (Archive.comment_authors a)) a)
end.

(** [[Video._from_dict(video, archive) for video in items]]: every decoded
    video is a new object. *)
Fixpoint decode_videos (items : list json) (a : Archive.t)
  (objs : ref → Video.t) (fresh : ref) : result (list ref * (ref → Video.t) * ref) :=
match items with
| [] => Ok ([], objs, fresh)
| item :: items' =>
    video ← Video_from_dict item a;
    '(refs, objs', fresh') ← decode_videos items' a (<[fresh := video]> objs) (S fresh);
    Ok (fresh :: refs, objs', fresh')
end.

(** [Archive._from_dict(encoded, path)], run in state [σ]; the result is the
    state with the decoded archive in the place of the archive.  The record
    types [version] as an integer and [url] as a string, so a dictionary
    with other values there is refused here. *)
Definition _from_dict (encoded : json) (path : string) (σ : State) : result State :=
table ← getitem "comment_authors" encoded;
keys ← match table with
       | JDict fields => Ok (map fst fields)
       | _ => Raise AttributeError
       end;
a1 ← decode_authors table keys blank_archive;
version ← getitem "version" encoded;
version ← match version with JInt n => Ok n | _ => Raise TypeError end;
url ← getitem "url" encoded;
url ← match url with JStr s => Ok s | _ => Raise TypeError end;
let a2 :=
  {| Archive.path := path; Archive.version := version; Archive.url := url;
     Archive.videos := []; Archive.livestreams := []; Archive.shorts := [];
     Archive.comment_authors := Archive.comment_authors a1;
     Archive.reporter := Reporter.empty |} in
items ← getitem "videos" encoded;
items ← iterate items;
'(videos, objs1, fresh1) ← decode_videos items a2 (objs σ) (fresh σ);
let a3 :=
  {| Archive.path := path; Archive.version := version; Archive.url := url;
     Archive.videos := videos; Archive.livestreams := []; Archive.shorts := [];
     Archive.comment_authors := Archive.comment_authors a1;
     Archive.reporter := Reporter.empty |} in
items ← getitem "livestreams" encoded;
items ← iterate items;
'(livestreams, objs2, fresh2) ← decode_videos items a3 objs1 fresh1;
let a4 :=
  {| Archive.path := path; Archive.version := version; Archive.url := url;
     Archive.videos := videos; Archive.livestreams := livestreams; Archive.shorts := [];
     Archive.comment_authors := Archive.comment_authors a1;
     Archive.reporter := Reporter.empty |} in
items ← getitem "shorts" encoded;
items ← iterate items;
'(shorts, objs3, fresh3) ← decode_videos items a4 objs2 fresh2;
Ok {| objs := objs3; fresh := fresh3; out := out σ;
      archive :=
        {| Archive.path := path; Archive.version := version; Archive.url := url;
           Archive.videos := videos; Archive.livestreams := livestreams;
           Archive.shorts := shorts;
           Archive.comment_authors := ∅;
           Archive.reporter := Reporter.empty |} |}.

(** [Archive._to_dict] *)
Definition _to_dict (σ : State) : json :=
let a := archive σ in
let comment_authors :=
  map (λ kv : string * CommentAuthor.t, (kv.1, CommentAuthor_to_dict_head kv.2))
    (map_to_list (Archive.comment_authors a)) in
JDict
  [ ("version", JInt (Archive.version a));
    ("url", JStr (Archive.url a));
    ("videos", JList (map (λ video, Video_to_dict (objs σ video)) (Archive.videos a)));
    ("livestreams",
      JList (map (λ video, Video_to_dict (objs σ video)) (Archive.livestreams a)));
    ("shorts", JList (map (λ video, Video_to_dict (objs σ video)) (Archive.shorts a)));
    ("comment_authors", JDict comment_authors) ].

(** ** Commit *)

(** [json.dump] and the text of [datetime.utcnow().isoformat()]. *)
Variable json_dump : json → string.

(** [Archive._backup]; opening a directory for reading raises. *)
Definition _backup (utcnow : string) (σ : State) (fs : FS) : result FS :=
let ARCHIVE_PATH := join (Archive.path (archive σ)) "yark.json" in
if negb (exists_path fs ARCHIVE_PATH) then Ok fs
else
  match files fs !! ARCHIVE_PATH with
  | None => Raise OSError
  | Some file_archive =>
      let save :=
        "// Backup of a Yark archive, dated " +:+ utcnow +:+ newline +:+
        "// Remove these comments and rename to 'yark.json' to restore" +:+ newline +:+
        file_archive in
      Ok (write_file (join (Archive.path (archive σ)) "yark.bak") save fs)
  end.

(** [Archive.commit] *)
Definition commit (utcnow : string) (σ : State) (fs : FS) : result FS :=
fs1 ← _backup utcnow σ fs;
let path := Archive.path (archive σ) in
let paths := [path; join path "images"; join path "videos"] in
let fs2 :=
  foldl (λ (fs : FS) (path : string), if exists_path fs path then fs else mkdir path fs)
    fs1 paths in
Ok (write_file (join path "yark.json") (json_dump (_to_dict σ)) fs2).

End Codec.

(** ** Well-formed archives and consistent snapshots *)

Global Instance Bucket_eq_dec : EqDecision Bucket.
Proof. solve_decision. Defined.

(** The invariant of the data model: the references in the buckets are
    allocated, no object is in two buckets, and the ids of the videos of a
    bucket are pairwise distinct. *)
Definition well_formed (σ : State) : Prop :=
(∀ b r, r ∈ bucket b σ → (r < fresh σ)%nat)
∧ (∀ b1 b2 r, b1 ≠ b2 → r ∈ bucket b1 σ → r ∉ bucket b2 σ)
∧ (∀ b, NoDup (map (λ r, Video.id (objs σ r)) (bucket b σ))).

Definition has_formats (entry : RawEntry.t) : bool :=
match RawEntry.formats entry with
| Some (_ :: _) => true
| _ => false
end.

(** Two entries carry the same tracked fields. *)
Definition same_fields (e e' : RawEntry.t) : Prop :=
RawEntry.title e = RawEntry.title e'
∧ RawEntry.description e = RawEntry.description e'
∧ RawEntry.view_count e = RawEntry.view_count e'
∧ RawEntry.like_count e = RawEntry.like_count e'
∧ RawEntry.thumbnail e = RawEntry.thumbnail e'.

(** Entries of one list that have formats and share an id carry the same
    tracked fields. *)
Definition consistent (entries : list RawEntry.t) : Prop :=
∀ e e', e ∈ entries → e' ∈ entries → has_formats e = true → has_formats e' = true →
  RawEntry.id e = RawEntry.id e' → same_fields e e'.

(** The current values of a video are those of an entry, and the video is
    confirmed present. *)
Definition settled_video (dflt : Defaults) (e : RawEntry.t) (v : Video.t) : Prop :=
RawEntry.title e = Element.current (d_title dflt) (Video.title v)
∧ RawEntry.description e = Element.current (d_description dflt) (Video.description v)
∧ RawEntry.view_count e = Element.current (d_views dflt) (Video.views v)
∧ RawEntry.like_count e = Element.current (d_likes dflt) (Video.likes v)
∧ RawEntry.thumbnail e = Element.current (d_thumbnail dflt) (Video.thumbnail v)
∧ Video.known_not_deleted v = true.

(** A list of references is ordered newest first. *)
Fixpoint is_newest_first (objs : ref → Video.t) (l : list ref) : bool :=
match l with
| [] => true
| x :: l' =>
    match l' with
    | [] => true
    | y :: _ => (Video.uploaded (objs y) <=? Video.uploaded (objs x))%Z
    end && is_newest_first objs l'
end.

(** A bucket after the ingestion of [entries]: distinct ids, every entry
    with formats has its video with the entry's values, newest first. *)
Definition settled_bucket (dflt : Defaults) (b : Bucket) (entries : list RawEntry.t)
  (σ : State) : Prop :=
NoDup (map (λ r, Video.id (objs σ r)) (bucket b σ))
∧ (∀ e, e ∈ entries → has_formats e = true →
     ∃ r, r ∈ bucket b σ ∧ Video.id (objs σ r) = RawEntry.id e
          ∧ settled_video dflt e (objs σ r))
∧ is_newest_first (objs σ) (bucket b σ) = true.

(** ** What a run of the download loop looks like *)






(** The buckets other than [b] and their objects are in [σ'] as in [σ]. *)
Definition frame (b : Bucket) (σ σ' : State) : Prop :=
∀ b', b' ≠ b → bucket b' σ' = bucket b' σ
               ∧ ∀ r, r ∈ bucket b' σ → objs σ' r = objs σ r.

(** ** The reading of the specification, and sample data *)


(** The specification's wording of the lookup: the first video with the id
    in any of the three buckets. *)
Definition spec_search (σ : State) (id : string) : option ref :=
find_id (objs σ) id
  (Archive.videos (archive σ) ++ Archive.livestreams (archive σ)
   ++ Archive.shorts (archive σ)).




(** The condition of [_report_deleted]: the deleted flag is not set and the
    video was not confirmed present. *)
Definition unreported_absent (dflt : Defaults) (σ : State) (video : ref) : bool :=
bool_decide (deleted_current dflt σ video = false)
&& negb (Video.known_not_deleted (objs σ video)).

Definition sample_entry (id title : string) (upload_date : Z) : RawEntry.t :=
{| RawEntry.id := id; RawEntry.title := title; RawEntry.description := "";
   RawEntry.view_count := 0; RawEntry.like_count := None;
   RawEntry.thumbnail := ""; RawEntry.formats := Some ["mp4"];
   RawEntry.upload_date := upload_date |}.

Definition sample_defaults : Defaults :=
{| d_title := ""; d_description := ""; d_views := 0; d_likes := None;
   d_thumbnail := ""; d_deleted := false |}.

(** A store that holds the given videos at the references 0, 1, ... *)
Definition sample_objs (l : list Video.t) : ref → Video.t :=
λ r, default (Video.new 0 (sample_entry "" "" 0)) (l !! r).

(** A state with the given objects and buckets of references. *)
Definition sample_state (l : list Video.t) (videos livestreams shorts : list ref) : State :=
{| objs := sample_objs l; fresh := length l; out := [];
   archive :=
     {| Archive.path := "demo"; Archive.version := ARCHIVE_COMPAT;
        Archive.url := "https://www.youtube.com/channel/demo";
        Archive.videos := videos; Archive.livestreams := livestreams;
        Archive.shorts := shorts; Archive.comment_authors := ∅;
        Archive.reporter := Reporter.empty |} |}.

(** Surroundings in which exactly the videos with the listed ids are
    downloaded. *)
Definition sample_downloaded (w : list string) (v : Video.t) : bool :=
bool_decide (Video.id v ∈ w).

(** A video as it is after a load from disk: not confirmed present yet. *)
Definition sample_loaded (v : Video.t) : Video.t :=
{| Video.id := Video.id v; Video.uploaded := Video.uploaded v;
   Video.title := Video.title v; Video.description := Video.description v;
   Video.views := Video.views v; Video.likes := Video.likes v;
   Video.thumbnail := Video.thumbnail v; Video.deleted := Video.deleted v;
   Video.known_not_deleted := false |}.

(** A remote service that fails every bulk download with a server error,
    and one that fails every metadata request. *)
Definition sample_url (v : Video.t) : string :=
"https://www.youtube.com/watch?v=" +:+ Video.id v.

Definition sample_failing_download (w : list string) (urls : list string)
  : list string * option exn :=
(w, Some (DownloadError "HTTP Error 500: Internal Server Error")).


Definition sample_config : Config.t :=
{| Config.max_videos := None; Config.max_livestreams := None;
   Config.max_shorts := None; Config.comments := false;
   Config.format := None; Config.proxy := None |}.

(** ** Stores on disk *)

Definition is_dict (e : json) : bool :=
match e with
| JDict _ => true
| _ => false
end.

(** A dictionary with one more assignment; anything else as it is. *)
Definition with_key (key : string) (value : json) (e : json) : json :=
match e with
| JDict fields => JDict (dict_set key value fields)
| _ => e
end.

(** An empty file system, a rename and a converter that succeed. *)
Definition sample_fs : FS := {| files := ∅; dirs := ∅ |}.
Definition sample_rename (fs : FS) (src dst : string) : option FS := Some fs.
Definition sample_converter (fs : FS) (path : string) : FS * option exn := (fs, None).

(** A version 1 store with one video. *)
Definition sample_store_v1 : json :=
JDict [("version", JInt 1); ("id", JStr "UCdemo");
       ("videos", JList [JDict [("id", JStr "a"); ("title", JDict [])]])].

(** Codecs that keep the id of a video and nothing of an author. *)
Definition sample_video_to_dict (v : Video.t) : json :=
JDict [("id", JStr (Video.id v))].

Definition sample_video_from_dict (encoded : json) (a : Archive.t) : result Video.t :=
id ← getitem "id" encoded;
match id with
| JStr s => Ok (sample_loaded (Video.new 0 (sample_entry s "" 0)))
| _ => Raise TypeError
end.

Definition sample_author_to_dict (c : CommentAuthor.t) : json := JDict [].

Definition sample_author_from_dict (a : Archive.t) (id : string) (head : json)
  : result CommentAuthor.t :=
Ok {| CommentAuthor.id := id;
      CommentAuthor.name := {| Element.inner := [] |};
      CommentAuthor.icon := {| Element.inner := [] |} |}.

(** ** Further readings of the code *)

(** The maximum that [_curate] applies to a bucket. *)
Definition maximum_of (config : Config.t) (b : Bucket) : option Z :=
match b with
| Videos => Config.max_videos config
| Livestreams => Config.max_livestreams config
| Shorts => Config.max_shorts config
end.

(** The calls of [ydl.download] among some events. *)
Definition is_request (ev : event) : bool :=
match ev with
| Requested _ => true
| _ => false
end.

Definition requests (events : list event) : nat :=
length (filter (λ ev, is_request ev = true) events).

(** The video [v'] continues the video [v]: the identity and the recency
    key are the same, and each of the six histories of [v] is the beginning
    of the corresponding history of [v']. *)
Definition continues (v v' : Video.t) : Prop :=
Video.id v' = Video.id v
∧ Video.uploaded v' = Video.uploaded v
∧ Element.inner (Video.title v) `prefix_of` Element.inner (Video.title v')
∧ Element.inner (Video.description v) `prefix_of` Element.inner (Video.description v')
∧ Element.inner (Video.views v) `prefix_of` Element.inner (Video.views v')
∧ Element.inner (Video.likes v) `prefix_of` Element.inner (Video.likes v')
∧ Element.inner (Video.thumbnail v) `prefix_of` Element.inner (Video.thumbnail v')
∧ Element.inner (Video.deleted v) `prefix_of` Element.inner (Video.deleted v').

(** ** Creation and loading of an archive *)

(** How [Archive.load] ends: with the archive, with
    [ArchiveNotFoundException] of [yark/errors.py], which its callers catch
    by name, or with another exception. *)
Inductive loaded (A : Type) : Type :=
  | Loaded (a : A)
  | ArchiveNotFoundException (msg : string)
  | LoadFailed (e : exn).
Arguments Loaded {A} a.
Arguments ArchiveNotFoundException {A} msg.
Arguments LoadFailed {A} e.

(** The integer that [==] compares a value with: Python takes [True] for 1
    and [False] for 0; a string, a list, a dictionary or [None] is equal to
    no integer. *)
Definition as_int (e : json) : option Z :=
match e with
| JInt n => Some n
| JBool b => Some (if b then 1 else 0)
| _ => None
end.

Section Lifecycle.
(** The operating system, the converter and the codecs as in the sections
    above, with [json.load] on the text of a file. *)
Variable rename : FS → string → string → option FS.
Variable converter_run : FS → string → FS * option exn.
Variable deleted_false : json.
Variable Video_to_dict : Video.t → json.
Variable Video_from_dict : json → Archive.t → result Video.t.
Variable CommentAuthor_to_dict_head : CommentAuthor.t → json.
Variable CommentAuthor_from_dict_head : Archive.t → string → json → result CommentAuthor.t.
Variable json_dump : json → string.
Variable json_load : string → result json.

(** [Archive.new(path, url)]: the archive object takes the place of the
    archive in the state. *)
Definition new (utcnow path url : string) (σ : State) (fs : FS) : result (State * FS) :=
let σ1 :=
  {| objs := objs σ; fresh := fresh σ; out := out σ;
     archive :=
       {| Archive.path := path; Archive.version := ARCHIVE_COMPAT; Archive.url := url;
          Archive.videos := []; Archive.livestreams := []; Archive.shorts := [];
          Archive.comment_authors := ∅; Archive.reporter := Reporter.empty |} |} in
fs1 ← commit Video_to_dict CommentAuthor_to_dict_head json_dump utcnow σ1 fs;
Ok (σ1, fs1).

(** [Archive.load(path)].  A version that is no integer is equal to none of
    the versions that [migrate_step] compares it with, which ends in
    [sys.exit(1)].  [None] is a migration that needs more than the
    recursion depth of [_migrate_archive]. *)
Definition load (path : string) (σ : State) (fs : FS) : option (FS * loaded State) :=
if negb (exists_path fs path) then
  Some (fs, ArchiveNotFoundException "Archive doesn't exist")
else
  match files fs !! join path "yark.json" with
  | None => Some (fs, LoadFailed OSError)
  | Some text =>
      match json_load text with
      | Raise e => Some (fs, LoadFailed e)
      | Ok encoded =>
          match getitem "version" encoded with
          | Raise e => Some (fs, LoadFailed e)
          | Ok archive_version =>
              '(fs1, migrated, _) ←
                (if bool_decide (as_int archive_version = Some ARCHIVE_COMPAT)
                 then Some (fs, Ok encoded, [])
                 else
                   match as_int archive_version with
                   | Some current_version =>
                       _migrate_archive rename converter_run deleted_false
                         current_version ARCHIVE_COMPAT encoded path fs
                   | None => Some (fs, Raise (SystemExit 1), [])
                   end);
              match migrated with
              | Raise e => Some (fs1, LoadFailed e)
              | Ok encoded =>
                  match _from_dict Video_from_dict CommentAuthor_from_dict_head
                          encoded path σ with
                  | Raise e => Some (fs1, LoadFailed e)
                  | Ok σ' => Some (fs1, Loaded σ')
                  end
              end
          end
      end
  end.

End Lifecycle.

(** ** Strings *)

(** [s.split(sep)] for a separator that is not empty: the parts of [s]
    between the occurrences of [sep], which are looked for from the left,
    each one behind the end of the one before.  [skip] counts the
    characters of an occurrence that are still to pass, [part] is the part
    read so far. *)
Fixpoint split_from (sep : string) (skip : nat) (part s : string) : list string :=
match s with
| EmptyString => [part]
| String c rest =>
    match skip with
    | S skip' => split_from sep skip' part rest
    | O =>
        if String.prefix sep s
        then part :: split_from sep (String.length sep - 1) "" rest
        else split_from sep 0 (part +:+ String c "") rest
    end
end.

Definition str_split (sep s : string) : list string := split_from sep 0 "" s.

(** [s.lower()] on the bytes of a string: the letters A to Z become a to z.
    Python also lowers the letters outside ASCII, which stay as they are
    here; no such letter lowers to a string of ASCII letters that occurs
    in "videos", "live" or "shorts", the words the result is compared
    with. *)
Definition char_lower (c : Ascii.ascii) : Ascii.ascii :=
let n := Ascii.nat_of_ascii c in
if ((65 <=? n) && (n <=? 90))%nat then Ascii.ascii_of_nat (n + 32) else c.

Fixpoint str_lower (s : string) : string :=
match s with
| EmptyString => EmptyString
| String c rest => String (char_lower c) (str_lower rest)
end.

(** ** The buckets of a fetched snapshot *)

(** ["entries" in e], for the string [needle]: a key of a dictionary, an
    item of a list, a part of a string. *)
Definition contains_str (needle : string) (e : json) : result bool :=
match e with
| JDict fields => Ok (bool_decide (is_Some (dict_get needle fields)))
| JList items =>
    Ok (existsb (λ item, match item with
                         | JStr s => bool_decide (s = needle)
                         | _ => false
                         end) items)
| JStr s => Ok (str_in needle s)
| _ => Raise TypeError
end.

(** [e[0]]; a dictionary of [json.load] has no key 0. *)
Definition getitem_0 (e : json) : result json :=
match e with
| JList (item :: _) => Ok item
| JList [] => Raise IndexError
| JStr (String c _) => Ok (JStr (String c EmptyString))
| JStr EmptyString => Raise IndexError
| JDict _ => Raise (KeyError "0")
| _ => Raise TypeError
end.

(** [entry["title"].split(" - ")[-1].lower()] *)
Definition kind_of (entry : json) : result string :=
title ← getitem "title" entry;
match title with
| JStr s =>
    match last (str_split " - " s) with
    | Some part => Ok (str_lower part)
    | None => Raise IndexError
    end
| _ => Raise AttributeError
end.

(** The loop [for entry in res["entries"]] of [Archive.metadata] over the
    remaining entries.  [warned] lists the kinds that [_err_msg] has
    warned about so far. *)
Fixpoint split_entries (entries : list json) (videos livestreams shorts : json)
  (warned : list string) : list string * result (json * json * json) :=
match entries with
| [] => (warned, Ok (videos, livestreams, shorts))
| entry :: rest =>
    match kind_of entry with
    | Raise e => (warned, Raise e)
    | Ok kind =>
        if decide (kind = "videos") then
          match getitem "entries" entry with
          | Raise e => (warned, Raise e)
          | Ok videos => split_entries rest videos livestreams shorts warned
          end
        else if decide (kind = "live") then
          match getitem "entries" entry with
          | Raise e => (warned, Raise e)
          | Ok livestreams => split_entries rest videos livestreams shorts warned
          end
        else if decide (kind = "shorts") then
          match getitem "entries" entry with
          | Raise e => (warned, Raise e)
          | Ok shorts => split_entries rest videos livestreams shorts warned
          end
        else split_entries rest videos livestreams shorts (warned ++ [kind])
    end
end.

(** The middle of [Archive.metadata]: the three lists of entries that the
    response [res] of [extract_info] is cut into, with the kinds warned
    about. *)
Definition metadata_buckets (res : json) : list string * result (json * json * json) :=
match
  entries ← getitem "entries" res;
  first ← getitem_0 entries;
  nested ← contains_str "entries" first;
  Ok (entries, nested)
with
| Raise e => ([], Raise e)
| Ok (entries, false) => ([], Ok (entries, JList [], JList []))
| Ok (entries, true) =>
    match iterate entries with
    | Raise e => ([], Raise e)
    | Ok items => split_entries items (JList []) (JList []) (JList []) []
    end
end.

(** The playlist [item] is of the kind [kind]. *)
Definition is_kind (kind : string) (item : json) : bool :=
match kind_of item with
| Ok k => bool_decide (k = kind)
| Raise _ => false
end.

(** The entries of the last playlist of a kind among the playlists
    [items], or [init] when there is none. *)
Definition playlist_of (kind : string) (items : list json) (init : json) : json :=
match last (filter (λ item, is_kind kind item = true) items) with
| Some item =>
    match getitem "entries" item with
    | Ok entries => entries
    | Raise _ => init
    end
| None => init
end.

(** The kinds among the playlists [items] that are none of the three. *)
Definition unknown_kinds (items : list json) : list string :=
omap (λ item, match kind_of item with
              | Ok kind =>
                  if decide (kind ∈ ["videos"; "live"; "shorts"]) then None else Some kind
              | Raise _ => None
              end) items.

(** A playlist of the response: a title that is a string, and entries. *)
Definition is_playlist (item : json) : Prop :=
∃ title entries, getitem "title" item = Ok (JStr title)
                 ∧ getitem "entries" item = Ok entries.

(** ** The timestamps of the viewer *)

(** How [_decode_timestamp] of [yark/viewer.py] ends: with the seconds, or
    with [TimestampException] of [yark/errors.py]. *)
Inductive decoded : Type :=
  | Seconds (secs : Z)
  | TimestampException (msg : string).

Section Timestamp.
(** [str.strip] and [int] of Python; [None] is an exception of [int]. *)
Variable strip : string → string.
Variable int : string → option Z.

(** [_decode_timestamp(input)]; whatever is raised between [try] and
    [except] ends in the same [TimestampException]. *)
Definition _decode_timestamp (input : string) : decoded :=
let input := strip input in
if decide (input = "") then TimestampException "No input provided"
else
  let splitted := rev (str_split ":" input) in
  if decide (3 < length splitted)%nat
  then TimestampException "Days and onwards aren't supported"
  else
    match
      seconds ← splitted !! 0%nat ≫= int;
      let secs := (0 + seconds)%Z in
      secs ← (if decide (1 < length splitted)%nat
              then minutes ← splitted !! 1%nat ≫= int; Some (secs + minutes * 60)%Z
              else Some secs);
      if decide (2 < length splitted)%nat
      then hours ← splitted !! 2%nat ≫= int; Some (secs + hours * 60 * 60)%Z
      else Some secs
    with
    | Some secs => Seconds secs
    | None => TimestampException "Only numbers are allowed in timestamps"
    end.

End Timestamp.

(** ** The configuration arguments of [yark refresh] *)

(** The [Config] object of [cli.py]: the fields that [archive.py] reads,
    and the two that [cli.py] reads itself. *)
Record CliConfig : Type := {
  config : Config.t;
  skip_metadata : bool;
  skip_download : bool
}.

Definition set_config (f : Config.t → Config.t) (c : CliConfig) : CliConfig :=
{| config := f (config c); skip_metadata := skip_metadata c;
   skip_download := skip_download c |}.

Definition set_comments (v : bool) (c : Config.t) : Config.t :=
{| Config.max_videos := Config.max_videos c;
   Config.max_livestreams := Config.max_livestreams c;
   Config.max_shorts := Config.max_shorts c; Config.comments := v;
   Config.format := Config.format c; Config.proxy := Config.proxy c |}.

Definition set_max_videos (v : option Z) (c : Config.t) : Config.t :=
{| Config.max_videos := v;
   Config.max_livestreams := Config.max_livestreams c;
   Config.max_shorts := Config.max_shorts c; Config.comments := Config.comments c;
   Config.format := Config.format c; Config.proxy := Config.proxy c |}.

Definition set_max_livestreams (v : option Z) (c : Config.t) : Config.t :=
{| Config.max_videos := Config.max_videos c;
   Config.max_livestreams := v;
   Config.max_shorts := Config.max_shorts c; Config.comments := Config.comments c;
   Config.format := Config.format c; Config.proxy := Config.proxy c |}.

Definition set_max_shorts (v : option Z) (c : Config.t) : Config.t :=
{| Config.max_videos := Config.max_videos c;
   Config.max_livestreams := Config.max_livestreams c;
   Config.max_shorts := v; Config.comments := Config.comments c;
   Config.format := Config.format c; Config.proxy := Config.proxy c |}.

Definition set_format (v : option string) (c : Config.t) : Config.t :=
{| Config.max_videos := Config.max_videos c;
   Config.max_livestreams := Config.max_livestreams c;
   Config.max_shorts := Config.max_shorts c; Config.comments := Config.comments c;
   Config.format := v; Config.proxy := Config.proxy c |}.

Definition set_proxy (v : option string) (c : Config.t) : Config.t :=
{| Config.max_videos := Config.max_videos c;
   Config.max_livestreams := Config.max_livestreams c;
   Config.max_shorts := Config.max_shorts c; Config.comments := Config.comments c;
   Config.format := Config.format c; Config.proxy := v |}.

Section CliArguments.
(** [int] of Python; [None] is an exception of [int]. *)
Variable int : string → option Z.

(** [config_arg.split("=")[1]] *)
Definition parse_value (config_arg : string) : result string :=
match str_split "=" config_arg !! 1%nat with
| Some value => Ok value
| None => Raise IndexError
end.

(** [parse_maximum_int]: the value is taken before the [try]. *)
Definition parse_maximum_int (config_arg : string) : result Z :=
maximum ← parse_value config_arg;
match int maximum with
| Some n => Ok n
| None => Raise (SystemExit 1)
end.

(** One turn of the loop [for config_arg in args[2:]]. *)
Definition parse_config_arg (c : CliConfig) (config_arg : string) : result CliConfig :=
if String.prefix "--comments" config_arg then Ok (set_config (set_comments true) c)
else if String.prefix "--videos=" config_arg then
  n ← parse_maximum_int config_arg; Ok (set_config (set_max_videos (Some n)) c)
else if String.prefix "--livestreams=" config_arg then
  n ← parse_maximum_int config_arg; Ok (set_config (set_max_livestreams (Some n)) c)
else if String.prefix "--shorts=" config_arg then
  n ← parse_maximum_int config_arg; Ok (set_config (set_max_shorts (Some n)) c)
else if decide (config_arg = "--skip-metadata") then
  Ok {| config := config c; skip_metadata := true; skip_download := skip_download c |}
else if decide (config_arg = "--skip-download") then
  Ok {| config := config c; skip_metadata := skip_metadata c; skip_download := true |}
else if String.prefix "--format=" config_arg then
  v ← parse_value config_arg; Ok (set_config (set_format (Some v)) c)
else if String.prefix "--proxy=" config_arg then
  v ← parse_value config_arg; Ok (set_config (set_proxy (Some v)) c)
else Raise (SystemExit 1).

Fixpoint parse_config_args (c : CliConfig) (args : list string) : result CliConfig :=
match args with
| [] => Ok c
| config_arg :: rest => c' ← parse_config_arg c config_arg; parse_config_args c' rest
end.

End CliArguments.

(** The argument [config_arg] is one that [yark refresh] knows. *)
Definition known_argument (config_arg : string) : bool :=
String.prefix "--comments" config_arg || String.prefix "--videos=" config_arg
|| String.prefix "--livestreams=" config_arg || String.prefix "--shorts=" config_arg
|| bool_decide (config_arg = "--skip-metadata")
|| bool_decide (config_arg = "--skip-download")
|| String.prefix "--format=" config_arg || String.prefix "--proxy=" config_arg.

(** * Properties *)

(** ** Curation *)

Section CurationFacts.
Context {World : Type} (downloaded : World → Video.t → bool).

Lemma take_indices_seq (videos : list ref) (i n : nat) :
  (i + n ≤ length videos)%nat →
  take_indices videos (seq i n) = Ok (take n (drop i videos)).
Proof.
  revert i. induction n as [|n IH]; intros i Hlen; simpl.
  - done.
  - destruct (lookup_lt_is_Some_2 videos i) as [video Hvideo]; [lia|].
    rewrite Hvideo, IH by lia. simpl.
    rewrite (drop_S _ _ _ Hvideo). done.
Qed.

Lemma curate_list_some (w : World) (objs : ref → Video.t) (videos : list ref) (m : Z) :
  curate_list downloaded w objs videos (Some m) =
  Ok (filter (λ video, downloaded w (objs video) = false)
        (take (Z.to_nat (Z.min (Z.max (Z.of_nat (length videos) - 1) 0) m)) videos)).
Proof.
  unfold curate_list, range.
  rewrite take_indices_seq by lia. by rewrite drop_0.
Qed.

Lemma filter_all {A} (P : A → Prop) `{∀ x, Decision (P x)} (l : list A) :
  Forall P l → filter P l = l.
Proof.
  induction 1 as [|x l Hx _ IH]; [done|].
  rewrite filter_cons_True by done. by rewrite IH.
Qed.

(** C1: with a maximum [m] set, curation of a bucket returns, in order, the
    videos that are not downloaded among the first
    [min(max(len(bucket) - 1, 0), m)] videos of the bucket, and it never
    raises; so ten videos, none of them downloaded, with maximum 3 give
    three candidates, and a single video with maximum 5 gives none. *)
Theorem curate_list_considers_prefix
  (w : World) (objs : ref → Video.t) (videos : list ref) (m : Z) :
  curate_list downloaded w objs videos (Some m) =
    Ok (filter (λ video, downloaded w (objs video) = false)
          (take (Z.to_nat (Z.min (Z.max (Z.of_nat (length videos) - 1) 0) m)) videos))
  ∧ (length videos = 10%nat →
     Forall (λ video, downloaded w (objs video) = false) videos →
     ∃ candidates,
       curate_list downloaded w objs videos (Some 3) = Ok candidates
       ∧ candidates = take 3 videos ∧ length candidates = 3%nat)
  ∧ (length videos = 1%nat → curate_list downloaded w objs videos (Some 5) = Ok []).
Proof.
  split; [apply curate_list_some|split].
  - intros Hlen Hall. eexists. split; [apply curate_list_some|].
    rewrite Hlen. change (Z.to_nat _) with 3%nat.
    rewrite filter_all by (by apply Forall_take).
    split; [done|]. rewrite length_take. lia.
  - intros Hlen. rewrite curate_list_some, Hlen. done.
Qed.

End CurationFacts.

(** Ten videos that are not downloaded with maximum 3, and one with
    maximum 5. *)
Lemma curate_list_considers_prefix_witness :
  curate_list (λ (_ : unit) (_ : Video.t), false) () (λ _, Video.new 0
      {| RawEntry.id := "a"; RawEntry.title := ""; RawEntry.description := "";
         RawEntry.view_count := 0; RawEntry.like_count := None;
         RawEntry.thumbnail := ""; RawEntry.formats := Some ["mp4"];
         RawEntry.upload_date := 0 |})
    (seq 0 10) (Some 3) = Ok [0; 1; 2]%nat.
Proof.
  destruct (curate_list_considers_prefix (λ (_ : unit) (_ : Video.t), false) ()
    (λ _, Video.new 0
      {| RawEntry.id := "a"; RawEntry.title := ""; RawEntry.description := "";
         RawEntry.view_count := 0; RawEntry.like_count := None;
         RawEntry.thumbnail := ""; RawEntry.formats := Some ["mp4"];
         RawEntry.upload_date := 0 |}) (seq 0 10) 3) as (_ & H & _).
  destruct H as (candidates & Hc & Htake & _).
  - reflexivity.
  - repeat constructor.
  - rewrite Hc, Htake. reflexivity.
Defined.

(** ** Search by id *)

Lemma find_id_Some (objs : ref → Video.t) (id : string) (videos : list ref) (video : ref) :
  find_id objs id videos = Some video →
  video ∈ videos ∧ Video.id (objs video) = id.
Proof.
  unfold find_id. intros H. apply find_some in H as [Hin Hid].
  split; [by apply list_elem_of_In|]. by apply bool_decide_eq_true in Hid.
Qed.

Lemma find_id_None (objs : ref → Video.t) (id : string) (videos : list ref) :
  find_id objs id videos = None ↔ ∀ video, video ∈ videos → Video.id (objs video) ≠ id.
Proof.
  unfold find_id. split.
  - intros H video Hin Hid. apply list_elem_of_In in Hin.
    apply (find_none _ _ H) in Hin. by apply bool_decide_eq_false in Hin.
  - intros H. destruct (find _ _) as [video|] eqn:Hf; [|done].
    apply find_some in Hf as [Hin Hid]. apply list_elem_of_In in Hin.
    apply bool_decide_eq_true in Hid. by destruct (H video Hin).
Qed.

Lemma find_id_is_Some (objs : ref → Video.t) (id : string) (videos : list ref) :
  (∃ video, video ∈ videos ∧ Video.id (objs video) = id) →
  is_Some (find_id objs id videos).
Proof.
  intros (video & Hin & Hid). destruct (find_id objs id videos) eqn:Hf; [eauto|].
  by destruct (proj1 (find_id_None _ _ _) Hf video Hin).
Qed.

(** ** Lookup *)

Lemma search_outside_videos (σ : State) (id : string) :
  (∀ video, video ∈ Archive.videos (archive σ) → Video.id (objs σ video) ≠ id) →
  search σ id = Raise (VideoNotFoundException ("Couldn't find " +:+ id +:+ " inside archive")).
Proof.
  intros Hnone. unfold search.
  change (find _ _) with (find_id (objs σ) id (Archive.videos (archive σ))).
  by rewrite (proj2 (find_id_None _ _ _) Hnone).
Qed.

(** C9: the lookup goes through the regular bucket only.  For an archive
    whose only item, with id "x", is a livestream, [search "x"] raises
    [VideoNotFoundException], although the id is present in a bucket and the
    lookup of the specification finds it. *)
Theorem search_misses_livestream :
  let σ := sample_state [Video.new 0 (sample_entry "x" "t" 0)] [] [0%nat] [] in
  search σ "x" = Raise (VideoNotFoundException "Couldn't find x inside archive")
  ∧ spec_search σ "x" = Some 0%nat.
Proof. split; reflexivity. Qed.

(** ** Skipping and classification of download errors *)

Section DownloadFacts.
Context {World : Type}.
Variable downloaded : World → Video.t → bool.
Variable clock : World → Time.
Variable dflt : Defaults.

Lemma first_undownloaded_spec (w : World) (objs : ref → Video.t)
  (videos : list ref) (i ind : nat) (video : ref) :
  first_undownloaded downloaded w objs videos i = Some (ind, video) →
  ∃ k, ind = (i + k)%nat ∧ videos !! k = Some video
       ∧ downloaded w (objs video) = false
       ∧ Forall (λ v, downloaded w (objs v) = true) (take k videos).
Proof.
  revert i. induction videos as [|v rest IH]; intros i; simpl; [done|].
  destruct (downloaded w (objs v)) eqn:Hv.
  - intros H. destruct (IH _ H) as (k & -> & Hk & Hd & Hall).
    exists (S k). repeat split; [lia|done|done|]. simpl. by constructor.
  - intros [= <- <-]. exists 0%nat. repeat split; [lia|done|]. constructor.
Qed.

Lemma first_undownloaded_none (w : World) (objs : ref → Video.t)
  (videos : list ref) (i : nat) :
  first_undownloaded downloaded w objs videos i = None →
  Forall (λ v, downloaded w (objs v) = true) videos.
Proof.
  revert i. induction videos as [|v rest IH]; intros i; simpl; [constructor|].
  destruct (downloaded w (objs v)) eqn:Hv; [|done].
  intros H. constructor; [done|]. by eapply IH.
Qed.

Lemma current_update {T} `{EqDecision T} (d : T) (now : Time)
  (ts : option Time) (v : T) (e : Element.t T) :
  Element.current d (Element.update d now ts v e) = v.
Proof.
  unfold Element.update. destruct (decide _) as [->|_]; [done|].
  unfold Element.current. simpl. by rewrite last_snoc.
Qed.



End DownloadFacts.



(** ** Deletion reporting *)

Section ReportFacts.
Variable dflt : Defaults.

Lemma filter_ext_in {A} (P Q : A → Prop)
  `{!∀ x, Decision (P x), !∀ x, Decision (Q x)} (l : list A) :
  (∀ x, x ∈ l → P x ↔ Q x) → filter P l = filter Q l.
Proof.
  induction l as [|a l IH]; intros Hext; [done|].
  rewrite !filter_cons, IH by (intros x Hx; apply Hext; by right).
  assert (P a ↔ Q a) as Ha by (apply Hext; by left).
  destruct (decide (P a)), (decide (Q a)); tauto || done.
Qed.

Lemma report_deleted_video_objs (now : Time) (σ : State) (video u : ref) :
  objs (report_deleted_video dflt now σ video) u =
  if decide (u = video ∧ unreported_absent dflt σ video = true)
  then Video.set_deleted
         (Element.update (d_deleted dflt) now None true (Video.deleted (objs σ u)))
         (objs σ u)
  else objs σ u.
Proof.
  unfold report_deleted_video, unreported_absent.
  destruct (bool_decide _ && negb _) eqn:Hc; simpl.
  - destruct (decide (u = video)) as [->|Hne].
    + rewrite fn_lookup_insert. by rewrite decide_True.
    + rewrite fn_lookup_insert_ne by done. rewrite decide_False; [done|]. by intros [? _].
  - rewrite decide_False; [done|]. by intros [_ ?].
Qed.

Lemma report_deleted_video_reporter (now : Time) (σ : State) (video : ref) :
  Reporter.deleted (Archive.reporter (archive (report_deleted_video dflt now σ video))) =
  Reporter.deleted (Archive.reporter (archive σ))
  ++ (if unreported_absent dflt σ video then [video] else []).
Proof.
  unfold report_deleted_video, unreported_absent.
  destruct (bool_decide _ && negb _); simpl; [done|]. by rewrite app_nil_r.
Qed.

Lemma unreported_absent_ext (σ σ' : State) (u : ref) :
  objs σ' u = objs σ u → unreported_absent dflt σ' u = unreported_absent dflt σ u.
Proof. unfold unreported_absent, deleted_current. by intros ->. Qed.

Lemma unreported_absent_flagged (now : Time) (σ σ' : State) (u : ref) :
  objs σ' u = Video.set_deleted
    (Element.update (d_deleted dflt) now None true (Video.deleted (objs σ u))) (objs σ u) →
  unreported_absent dflt σ' u = false.
Proof.
  unfold unreported_absent, deleted_current. intros ->. simpl.
  rewrite current_update. done.
Qed.

Lemma report_deleted_spec (now : Time) (videos : list ref) (σ : State) :
  NoDup videos →
  Reporter.deleted (Archive.reporter (archive (_report_deleted dflt now videos σ))) =
    Reporter.deleted (Archive.reporter (archive σ))
    ++ filter (λ v, unreported_absent dflt σ v = true) videos
  ∧ ∀ u, objs (_report_deleted dflt now videos σ) u =
      if decide (u ∈ videos ∧ unreported_absent dflt σ u = true)
      then Video.set_deleted
             (Element.update (d_deleted dflt) now None true (Video.deleted (objs σ u)))
             (objs σ u)
      else objs σ u.
Proof.
  revert σ. induction videos as [|v rest IH]; intros σ Hnd.
  - split; [simpl; by rewrite app_nil_r|].
    intros u. destruct (decide _) as [[H _]|_]; [by apply elem_of_nil in H|done].
  - apply NoDup_cons in Hnd as [Hv Hnd].
    change (_report_deleted dflt now (v :: rest) σ)
      with (_report_deleted dflt now rest (report_deleted_video dflt now σ v)).
    destruct (IH (report_deleted_video dflt now σ v) Hnd) as [IHr IHo].
    assert (Hrest : ∀ u, u ∈ rest →
      unreported_absent dflt (report_deleted_video dflt now σ v) u
      = unreported_absent dflt σ u).
    { intros u Hu. apply unreported_absent_ext. rewrite report_deleted_video_objs.
      rewrite decide_False; [done|]. intros [-> _]. done. }
    split.
    + rewrite IHr, report_deleted_video_reporter, <-(assoc_L (++)). f_equal.
      rewrite filter_cons.
      rewrite (filter_ext_in _ (λ u, unreported_absent dflt σ u = true)).
      * destruct (unreported_absent dflt σ v) eqn:Hc.
        -- by rewrite decide_True.
        -- by rewrite decide_False.
      * intros u Hu. by rewrite Hrest.
    + intros u. rewrite IHo, !report_deleted_video_objs.
      destruct (decide (u ∈ rest)) as [Hu|Hu].
      * rewrite (Hrest u Hu). assert (u ≠ v) by (by intros ->).
        repeat case_decide; try done; exfalso; rewrite ?elem_of_cons in *; naive_solver.
      * repeat case_decide; try done; exfalso; rewrite ?elem_of_cons in *; naive_solver.
Qed.


End ReportFacts.


(** ** Merge or create *)

(** C8: merge or create over one entry.  Without a format list that is not
    empty the entry is skipped and nothing changes.  Otherwise, when a video
    of the bucket has the id of the entry, one such video is updated in
    place, the bucket and the reporter stay as they are and no object is
    made; when none has, exactly one new video is made from the entry, put
    at the end of the bucket and reported as added, and no other object
    changes. *)
Theorem parse_metadata_video_merge_or_create
  (dflt : Defaults) (now : Time) (entry : RawEntry.t) (b : Bucket) (σ : State) :
  let σ' := _parse_metadata_video dflt now entry b σ in
  ((RawEntry.formats entry = None ∨ RawEntry.formats entry = Some []) → σ' = σ)
  ∧ (∀ format formats, RawEntry.formats entry = Some (format :: formats) →
       ((∃ video, video ∈ bucket b σ ∧ Video.id (objs σ video) = RawEntry.id entry) →
          ∃ video, video ∈ bucket b σ ∧ Video.id (objs σ video) = RawEntry.id entry
            ∧ objs σ' = <[video := Video.update dflt now entry (objs σ video)]> (objs σ)
            ∧ bucket b σ' = bucket b σ ∧ archive σ' = archive σ ∧ fresh σ' = fresh σ)
       ∧ ((∀ video, video ∈ bucket b σ → Video.id (objs σ video) ≠ RawEntry.id entry) →
          bucket b σ' = bucket b σ ++ [fresh σ]
          ∧ objs σ' = <[fresh σ := Video.new now entry]> (objs σ)
          ∧ fresh σ' = S (fresh σ)
          ∧ Reporter.added (Archive.reporter (archive σ')) =
              Reporter.added (Archive.reporter (archive σ)) ++ [fresh σ]
          ∧ Reporter.deleted (Archive.reporter (archive σ')) =
              Reporter.deleted (Archive.reporter (archive σ)))).
Proof.
  intros σ'. subst σ'. unfold _parse_metadata_video. split.
  - intros [->| ->]; done.
  - intros format formats ->. simpl. split.
    + intros Hex. destruct (find_id_is_Some _ _ _ Hex) as [video Hf]. rewrite Hf.
      apply find_id_Some in Hf as [Hin Hid]. exists video. by destruct b.
    + intros Hnone. apply find_id_None in Hnone. rewrite Hnone. by destruct b.
Qed.

(** An entry whose id is new to a bucket of one video. *)
Lemma parse_metadata_video_merge_or_create_witness :
  let σ := sample_state [Video.new 0 (sample_entry "a" "A" 2)] [0%nat] [] [] in
  bucket Videos (_parse_metadata_video sample_defaults 1 (sample_entry "b" "B" 3) Videos σ)
  = [0; 1]%nat.
Proof.
  intros σ.
  destruct (parse_metadata_video_merge_or_create sample_defaults 1
    (sample_entry "b" "B" 3) Videos σ) as [_ H].
  destruct (H "mp4" [] eq_refl) as [_ Hnew].
  destruct Hnew as (Hb & _).
  - intros video Hin. apply list_elem_of_singleton in Hin as ->. compute_done.
  - exact Hb.
Defined.

(** ** Ingesting a snapshot twice *)

Section IngestFacts.
Variable dflt : Defaults.



Lemma settled_update (now : Time) (e : RawEntry.t) (v : Video.t) :
  settled_video dflt e (Video.update dflt now e v).
Proof. unfold settled_video, Video.update. simpl. by rewrite !current_update. Qed.

Lemma settled_new (now : Time) (e : RawEntry.t) :
  settled_video dflt e (Video.new now e).
Proof. by unfold settled_video. Qed.

Lemma settled_same_fields (e e' : RawEntry.t) (v : Video.t) :
  same_fields e e' → settled_video dflt e v → settled_video dflt e' v.
Proof.
  intros (H1 & H2 & H3 & H4 & H5) (G1 & G2 & G3 & G4 & G5 & G6).
  unfold settled_video. by rewrite <-H1, <-H2, <-H3, <-H4, <-H5.
Qed.

Lemma settled_set_deleted (e : RawEntry.t) (d : Element.t bool) (v : Video.t) :
  settled_video dflt e v → settled_video dflt e (Video.set_deleted d v).
Proof. done. Qed.

(** *** The stable sort *)

Lemma insert_newest_perm (objs : ref → Video.t) (x : ref) (l : list ref) :
  insert_newest objs x l ≡ₚ x :: l.
Proof.
  induction l as [|y l IH]; simpl; [done|].
  destruct (_ <=? _)%Z; [done|]. rewrite IH. apply Permutation_swap.
Qed.

Lemma sort_newest_perm (objs : ref → Video.t) (l : list ref) :
  sort_newest objs l ≡ₚ l.
Proof.
  induction l as [|x l IH]; simpl; [done|].
  by rewrite insert_newest_perm, IH.
Qed.

Lemma insert_newest_sorted (objs : ref → Video.t) (x : ref) (l : list ref) :
  is_newest_first objs l = true → is_newest_first objs (insert_newest objs x l) = true.
Proof.
  induction l as [|y l IH]; [done|]. intros Hl.
  cbn [insert_newest]. destruct (_ <=? _)%Z eqn:Hc.
  - cbn [is_newest_first]. rewrite Hc. exact Hl.
  - cbn [is_newest_first] in Hl. apply andb_true_iff in Hl as [Hhd Htl].
    specialize (IH Htl). destruct l as [|z l].
    + cbn. apply andb_true_iff. split; [|done]. apply Z.leb_le. apply Z.leb_gt in Hc. lia.
    + cbn [insert_newest] in *. destruct (_ <=? Video.uploaded (objs x))%Z eqn:Hc2.
      * cbn [is_newest_first] in *. apply andb_true_iff. split; [|done].
        apply Z.leb_le. apply Z.leb_gt in Hc. lia.
      * cbn [is_newest_first] in *. by rewrite Hhd.
Qed.

Lemma sort_newest_sorted (objs : ref → Video.t) (l : list ref) :
  is_newest_first objs (sort_newest objs l) = true.
Proof.
  induction l as [|x l IH]; [done|]. simpl. by apply insert_newest_sorted.
Qed.


Lemma is_newest_first_ext (objs objs' : ref → Video.t) (l : list ref) :
  (∀ r, r ∈ l → Video.uploaded (objs' r) = Video.uploaded (objs r)) →
  is_newest_first objs' l = is_newest_first objs l.
Proof.
  induction l as [|x l IH]; [done|]. intros Hext.
  cbn [is_newest_first]. rewrite IH by (intros r Hr; apply Hext; by right).
  destruct l as [|y l]; [done|].
  rewrite (Hext x), (Hext y); [done|by right; left|by left].
Qed.

(** *** One entry *)

Lemma bucket_set_bucket (b b' : Bucket) (l : list ref) (σ : State) :
  bucket b' (set_bucket b l σ) = if decide (b = b') then l else bucket b' σ.
Proof. by destruct b, b'. Qed.

Lemma set_deleted_same (v : Video.t) : Video.set_deleted (Video.deleted v) v = v.
Proof. by destruct v. Qed.

Lemma parse_metadata_video_skip (now : Time) (e : RawEntry.t) (b : Bucket) (σ : State) :
  has_formats e = false → _parse_metadata_video dflt now e b σ = σ.
Proof.
  unfold has_formats, _parse_metadata_video.
  destruct (RawEntry.formats e) as [[|? ?]|]; done.
Qed.

(** What one entry with formats does to a well-formed state. *)
Lemma parse_metadata_video_step (now : Time) (e : RawEntry.t) (b : Bucket) (σ : State) :
  well_formed σ → has_formats e = true →
  let σ' := _parse_metadata_video dflt now e b σ in
  well_formed σ'
  ∧ (∃ r, r ∈ bucket b σ' ∧ Video.id (objs σ' r) = RawEntry.id e
          ∧ settled_video dflt e (objs σ' r))
  ∧ (∀ r, r ∈ bucket b σ → r ∈ bucket b σ')
  ∧ (∀ r, (r < fresh σ)%nat →
       objs σ' r = objs σ r
       ∨ (Video.id (objs σ r) = RawEntry.id e ∧ r ∈ bucket b σ
          ∧ objs σ' r = Video.update dflt now e (objs σ r)))
  ∧ (∀ b', b' ≠ b → bucket b' σ' = bucket b' σ).
Proof.
  intros (I1 & I2 & I3) Hf σ'. subst σ'. unfold _parse_metadata_video.
  unfold has_formats in Hf.
  destruct (RawEntry.formats e) as [[|format formats]|]; try done. clear Hf.
  rewrite bool_decide_eq_false_2 by done.
  destruct (find_id (objs σ) (RawEntry.id e) (bucket b σ)) as [video|] eqn:Hfind.
  - apply find_id_Some in Hfind as [Hin Hid].
    assert (Hids : ∀ r, Video.id ((<[video:=Video.update dflt now e (objs σ video)]> (objs σ)) r)
                        = Video.id (objs σ r)).
    { intros r. destruct (decide (video = r)) as [->|Hne].
      - by rewrite fn_lookup_insert.
      - by rewrite fn_lookup_insert_ne. }
    split; [|split; [|split; [|split]]].
    + split; [exact I1|split; [exact I2|]]. intros b'.
      change (bucket b' (set_objs _ σ)) with (bucket b' σ). simpl.
      erewrite map_ext; [apply I3|]. intros r. apply Hids.
    + exists video. split; [done|]. simpl. rewrite fn_lookup_insert.
      split; [done|]. apply settled_update.
    + done.
    + intros r _. simpl. destruct (decide (video = r)) as [->|Hne].
      * right. by rewrite fn_lookup_insert.
      * left. by rewrite fn_lookup_insert_ne.
    + done.
  - pose proof (proj1 (find_id_None _ _ _) Hfind) as Hnone.
    set (σ1 := alloc (Video.new now e) σ).
    assert (Hb : ∀ b', bucket b'
        (add_reported_added (fresh σ) (set_bucket b (bucket b σ1 ++ [fresh σ]) σ1))
        = if decide (b = b') then bucket b σ ++ [fresh σ] else bucket b' σ).
    { intros b'. by destruct b, b'. }
    assert (Hold : ∀ b' r, r ∈ bucket b' σ → <[fresh σ:=Video.new now e]> (objs σ) r = objs σ r).
    { intros b' r Hr. rewrite fn_lookup_insert_ne; [done|].
      apply I1 in Hr. lia. }
    split; [|split; [|split; [|split]]].
    + split; [|split].
      * intros b' r. rewrite Hb. simpl. case_decide.
        -- subst. intros [Hr| ->%list_elem_of_singleton]%elem_of_app; [|lia].
           apply I1 in Hr. lia.
        -- intros Hr. apply I1 in Hr. lia.
      * intros b1 b2 r Hne. rewrite !Hb. repeat case_decide; subst; try done.
        -- intros [Hr| ->%list_elem_of_singleton]%elem_of_app.
           ++ by eapply I2.
           ++ intros Hr. apply I1 in Hr. lia.
        -- intros Hr [Hr'| ->%list_elem_of_singleton]%elem_of_app.
           ++ by eapply I2.
           ++ apply I1 in Hr. lia.
        -- by eapply I2.
      * intros b'. rewrite Hb. simpl. case_decide.
        -- subst. rewrite map_app. simpl. rewrite fn_lookup_insert. simpl.
           apply NoDup_app. split; [|split].
           ++ erewrite map_ext_in; [apply I3|]. intros r Hr.
              apply list_elem_of_In in Hr. by rewrite (Hold b' r Hr).
           ++ intros x Hx ->%list_elem_of_singleton.
              apply list_elem_of_fmap in Hx as (r & Hxr & Hr).
              rewrite (Hold b' r Hr) in Hxr. by destruct (Hnone r Hr).
           ++ apply NoDup_singleton.
        -- erewrite map_ext_in; [apply I3|]. intros r Hr.
           apply list_elem_of_In in Hr. by rewrite (Hold b' r Hr).
    + exists (fresh σ). rewrite Hb, decide_True by done. simpl.
      rewrite fn_lookup_insert. split; [|split; [done|apply settled_new]].
      apply elem_of_app. right. by apply list_elem_of_singleton.
    + intros r Hr. rewrite Hb, decide_True by done. apply elem_of_app. by left.
    + intros r Hr. left. simpl. rewrite fn_lookup_insert_ne; [done|lia].
    + intros b' Hne. rewrite Hb. by rewrite decide_False.
Qed.

(** *** A list of entries *)

Lemma parse_entries_inv (now : Time) (b : Bucket) (entries done : list RawEntry.t)
  (σ : State) :
  well_formed σ → consistent (done ++ entries) →
  (∀ e, e ∈ done → has_formats e = true →
     ∃ r, r ∈ bucket b σ ∧ Video.id (objs σ r) = RawEntry.id e
          ∧ settled_video dflt e (objs σ r)) →
  let σ' := foldl (λ (σ : State) (entry : RawEntry.t),
                     _parse_metadata_video dflt now entry b σ) σ entries in
  well_formed σ'
  ∧ (∀ e, e ∈ done ++ entries → has_formats e = true →
       ∃ r, r ∈ bucket b σ' ∧ Video.id (objs σ' r) = RawEntry.id e
            ∧ settled_video dflt e (objs σ' r))
  ∧ frame b σ σ'.
Proof.
  revert done σ. induction entries as [|e entries IH]; intros done σ Hwf Hcons Hdone.
  - simpl. rewrite app_nil_r. split; [done|]. split; [done|]. by intros b' _.
  - simpl. destruct (has_formats e) eqn:Hf.
    + destruct (parse_metadata_video_step now e b σ Hwf Hf)
        as (Hwf1 & (r1 & Hr1 & Hid1 & Hs1) & Hmem & Hobjs & Hother).
      set (σ1 := _parse_metadata_video dflt now e b σ) in *.
      destruct (IH (done ++ [e]) σ1) as (Hwf' & Hall & Hframe).
      * done.
      * by rewrite <-(assoc_L (++)).
      * intros e0 [He0| ->%list_elem_of_singleton]%elem_of_app Hf0; [|eauto].
        destruct (Hdone e0 He0 Hf0) as (r & Hr & Hid & Hs).
        destruct Hwf as (I1 & _). specialize (I1 b r Hr).
        destruct (Hobjs r I1) as [Heq|(Hide & _ & Heq)].
        -- exists r. rewrite Heq. eauto.
        -- exists r. rewrite Heq. split; [eauto|]. split; [done|].
           apply (settled_same_fields e); [|apply settled_update].
           apply Hcons; try done.
           ++ apply elem_of_app. right. by left.
           ++ apply elem_of_app. by left.
           ++ congruence.
      * split; [done|]. split.
        -- intros e0 He0. apply Hall. by rewrite <-(assoc_L (++)).
        -- intros b' Hne. destruct (Hframe b' Hne) as [Hb Ho].
           rewrite Hb, (Hother b' Hne). split; [done|]. intros r Hr.
           rewrite Ho by (by rewrite (Hother b' Hne)).
           destruct Hwf as (I1 & I2 & _).
           destruct (Hobjs r (I1 b' r Hr)) as [Heq|(_ & Hin & _)]; [done|].
           by destruct (I2 b' b r Hne Hr).
    + rewrite parse_metadata_video_skip by done.
      destruct (IH (done ++ [e]) σ) as (Hwf' & Hall & Hframe).
      * done.
      * by rewrite <-(assoc_L (++)).
      * intros e0 [He0| ->%list_elem_of_singleton]%elem_of_app Hf0; [eauto|congruence].
      * split; [done|]. split; [|done].
        intros e0 He0. apply Hall. by rewrite <-(assoc_L (++)).
Qed.

Lemma parse_metadata_establishes (now : Time) (b : Bucket) (entries : list RawEntry.t)
  (σ : State) :
  well_formed σ → consistent entries →
  let σ' := _parse_metadata dflt now entries b σ in
  well_formed σ' ∧ settled_bucket dflt b entries σ' ∧ frame b σ σ'.
Proof.
  intros Hwf Hcons. unfold _parse_metadata.
  destruct (parse_entries_inv now b entries [] σ Hwf Hcons)
    as ((I1 & I2 & I3) & Hall & Hframe); [by intros ? ?%elem_of_nil|].
  set (σ1 := foldl _ σ entries) in *. simpl in Hall. simpl.
  pose proof (sort_newest_perm (objs σ1) (bucket b σ1)) as Hperm.
  assert (Hb : ∀ b', bucket b' (set_bucket b (sort_newest (objs σ1) (bucket b σ1)) σ1)
                     = if decide (b = b') then sort_newest (objs σ1) (bucket b σ1)
                       else bucket b' σ1) by (intros b'; apply bucket_set_bucket).
  assert (Hin : ∀ b' r, r ∈ bucket b' (set_bucket b (sort_newest (objs σ1) (bucket b σ1)) σ1)
                        ↔ r ∈ bucket b' σ1).
  { intros b' r. rewrite Hb. case_decide; [subst; by rewrite Hperm|done]. }
  assert (Hnd : ∀ b', NoDup (map (λ r, Video.id (objs σ1 r))
      (bucket b' (set_bucket b (sort_newest (objs σ1) (bucket b σ1)) σ1)))).
  { intros b'. rewrite Hb. destruct (decide (b = b')) as [<-|?]; [|apply I3].
    change (NoDup ((λ r, Video.id (objs σ1 r)) <$> sort_newest (objs σ1) (bucket b σ1))).
    rewrite Hperm. apply I3. }
  split; [|split].
  - split; [|split].
    + intros b' r Hr%Hin. by eapply I1.
    + intros b1 b2 r Hne Hr1%Hin Hr2%Hin. by eapply I2.
    + apply Hnd.
  - split; [apply Hnd|]. split.
    + intros e He Hf. destruct (Hall e He Hf) as (r & Hr & Hid & Hs).
      exists r. split; [by apply Hin|done].
    + rewrite Hb, decide_True by done. apply sort_newest_sorted.
  - intros b' Hne. destruct (Hframe b' Hne) as [Hbk Ho].
    rewrite Hb, decide_False by done. done.
Qed.

(** A settled bucket stays settled while the bucket is the same and its
    objects change in their deleted flag at most. *)
Lemma settled_bucket_ext (b : Bucket) (entries : list RawEntry.t) (σ σ' : State) :
  bucket b σ' = bucket b σ →
  (∀ r, r ∈ bucket b σ → ∃ d, objs σ' r = Video.set_deleted d (objs σ r)) →
  settled_bucket dflt b entries σ → settled_bucket dflt b entries σ'.
Proof.
  intros Hb Ho (Hnd & Hall & Hsorted). unfold settled_bucket. rewrite Hb.
  split; [|split].
  - erewrite map_ext_in; [apply Hnd|]. intros r Hr%list_elem_of_In.
    destruct (Ho r Hr) as [d ->]. done.
  - intros e He Hf. destruct (Hall e He Hf) as (r & Hr & Hid & Hs).
    exists r. destruct (Ho r Hr) as [d ->]. done.
  - rewrite <-Hsorted. apply is_newest_first_ext. intros r Hr.
    destruct (Ho r Hr) as [d ->]. done.
Qed.

Lemma settled_bucket_frame (b b0 : Bucket) (entries : list RawEntry.t) (σ σ' : State) :
  b ≠ b0 → frame b0 σ σ' →
  settled_bucket dflt b entries σ → settled_bucket dflt b entries σ'.
Proof.
  intros Hne Hframe. destruct (Hframe b Hne) as [Hb Ho].
  apply settled_bucket_ext; [done|]. intros r Hr.
  exists (Video.deleted (objs σ r)). by rewrite set_deleted_same, Ho.
Qed.

(** *** Deletion reporting after the parse *)

Lemma report_deleted_bucket (now : Time) (b : Bucket) (l : list ref) (σ : State) :
  bucket b (_report_deleted dflt now l σ) = bucket b σ.
Proof.
  revert σ. induction l as [|v l IH]; intros σ; [done|].
  change (_report_deleted dflt now (v :: l) σ)
    with (_report_deleted dflt now l (report_deleted_video dflt now σ v)).
  rewrite IH. unfold report_deleted_video.
  destruct (_ && _); [|done]. by destruct b.
Qed.

Lemma report_deleted_effect (now : Time) (l : list ref) (σ : State) :
  NoDup l →
  let σ' := _report_deleted dflt now l σ in
  (∀ r, ∃ d, objs σ' r = Video.set_deleted d (objs σ r))
  ∧ (∀ r, r ∈ l → unreported_absent dflt σ' r = false)
  ∧ (∀ r, unreported_absent dflt σ r = false → unreported_absent dflt σ' r = false).
Proof.
  intros Hnd σ'. destruct (report_deleted_spec dflt now l σ Hnd) as [_ Ho].
  fold σ' in Ho. split; [|split].
  - intros r. rewrite Ho. case_decide; [eauto|].
    exists (Video.deleted (objs σ r)). by rewrite set_deleted_same.
  - intros r Hr. destruct (unreported_absent dflt σ r) eqn:Hc.
    + eapply unreported_absent_flagged. rewrite Ho. by rewrite decide_True.
    + rewrite <-Hc. apply unreported_absent_ext. rewrite Ho.
      rewrite decide_False; [done|]. intros [_ ?]. congruence.
  - intros r Hc. rewrite <-Hc. apply unreported_absent_ext. rewrite Ho.
    rewrite decide_False; [done|]. intros [_ ?]. congruence.
Qed.

(** *** The second ingestion *)

Lemma fmap_NoDup_inj {A B} (f : A → B) (l : list A) (x y : A) :
  NoDup (map f l) → x ∈ l → y ∈ l → f x = f y → x = y.
Proof.
  induction l as [|a l IH]; intros Hnd Hx Hy Hf; [by apply elem_of_nil in Hx|].
  simpl in Hnd. apply NoDup_cons in Hnd as [Ha Hnd].
  apply elem_of_cons in Hx as [->|Hx]; apply elem_of_cons in Hy as [->|Hy]; try done.
  - destruct Ha. rewrite Hf. change (f y ∈ f <$> l). by apply list_elem_of_fmap_2.
  - destruct Ha. rewrite <-Hf. change (f x ∈ f <$> l). by apply list_elem_of_fmap_2.
  - by apply IH.
Qed.






Lemma settled_bucket_NoDup (b : Bucket) (entries : list RawEntry.t) (σ : State) :
  settled_bucket dflt b entries σ → NoDup (bucket b σ).
Proof. intros (Hnd & _). by apply (NoDup_fmap_1 (λ r, Video.id (objs σ r))). Qed.

Lemma settled_bucket_report (now : Time) (b : Bucket) (entries : list RawEntry.t)
  (l : list ref) (σ : State) :
  NoDup l → settled_bucket dflt b entries σ →
  settled_bucket dflt b entries (_report_deleted dflt now l σ).
Proof.
  intros Hnd. apply settled_bucket_ext; [apply report_deleted_bucket|].
  intros r _. by apply (report_deleted_effect now l σ Hnd).
Qed.

(** After one ingestion every bucket is settled for its entries and no video
    of a bucket is left to report. *)
Lemma metadata_parse_settles (now : Time) (videos livestreams shorts : list RawEntry.t)
  (σ : State) :
  well_formed σ → consistent videos → consistent livestreams → consistent shorts →
  let σ' := metadata_parse dflt now videos livestreams shorts σ in
  settled_bucket dflt Videos videos σ'
  ∧ settled_bucket dflt Livestreams livestreams σ'
  ∧ settled_bucket dflt Shorts shorts σ'
  ∧ ∀ b r, r ∈ bucket b σ' → unreported_absent dflt σ' r = false.
Proof.
  intros Hwf Hcv Hcl Hcs. unfold metadata_parse.
  destruct (parse_metadata_establishes now Videos videos σ Hwf Hcv) as (Hwf1 & Sv1 & _).
  set (σ1 := _parse_metadata dflt now videos Videos σ) in *.
  destruct (parse_metadata_establishes now Livestreams livestreams σ1 Hwf1 Hcl)
    as (Hwf2 & Sl2 & F2).
  set (σ2 := _parse_metadata dflt now livestreams Livestreams σ1) in *.
  assert (Sv2 : settled_bucket dflt Videos videos σ2)
    by (by apply (settled_bucket_frame Videos Livestreams videos σ1)).
  destruct (parse_metadata_establishes now Shorts shorts σ2 Hwf2 Hcs) as (_ & Ss3 & F3).
  set (σ3 := _parse_metadata dflt now shorts Shorts σ2) in *.
  assert (Sv3 : settled_bucket dflt Videos videos σ3)
    by (by apply (settled_bucket_frame Videos Shorts videos σ2)).
  assert (Sl3 : settled_bucket dflt Livestreams livestreams σ3)
    by (by apply (settled_bucket_frame Livestreams Shorts livestreams σ2)).
  clearbody σ3. clear - Sv3 Sl3 Ss3.
  change (Archive.videos (archive σ3)) with (bucket Videos σ3).
  assert (N3 : NoDup (bucket Videos σ3)) by (by eapply settled_bucket_NoDup).
  destruct (report_deleted_effect now (bucket Videos σ3) σ3 N3) as (_ & A4 & _).
  pose proof (report_deleted_bucket now Videos (bucket Videos σ3) σ3) as B4.
  pose proof (settled_bucket_report now _ _ _ _ N3 Sv3) as Sv4.
  pose proof (settled_bucket_report now _ _ _ _ N3 Sl3) as Sl4.
  pose proof (settled_bucket_report now _ _ _ _ N3 Ss3) as Ss4.
  set (σ4 := _report_deleted dflt now (bucket Videos σ3) σ3) in *.
  clearbody σ4. clear Sv3 Sl3 Ss3 N3.
  change (Archive.livestreams (archive σ4)) with (bucket Livestreams σ4).
  assert (N4 : NoDup (bucket Livestreams σ4)) by (by eapply settled_bucket_NoDup).
  destruct (report_deleted_effect now (bucket Livestreams σ4) σ4 N4) as (_ & A5 & K5).
  pose proof (report_deleted_bucket now Videos (bucket Livestreams σ4) σ4) as B5v.
  pose proof (report_deleted_bucket now Livestreams (bucket Livestreams σ4) σ4) as B5l.
  pose proof (settled_bucket_report now _ _ _ _ N4 Sv4) as Sv5.
  pose proof (settled_bucket_report now _ _ _ _ N4 Sl4) as Sl5.
  pose proof (settled_bucket_report now _ _ _ _ N4 Ss4) as Ss5.
  set (σ5 := _report_deleted dflt now (bucket Livestreams σ4) σ4) in *.
  clearbody σ5.
  change (Archive.shorts (archive σ5)) with (bucket Shorts σ5).
  assert (N5 : NoDup (bucket Shorts σ5)) by (by eapply settled_bucket_NoDup).
  destruct (report_deleted_effect now (bucket Shorts σ5) σ5 N5) as (_ & A6 & K6).
  pose proof (report_deleted_bucket now Videos (bucket Shorts σ5) σ5) as B6v.
  pose proof (report_deleted_bucket now Livestreams (bucket Shorts σ5) σ5) as B6l.
  pose proof (report_deleted_bucket now Shorts (bucket Shorts σ5) σ5) as B6s.
  pose proof (settled_bucket_report now _ _ _ _ N5 Sv5) as Sv6.
  pose proof (settled_bucket_report now _ _ _ _ N5 Sl5) as Sl6.
  pose proof (settled_bucket_report now _ _ _ _ N5 Ss5) as Ss6.
  set (σ6 := _report_deleted dflt now (bucket Shorts σ5) σ5) in *.
  split; [done|]. split; [done|]. split; [done|].
  intros [] r Hr.
  - apply K6, K5, A4. by rewrite <-B4, <-B5v, <-B6v.
  - apply K6, A5. by rewrite <-B5l, <-B6l.
  - apply A6. by rewrite <-B6s.
Qed.


End IngestFacts.



(** ** The retry loops *)

Section RetryFacts.
Context {World Res : Type}.
Variable downloaded : World → Video.t → bool.
Variable video_url : Video.t → string.
Variable clock : World → Time.
Variable ydl_download : World → list string → World * option exn.
Variable ydl_extract_info : World → string → World * result Res.
Variable unlink_parts : World → World * option exn.
Variable converter_run : World → World * option exn.
Variable dflt : Defaults.



Lemma skip_video_shrinks (w : World) (σ σ' : State) (videos rest : list ref)
  (reason : string) (warning : bool) (video : ref) :
  _skip_video downloaded w σ videos reason warning = (σ', Ok (rest, video)) →
  (length rest < length videos)%nat.
Proof.
  unfold _skip_video.
  destruct (first_undownloaded _ _ _ _ _) as [[ind v]|] eqn:Hfirst; [|done].
  intros [= _ <- _].
  apply first_undownloaded_spec in Hfirst as (k & -> & Hk & _).
  apply lookup_lt_Some in Hk. rewrite length_drop. lia.
Qed.

Lemma dl_exception_handle_shrinks (w : World) (σ σ' : State) (not_downloaded : list ref)
  (msg : string) (r : option (list ref)) :
  _dl_exception_handle downloaded clock dflt w σ not_downloaded msg = (σ', Ok r) →
  ∃ new_not_downloaded, r = Some new_not_downloaded
    ∧ (length new_not_downloaded < length not_downloaded)%nat.
Proof.
  unfold _dl_exception_handle.
  destruct (_ || _).
  - destruct (_skip_video _ _ _ _ _ _) as [σ1 [[rest video]|e]] eqn:Hskip; [|done].
    apply skip_video_shrinks in Hskip.
    destruct (bool_decide _); intros [= _ <-]; eauto.
  - destruct (str_in _ _); [|done].
    destruct (_skip_video _ _ _ _ _ _) as [σ1 [[rest video]|e]] eqn:Hskip; [|done].
    apply skip_video_shrinks in Hskip. intros [= _ <-]; eauto.
Qed.









End RetryFacts.


(** ** Migration *)

Lemma dict_get_set_eq (key : string) (value : json) (fields : list (string * json)) :
  dict_get key (dict_set key value fields) = Some value.
Proof.
  induction fields as [|[k v] rest IH]; simpl.
  - by rewrite decide_True.
  - destruct (decide (k = key)) as [->|Hne]; simpl.
    + by rewrite decide_True.
    + by rewrite decide_False.
Qed.

Lemma dict_get_set_ne (key key' : string) (value : json) (fields : list (string * json)) :
  key' ≠ key → dict_get key (dict_set key' value fields) = dict_get key fields.
Proof.
  intros Hne. induction fields as [|[k v] rest IH]; simpl.
  - by rewrite decide_False.
  - destruct (decide (k = key')) as [->|Hne']; simpl.
    + by rewrite !decide_False.
    + destruct (decide (k = key)); [done|apply IH].
Qed.

Lemma dict_get_del_eq (key : string) (fields : list (string * json)) :
  dict_get key (dict_del key fields) = None.
Proof.
  unfold dict_del. induction fields as [|[k v] rest IH]; [done|].
  rewrite filter_cons. simpl. destruct (decide (k ≠ key)) as [Hne|Heq]; [|done].
  simpl. by rewrite decide_False.
Qed.

Lemma dict_get_del_ne (key key' : string) (fields : list (string * json)) :
  key' ≠ key → dict_get key (dict_del key' fields) = dict_get key fields.
Proof.
  intros Hne. unfold dict_del. induction fields as [|[k v] rest IH]; [done|].
  rewrite filter_cons. simpl. destruct (decide (k ≠ key')) as [Hne'|Heq]; simpl.
  - by rewrite IH.
  - apply dec_stable in Heq as ->. by rewrite decide_False.
Qed.

Lemma mapM_setitem_dicts (key : string) (value : json) (items : list json) :
  Forall (λ e, is_dict e = true) items →
  mapM (setitem key value) items = Ok (map (with_key key value) items).
Proof.
  induction 1 as [|e items He _ IH]; [done|].
  simpl. destruct e; try done. simpl. by rewrite IH.
Qed.

Lemma set_on_each_dicts (bucket key : string) (value : json)
  (fields : list (string * json)) (items : list json) :
  dict_get bucket fields = Some (JList items) →
  Forall (λ e, is_dict e = true) items →
  set_on_each bucket key value (JDict fields) =
    Ok (JDict (dict_set bucket (JList (map (with_key key value) items)) fields)).
Proof.
  intros Hget Hall. unfold set_on_each. simpl. rewrite Hget. simpl.
  by rewrite mapM_setitem_dicts.
Qed.

Lemma Forall_is_dict_with_key (key : string) (value : json) (items : list json) :
  Forall (λ e, is_dict e = true) items →
  Forall (λ e, is_dict e = true) (map (with_key key value) items).
Proof. induction 1 as [|e ? He]; constructor; [by destruct e|done]. Qed.

Ltac dict_simpl :=
  repeat first
    [ rewrite dict_get_set_eq
    | rewrite dict_get_del_eq
    | rewrite dict_get_set_ne by done
    | rewrite dict_get_del_ne by done ].

Section MigrationFacts.
Variable rename : FS → string → string → option FS.
Variable converter_run : FS → string → FS * option exn.
Variable deleted_false : json.

Lemma migrate_edit_unknown (path : string) (cur : Z) (encoded : json) (fs : FS) :
  cur ≠ 1%Z → cur ≠ 2%Z → cur ≠ 3%Z →
  migrate_edit rename converter_run deleted_false path cur encoded fs
    = (fs, Raise (SystemExit 1)).
Proof.
  intros H1 H2 H3. unfold migrate_edit.
  by rewrite (proj2 (Z.eqb_neq _ _) H1), (proj2 (Z.eqb_neq _ _) H2),
    (proj2 (Z.eqb_neq _ _) H3).
Qed.

(** The recursion of [migrate_step] ends within the fuel: from version 1, 2
    or 3 it takes at most 5 - cur calls, from any other version one. *)
Lemma migrate_step_total (fuel : nat) (expected : Z) (path : string)
  (cur : Z) (encoded : json) (fs : FS) :
  (1 ≤ fuel)%nat → ((1 ≤ cur ≤ 3)%Z → (5 - cur ≤ Z.of_nat fuel)%Z) →
  ∃ res, migrate_step rename converter_run deleted_false fuel expected path cur encoded fs
         = Some res.
Proof.
  revert cur encoded fs. induction fuel as [|fuel IH]; intros cur encoded fs Hf Hc; [lia|].
  cbn [migrate_step]. destruct (cur =? expected)%Z; [eauto|].
  destruct (decide (1 ≤ cur ≤ 3)%Z) as [Hin|Hout].
  - destruct (migrate_edit _ _ _ _ _ _ _) as [fs1 [e1|e]]; [|eauto].
    destruct (setitem _ _ _) as [e2|e]; [|eauto].
    destruct (IH (cur + 1) e2 fs1) as [[[fs2 r] written] ->]; [lia|lia|]. simpl. eauto.
  - rewrite migrate_edit_unknown by lia. eauto.
Qed.

Lemma migrate_edit_1 (path cid : string) (fields : list (string * json)) (fs : FS) :
  dict_get "id" fields = Some (JStr cid) →
  migrate_edit rename converter_run deleted_false path 1 (JDict fields) fs =
    (fs, Ok (JDict (dict_set "shorts" (JList [])
                     (dict_set "livestreams" (JList [])
                        (dict_del "id"
                           (dict_set "url"
                              (JStr ("https://www.youtube.com/channel/" +:+ cid))
                              fields)))))).
Proof.
  intros Hid. unfold migrate_edit. change (1 =? 1)%Z with true. cbv iota.
  unfold getitem at 1. rewrite Hid. cbn [mbind result_bind str_add setitem delitem].
  rewrite dict_get_set_ne by done. rewrite Hid. done.
Qed.

Lemma migrate_edit_each (path key : string) (value : json)
  (fields : list (string * json)) (vs ls ss : list json) :
  dict_get "videos" fields = Some (JList vs) →
  dict_get "livestreams" fields = Some (JList ls) →
  dict_get "shorts" fields = Some (JList ss) →
  Forall (λ e, is_dict e = true) vs →
  Forall (λ e, is_dict e = true) ls →
  Forall (λ e, is_dict e = true) ss →
  (e1 ← set_on_each "videos" key value (JDict fields);
   e2 ← set_on_each "livestreams" key value e1;
   set_on_each "shorts" key value e2) =
  Ok (JDict (dict_set "shorts" (JList (map (with_key key value) ss))
               (dict_set "livestreams" (JList (map (with_key key value) ls))
                  (dict_set "videos" (JList (map (with_key key value) vs)) fields)))).
Proof.
  intros Hv Hl Hs Av Al As.
  rewrite (set_on_each_dicts _ _ _ _ vs) by done. cbn [mbind result_bind].
  rewrite (set_on_each_dicts _ _ _ _ ls) by (by dict_simpl). cbn [mbind result_bind].
  rewrite (set_on_each_dicts _ _ _ _ ss) by (by dict_simpl). done.
Qed.

Lemma migrate_edit_2 (path : string) (fields : list (string * json))
  (vs ls ss : list json) (fs : FS) :
  dict_get "videos" fields = Some (JList vs) →
  dict_get "livestreams" fields = Some (JList ls) →
  dict_get "shorts" fields = Some (JList ss) →
  Forall (λ e, is_dict e = true) vs →
  Forall (λ e, is_dict e = true) ls →
  Forall (λ e, is_dict e = true) ss →
  migrate_edit rename converter_run deleted_false path 2 (JDict fields) fs =
    (fs, Ok (JDict (dict_set "shorts" (JList (map (with_key "deleted" deleted_false) ss))
       (dict_set "livestreams" (JList (map (with_key "deleted" deleted_false) ls))
          (dict_set "videos" (JList (map (with_key "deleted" deleted_false) vs))
             fields))))).
Proof.
  intros. unfold migrate_edit. change (2 =? 1)%Z with false. change (2 =? 2)%Z with true.
  cbv iota. by rewrite (migrate_edit_each path "deleted" deleted_false fields vs ls ss).
Qed.

Lemma migrate_edit_3 (path : string) (fields : list (string * json))
  (vs ls ss : list json) (fs fs1 fs2 : FS) :
  dict_get "videos" fields = Some (JList vs) →
  dict_get "livestreams" fields = Some (JList ls) →
  dict_get "shorts" fields = Some (JList ss) →
  Forall (λ e, is_dict e = true) vs →
  Forall (λ e, is_dict e = true) ls →
  Forall (λ e, is_dict e = true) ss →
  rename fs (join path "thumbnails") (join path "images") = Some fs1 →
  converter_run fs1 (join path "videos") = (fs2, None) →
  migrate_edit rename converter_run deleted_false path 3 (JDict fields) fs =
    (fs2, Ok (JDict (dict_set "shorts" (JList (map (with_key "comments" (JDict [])) ss))
       (dict_set "livestreams" (JList (map (with_key "comments" (JDict [])) ls))
          (dict_set "videos" (JList (map (with_key "comments" (JDict [])) vs))
             (dict_set "comment_authors" (JDict []) fields)))))).
Proof.
  intros Hv Hl Hs Av Al As Hren Hconv. unfold migrate_edit.
  change (3 =? 1)%Z with false. change (3 =? 2)%Z with false.
  change (3 =? 3)%Z with true. cbv iota.
  cbn [setitem mbind result_bind].
  rewrite (migrate_edit_each path "comments" (JDict [])
             (dict_set "comment_authors" (JDict []) fields) vs ls ss)
    by (done || by dict_simpl).
  by rewrite Hren, Hconv.
Qed.

(** The versions assigned by [migrate_step] are consecutive from [cur + 1],
    and a migration that returns a store has arrived at the expected one. *)
Lemma migrate_step_consecutive (fuel : nat) (expected : Z) (path : string)
  (cur : Z) (encoded : json) (fs fs' : FS) (r : result json) (written : list Z) :
  migrate_step rename converter_run deleted_false fuel expected path cur encoded fs
    = Some (fs', r, written) →
  written = seqZ (cur + 1) (Z.of_nat (length written))
  ∧ (∀ e, r = Ok e → (cur + Z.of_nat (length written))%Z = expected).
Proof.
  revert cur encoded fs fs' r written.
  induction fuel as [|fuel IH]; intros cur encoded fs fs' r written; [done|].
  cbn [migrate_step]. destruct (cur =? expected)%Z eqn:Hc.
  - intros [= <- <- <-]. apply Z.eqb_eq in Hc. split; [done|]. simpl. lia.
  - destruct (migrate_edit _ _ _ _ _ _ _) as [fs1 [e1|e]]; [|by intros [= <- <- <-]].
    destruct (setitem _ _ _) as [e2|e]; [|by intros [= <- <- <-]].
    destruct (migrate_step _ _ _ _ _ _ _ _ _) as [[[fs2 r'] w']|] eqn:Hrec; [|done].
    simpl. intros [= <- <- <-]. destruct (IH _ _ _ _ _ _ Hrec) as [Hw Hr]. split.
    + simpl length. rewrite Nat2Z.inj_succ, seqZ_cons by lia.
      rewrite Z.pred_succ. f_equal. rewrite Hw at 1. f_equal; lia.
    + intros e He. rewrite <-(Hr e He). simpl length. lia.
Qed.

(** C3: migration assigns the versions one step at a time, [cur + 1],
    [cur + 2], ..., and returns a store only at the compatibility constant 4;
    it always ends.  A version 1 store with an id and a list of videos, with
    the rename of the thumbnails directory and the conversion going through,
    ends at version 4 by the assignments 2, 3, 4, with the url made from the
    old id, which is gone, empty livestreams and shorts, an empty comment
    author registry, and the deleted element and an empty comments map on
    every video, whose other keys are kept.  For every version other than 1,
    2, 3 and 4 migration ends in [sys.exit(1)] at once: no store is
    returned, no version assigned, no file touched. *)
Theorem migrate_archive_stepwise (path : string) (fs : FS) :
  (∀ cur encoded,
     ∃ fs' r written,
       _migrate_archive rename converter_run deleted_false cur ARCHIVE_COMPAT
         encoded path fs = Some (fs', r, written)
       ∧ written = seqZ (cur + 1) (Z.of_nat (length written))
       ∧ (∀ e, r = Ok e → (cur + Z.of_nat (length written))%Z = 4%Z))
  ∧ (∀ fields cid vids fs1 fs2,
       dict_get "id" fields = Some (JStr cid) →
       dict_get "videos" fields = Some (JList vids) →
       Forall (λ e, is_dict e = true) vids →
       rename fs (join path "thumbnails") (join path "images") = Some fs1 →
       converter_run fs1 (join path "videos") = (fs2, None) →
       ∃ e',
         _migrate_archive rename converter_run deleted_false 1 ARCHIVE_COMPAT
           (JDict fields) path fs = Some (fs2, Ok e', [2; 3; 4]%Z)
         ∧ getitem "version" e' = Ok (JInt 4)
         ∧ getitem "url" e' = Ok (JStr ("https://www.youtube.com/channel/" +:+ cid))
         ∧ getitem "id" e' = Raise (KeyError "id")
         ∧ getitem "livestreams" e' = Ok (JList [])
         ∧ getitem "shorts" e' = Ok (JList [])
         ∧ getitem "comment_authors" e' = Ok (JDict [])
         ∧ ∃ vids',
             getitem "videos" e' = Ok (JList vids')
             ∧ Forall2 (λ v v',
                 getitem "deleted" v' = Ok deleted_false
                 ∧ getitem "comments" v' = Ok (JDict [])
                 ∧ ∀ key, key ≠ "deleted" → key ≠ "comments" →
                     getitem key v' = getitem key v) vids vids')
  ∧ (∀ cur encoded, cur ≠ 1%Z → cur ≠ 2%Z → cur ≠ 3%Z → cur ≠ 4%Z →
       _migrate_archive rename converter_run deleted_false cur ARCHIVE_COMPAT
         encoded path fs = Some (fs, Raise (SystemExit 1), [])).
Proof.
  unfold _migrate_archive, ARCHIVE_COMPAT. split; [|split].
  - intros cur encoded.
    destruct (migrate_step_total 4 4 path cur encoded fs) as [[[fs' r] written] Hrun];
      [lia|lia|].
    exists fs', r, written. split; [done|]. by eapply migrate_step_consecutive.
  - intros fields cid vids fs1 fs2 Hid Hvid Hall Hren Hconv.
    cbn [migrate_step]. change (1 =? 4)%Z with false. cbv iota.
    rewrite (migrate_edit_1 path cid) by done. cbn [setitem]. change (1 + 1)%Z with 2%Z.
    set (F1 := dict_set "version" (JInt 2) _).
    change (2 =? 4)%Z with false. cbv iota.
    rewrite (migrate_edit_2 path F1 vids [] [])
      by (done || constructor || (subst F1; by dict_simpl)).
    cbn [setitem]. change (2 + 1)%Z with 3%Z.
    set (V2 := map (with_key "deleted" deleted_false) vids).
    set (F2 := dict_set "version" (JInt 3) _).
    change (3 =? 4)%Z with false. cbv iota.
    rewrite (migrate_edit_3 path F2 V2 [] [] fs fs1 fs2)
      by (done || constructor || (subst F2; by dict_simpl)
          || by apply Forall_is_dict_with_key).
    cbn [setitem]. change (3 + 1)%Z with 4%Z.
    change (4 =? 4)%Z with true. cbn [mbind option_bind].
    eexists. split; [reflexivity|]. unfold getitem.
    subst F2 F1. dict_simpl.
    split_and!; try done.
    eexists. split; [done|]. subst V2. clear -Hall.
    induction Hall as [|v vids Hv _ IH]; [constructor|].
    constructor; [|exact IH]. destruct v; try done. simpl.
    dict_simpl. split_and!; try done.
    intros key H1 H2. by dict_simpl.
  - intros cur encoded H1 H2 H3 H4. cbn [migrate_step].
    rewrite (proj2 (Z.eqb_neq _ _) H4). by rewrite migrate_edit_unknown.
Qed.

End MigrationFacts.

(** The version 1 sample store, with a rename and a conversion that succeed. *)
Lemma migrate_archive_stepwise_witness :
  ∃ e', _migrate_archive sample_rename sample_converter (JDict [])
          1 ARCHIVE_COMPAT sample_store_v1 "demo" sample_fs
        = Some (sample_fs, Ok e', [2; 3; 4]%Z)
        ∧ getitem "version" e' = Ok (JInt 4).
Proof.
  destruct (migrate_archive_stepwise sample_rename sample_converter (JDict [])
              "demo" sample_fs) as (_ & H & _).
  destruct (H [("version", JInt 1); ("id", JStr "UCdemo");
               ("videos", JList [JDict [("id", JStr "a"); ("title", JDict [])]])]
              "UCdemo" [JDict [("id", JStr "a"); ("title", JDict [])]]
              sample_fs sample_fs) as (e' & Hrun & Hversion & _).
  - reflexivity.
  - reflexivity.
  - repeat constructor.
  - reflexivity.
  - reflexivity.
  - exists e'. split; [exact Hrun|exact Hversion].
Defined.

(** ** Decoding what was encoded *)


Lemma dict_get_fst (key : string) (fields : list (string * json)) :
  key ∈ map fst fields → ∃ v, dict_get key fields = Some v ∧ (key, v) ∈ fields.
Proof.
  induction fields as [|[k v] rest IH]; simpl; [by intros ?%elem_of_nil|].
  intros Hin. destruct (decide (k = key)) as [->|Hne].
  - exists v. split; [done|]. by left.
  - apply elem_of_cons in Hin as [?|Hin]; [done|].
    destruct (IH Hin) as (v' & ? & ?). exists v'. split; [done|]. by right.
Qed.

Section CodecFacts.
Variable Video_to_dict : Video.t → json.
Variable Video_from_dict : json → Archive.t → result Video.t.
Variable CommentAuthor_to_dict_head : CommentAuthor.t → json.
Variable CommentAuthor_from_dict_head : Archive.t → string → json → result CommentAuthor.t.


Lemma decode_authors_ok (fields : list (string * json)) (keys : list string) (a : Archive.t) :
  (∀ id head a, (id, head) ∈ fields →
     ∃ c, CommentAuthor_from_dict_head a id head = Ok c) →
  keys ⊆ map fst fields →
  ∃ a', decode_authors CommentAuthor_from_dict_head (JDict fields) keys a = Ok a'.
Proof.
  intros Hdec. revert a. induction keys as [|id keys IH]; intros a Hsub; [by eexists|].
  cbn [decode_authors getitem].
  destruct (dict_get_fst id fields) as (head & -> & Hin); [apply Hsub; by left|].
  cbn [mbind result_bind]. destruct (Hdec id head a Hin) as [c ->].
  cbn [mbind result_bind]. apply IH. intros x Hx. apply Hsub. by right.
Qed.

Lemma decode_videos_ok (items : list json) (a : Archive.t)
  (objs : ref → Video.t) (fresh : ref) (vs : list Video.t) :
  Forall2 (λ item v, Video_from_dict item a = Ok v) items vs →
  ∃ objs',
    decode_videos Video_from_dict items a objs fresh
      = Ok (seq fresh (length items), objs', (fresh + length items)%nat)
    ∧ map objs' (seq fresh (length items)) = vs
    ∧ ∀ r, (r < fresh)%nat → objs' r = objs r.
Proof.
  intros Hall. revert objs fresh.
  induction Hall as [|item v items vs Hv _ IH]; intros objs fresh.
  - exists objs. simpl. rewrite Nat.add_0_r. done.
  - cbn [decode_videos]. rewrite Hv. cbn [mbind result_bind].
    destruct (IH (<[fresh := v]> objs) (S fresh)) as (objs' & -> & Hmap & Hold).
    exists objs'. cbn [mbind result_bind length seq map].
    split; [by rewrite Nat.add_succ_r|]. split.
    + rewrite Hmap, Hold by lia. by rewrite fn_lookup_insert.
    + intros r Hr. rewrite Hold by lia. rewrite fn_lookup_insert_ne; [done|lia].
Qed.

(** What the codec of the videos keeps of a video. *)
Variable same_video : Video.t → Video.t → Prop.

Lemma Forall2_decode_total (a : Archive.t) (items : list json) :
  (∀ item a, item ∈ items → ∃ v, Video_from_dict item a = Ok v) →
  ∃ vs', Forall2 (λ item v', Video_from_dict item a = Ok v') items vs'.
Proof.
  induction items as [|item items IH]; intros Hdec.
  - exists []. constructor.
  - destruct (Hdec item a) as [v Hv]; [by left|].
    destruct IH as [vs' Hvs']; [intros x a' Hx; apply Hdec; by right|].
    exists (v :: vs'). by constructor.
Qed.

Lemma Forall2_decoded_weaken (a : Archive.t) (items : list json) (vs' : list Video.t) :
  Forall2 (λ item v', Video_from_dict item a = Ok v') items vs' →
  Forall2 (λ item v', ∃ a, Video_from_dict item a = Ok v') items vs'.
Proof. induction 1; constructor; eauto. Qed.

(** [_from_dict] on a dictionary with the mandatory fields whose authors and
    videos decode. *)
Lemma from_dict_returns (fields cas : list (string * json)) (n : Z) (u : string)
  (vs ls ss : list json) (path : string) (σ : State) :
  dict_get "comment_authors" fields = Some (JDict cas) →
  dict_get "version" fields = Some (JInt n) →
  dict_get "url" fields = Some (JStr u) →
  dict_get "videos" fields = Some (JList vs) →
  dict_get "livestreams" fields = Some (JList ls) →
  dict_get "shorts" fields = Some (JList ss) →
  (∀ id head a, (id, head) ∈ cas →
     ∃ c, CommentAuthor_from_dict_head a id head = Ok c) →
  (∀ item a, item ∈ vs ++ ls ++ ss → ∃ v, Video_from_dict item a = Ok v) →
  ∃ σ',
    _from_dict Video_from_dict CommentAuthor_from_dict_head (JDict fields) path σ = Ok σ'
    ∧ Archive.comment_authors (archive σ') = ∅
    ∧ Archive.path (archive σ') = path
    ∧ Archive.version (archive σ') = n
    ∧ Archive.url (archive σ') = u
    ∧ Forall2 (λ item v', ∃ a, Video_from_dict item a = Ok v')
        vs (map (objs σ') (Archive.videos (archive σ')))
    ∧ Forall2 (λ item v', ∃ a, Video_from_dict item a = Ok v')
        ls (map (objs σ') (Archive.livestreams (archive σ')))
    ∧ Forall2 (λ item v', ∃ a, Video_from_dict item a = Ok v')
        ss (map (objs σ') (Archive.shorts (archive σ'))).
Proof.
  intros Hca Hn Hu Hvs Hls Hss Hauthor Hvideo.
  unfold _from_dict, getitem. rewrite Hca, Hn, Hu, Hvs, Hls, Hss.
  cbn [mbind result_bind iterate].
  destruct (decode_authors_ok cas (map fst cas) blank_archive) as [a1 ->]; [done..|].
  cbn [mbind result_bind].
  set (a2 := {| Archive.path := path; Archive.videos := [] |}).
  destruct (Forall2_decode_total a2 vs) as (vs' & Hd1).
  { intros item a Hin. apply Hvideo. apply elem_of_app. by left. }
  destruct (decode_videos_ok vs a2 (objs σ) (fresh σ) vs' Hd1) as (objs1 & -> & Hm1 & Ho1).
  cbn [mbind result_bind].
  set (a3 := {| Archive.path := path; Archive.livestreams := [] |}).
  destruct (Forall2_decode_total a3 ls) as (ls' & Hd2).
  { intros item a Hin. apply Hvideo. rewrite !elem_of_app. right. by left. }
  destruct (decode_videos_ok ls a3 objs1 (fresh σ + length vs)%nat ls' Hd2)
    as (objs2 & -> & Hm2 & Ho2).
  cbn [mbind result_bind].
  set (a4 := {| Archive.path := path; Archive.shorts := [] |}).
  destruct (Forall2_decode_total a4 ss) as (ss' & Hd3).
  { intros item a Hin. apply Hvideo. rewrite !elem_of_app. right. by right. }
  destruct (decode_videos_ok ss a4 objs2 (fresh σ + length vs + length ls)%nat ss' Hd3)
    as (objs3 & -> & Hm3 & Ho3).
  cbn [mbind result_bind].
  eexists. split; [reflexivity|]. cbn [archive objs Archive.comment_authors
    Archive.path Archive.version Archive.url Archive.videos Archive.livestreams
    Archive.shorts].
  assert (E1 : map objs3 (seq (fresh σ) (length vs)) = vs').
  { rewrite <-Hm1. apply map_ext_in. intros r Hr%in_seq. rewrite Ho3, Ho2 by lia. done. }
  assert (E2 : map objs3 (seq (fresh σ + length vs) (length ls)) = ls').
  { rewrite <-Hm2. apply map_ext_in. intros r Hr%in_seq. rewrite Ho3 by lia. done. }
  rewrite E1, E2, Hm3. split_and!; try done; by eapply Forall2_decoded_weaken.
Qed.

Lemma Forall2_same_video (objs : ref → Video.t) (videos : list ref) (vs' : list Video.t) :
  (∀ v a, ∃ v', Video_from_dict (Video_to_dict v) a = Ok v' ∧ same_video v v') →
  Forall2 (λ item v', ∃ a, Video_from_dict item a = Ok v')
    (map (λ video, Video_to_dict (objs video)) videos) vs' →
  Forall2 same_video (map objs videos) vs'.
Proof.
  intros Hround. revert vs'. induction videos as [|video videos IH]; intros vs' H.
  - apply Forall2_nil_inv_l in H as ->. constructor.
  - simpl in H. apply Forall2_cons_inv_l in H as (v' & vs'' & [a Hv'] & H & ->).
    simpl. constructor; [|by apply IH].
    destruct (Hround (objs video) a) as (v'' & Hv'' & Hsame). congruence.
Qed.


End CodecFacts.


(** ** Commit *)

Lemma append_inj (p a b : string) : p +:+ a = p +:+ b → a = b.
Proof. induction p as [|c p IH]; simpl; [done|]. intros [= H]. by apply IH. Qed.

Lemma join_inj (path a b : string) : join path a = join path b → a = b.
Proof. unfold join. intros H%append_inj. by injection H. Qed.

Section CommitFacts.
Variable Video_to_dict : Video.t → json.
Variable CommentAuthor_to_dict_head : CommentAuthor.t → json.
Variable json_dump : json → string.

Lemma files_make_dirs (paths : list string) (fs : FS) :
  files (foldl (λ (fs : FS) (path : string),
                  if exists_path fs path then fs else mkdir path fs) fs paths)
  = files fs.
Proof.
  revert fs. induction paths as [|p paths IH]; intros fs; [done|].
  simpl. rewrite IH. by destruct (exists_path fs p).
Qed.


End CommitFacts.


(** ** Curation over the three buckets *)

Section CurateFacts.
Context {World : Type} (downloaded : World → Video.t → bool).

Lemma curate_list_sublist (w : World) (objs : ref → Video.t) (videos : list ref)
  (maximum : option Z) :
  ∃ l, curate_list downloaded w objs videos maximum = Ok l
       ∧ l `sublist_of` videos
       ∧ Forall (λ video, downloaded w (objs video) = false) l
       ∧ (maximum = None → l = filter (λ video, downloaded w (objs video) = false) videos)
       ∧ (∀ m, maximum = Some m → (m ≤ 0)%Z → l = []).
Proof.
  destruct maximum as [m|].
  - eexists. split; [apply curate_list_some|]. split_and!.
    + etrans; [apply sublist_filter|apply sublist_take].
    + apply Forall_forall. by intros x [? _]%list_elem_of_filter.
    + done.
    + intros ? [= <-] Hm. by replace (Z.to_nat _) with 0%nat by lia.
  - eexists. split; [reflexivity|]. split_and!; [apply sublist_filter| |done|done].
    apply Forall_forall. by intros x [? _]%list_elem_of_filter.
Qed.

(** X1: [_curate] never raises; its list is made of a part of the videos,
    then a part of the livestreams, then a part of the shorts, each in the
    order of its bucket and without a downloaded video; a bucket without a
    maximum gives all its videos that are not downloaded, and a bucket
    with a maximum of zero or less gives none. *)
Theorem curate_buckets_in_order (w : World) (σ : State) (config : Config.t) :
  ∃ a b c,
    _curate downloaded w σ config = Ok (a ++ b ++ c)
    ∧ a `sublist_of` bucket Videos σ
    ∧ b `sublist_of` bucket Livestreams σ
    ∧ c `sublist_of` bucket Shorts σ
    ∧ Forall (λ video, downloaded w (objs σ video) = false) (a ++ b ++ c)
    ∧ (∀ bk, maximum_of config bk = None →
         match bk with Videos => a | Livestreams => b | Shorts => c end
         = filter (λ video, downloaded w (objs σ video) = false) (bucket bk σ))
    ∧ (∀ bk m, maximum_of config bk = Some m → (m ≤ 0)%Z →
         match bk with Videos => a | Livestreams => b | Shorts => c end = []).
Proof.
  unfold _curate.
  destruct (curate_list_sublist w (objs σ) (Archive.videos (archive σ))
              (Config.max_videos config)) as (a & -> & Sa & Ha & Na & Za).
  destruct (curate_list_sublist w (objs σ) (Archive.livestreams (archive σ))
              (Config.max_livestreams config)) as (b & -> & Sb & Hb & Nb & Zb).
  destruct (curate_list_sublist w (objs σ) (Archive.shorts (archive σ))
              (Config.max_shorts config)) as (c & -> & Sc & Hc & Nc & Zc).
  exists a, b, c. split_and!; try done.
  - by rewrite !Forall_app.
  - intros [] H; auto.
  - intros [] m H Hm; eauto.
Qed.

End CurateFacts.

(** ** Download passes that have nothing to do *)

Section IdleFacts.
Context {World : Type}.
Variable downloaded : World → Video.t → bool.
Variable video_url : Video.t → string.
Variable clock : World → Time.
Variable ydl_download : World → list string → World * option exn.
Variable unlink_parts : World → World * option exn.
Variable converter_run : World → World * option exn.
Variable dflt : Defaults.

Lemma curate_list_nil (w : World) (objs : ref → Video.t) (videos : list ref)
  (maximum : option Z) :
  (∀ r, r ∈ videos → downloaded w (objs r) = true)
  ∨ (∃ m, maximum = Some m ∧ (m ≤ 0)%Z) →
  curate_list downloaded w objs videos maximum = Ok [].
Proof.
  destruct (curate_list_sublist downloaded w objs videos maximum)
    as (l & -> & Hsub & Hall & _ & Hzero).
  intros [Hdone|(m & -> & Hm)]; [|by rewrite (Hzero m)].
  destruct l as [|r l]; [done|].
  apply Forall_cons in Hall as [Hr _].
  rewrite Hdone in Hr; [done|].
  eapply elem_of_sublist; [|exact Hsub]. left.
Qed.

(** X2: when every bucket either holds downloaded videos only or has a
    maximum of zero or less, [download] cleans the part files and stops
    after one pass: no download is requested, the converter is not run,
    and the archive and its videos are as before. *)
Theorem download_idle (config : Config.t) (w w0 : World) (σ : State) :
  unlink_parts w = (w0, None) →
  (∀ b, (∀ r, r ∈ bucket b σ → downloaded w0 (objs σ r) = true)
        ∨ (∃ m, maximum_of config b = Some m ∧ (m ≤ 0)%Z)) →
  download downloaded video_url clock ydl_download unlink_parts converter_run dflt
    config w σ
  = Some (w0, σ, Ok (),
          [{| at_index := 0; at_world := w0; at_state := σ;
              at_curated := []; at_result := Ok () |}]).
Proof.
  intros Hclean Hidle. unfold download. rewrite Hclean.
  change (range 5) with [0; 1; 2; 3; 4]%nat. cbn [download_loop].
  unfold _curate.
  rewrite (curate_list_nil w0 (objs σ) (Archive.videos (archive σ))
             (Config.max_videos config) (Hidle Videos)).
  rewrite (curate_list_nil w0 (objs σ) (Archive.livestreams (archive σ))
             (Config.max_livestreams config) (Hidle Livestreams)).
  rewrite (curate_list_nil w0 (objs σ) (Archive.shorts (archive σ))
             (Config.max_shorts config) (Hidle Shorts)).
  reflexivity.
Qed.

End IdleFacts.

(** An archive whose only video is downloaded. *)
Lemma download_idle_witness :
  let σ := sample_state [Video.new 0 (sample_entry "a" "A" 1)] [0%nat] [] [] in
  download sample_downloaded sample_url (λ _, 7) sample_failing_download
    (λ w, (w, None)) (λ w, (w, None)) sample_defaults sample_config ["a"] σ
  = Some (["a"], σ, Ok (),
          [{| at_index := 0; at_world := ["a"]; at_state := σ;
              at_curated := []; at_result := Ok () |}]).
Proof.
  intros σ. apply download_idle; [reflexivity|].
  intros b. left. intros r Hr.
  destruct b; simpl in Hr.
  - apply list_elem_of_singleton in Hr as ->. reflexivity.
  - by apply elem_of_nil in Hr.
  - by apply elem_of_nil in Hr.
Defined.

(** ** The inner loop of the download *)

Lemma requests_app (l k : list event) :
  requests (l ++ k) = (requests l + requests k)%nat.
Proof. unfold requests. by rewrite filter_app, length_app. Qed.

Lemma requests_cons (ev : event) (l : list event) :
  requests (ev :: l) = ((if is_request ev then 1 else 0) + requests l)%nat.
Proof.
  unfold requests. rewrite filter_cons.
  destruct (is_request ev); [by rewrite decide_True|by rewrite decide_False].
Qed.

Section LaunchFacts.
Context {World : Type}.
Variable downloaded : World → Video.t → bool.
Variable video_url : Video.t → string.
Variable clock : World → Time.
Variable ydl_download : World → list string → World * option exn.
Variable dflt : Defaults.

Lemma skip_video_out (w : World) (σ σ' : State) (videos : list ref)
  (reason : string) (warning : bool) (r : result (list ref * ref)) :
  _skip_video downloaded w σ videos reason warning = (σ', r) →
  ∃ events, out σ' = out σ ++ events ∧ requests events = 0%nat
            ∧ objs σ' = objs σ ∧ archive σ' = archive σ.
Proof.
  unfold _skip_video.
  destruct (first_undownloaded _ _ _ _ _) as [[ind v]|]; intros [= <- _].
  - by eexists [_].
  - exists []. by rewrite app_nil_r.
Qed.

Lemma dl_exception_handle_out (w : World) (σ σ' : State) (not_downloaded : list ref)
  (msg : string) (r : result (option (list ref))) :
  _dl_exception_handle downloaded clock dflt w σ not_downloaded msg = (σ', r) →
  ∃ events, out σ' = out σ ++ events ∧ requests events = 0%nat
            ∧ ∀ b, bucket b σ' = bucket b σ.
Proof.
  unfold _dl_exception_handle.
  destruct (_ || _).
  - destruct (_skip_video _ _ _ _ _ _) as [σ1 [[rest video]|e]] eqn:Hskip;
      apply skip_video_out in Hskip as (events & Hout & Hreq & _ & Harch).
    + destruct (bool_decide _); intros [= <- _]; exists events; split_and!; try done.
      * intros []; simpl; by rewrite Harch.
      * intros b. unfold bucket. by rewrite Harch.
    + intros [= <- _]. exists events. split_and!; try done.
      intros b. unfold bucket. by rewrite Harch.
  - destruct (str_in _ _).
    + destruct (_skip_video _ _ _ _ _ _) as [σ1 [[rest video]|e]] eqn:Hskip;
        apply skip_video_out in Hskip as (events & Hout & Hreq & _ & Harch);
        intros [= <- _]; exists events; split_and!; try done;
        intros b; unfold bucket; by rewrite Harch.
    + intros [= <- _]. exists []. by rewrite app_nil_r.
Qed.

Lemma dl_launch_loop_requests (fuel : nat) (w : World) (σ : State)
  (not_downloaded : list ref) :
  (length not_downloaded < fuel)%nat →
  ∃ w' σ' r events,
    _dl_launch_loop downloaded video_url clock ydl_download dflt
      fuel w σ not_downloaded = Some (w', σ', r)
    ∧ out σ' = out σ ++ events
    ∧ (1 ≤ requests events ≤ S (length not_downloaded))%nat
    ∧ ∀ b, bucket b σ' = bucket b σ.
Proof.
  revert w σ not_downloaded. induction fuel as [|fuel IH]; intros w σ nd Hlen; [lia|].
  simpl. destruct (ydl_download w _) as [w1 raised].
  set (σ1 := emit _ σ).
  assert (Hone : ∀ (w' : World) (r : result unit), ∃ w'' σ' r' events,
            Some (w', σ1, r) = Some (w'', σ', r')
            ∧ out σ' = out σ ++ events
            ∧ (1 ≤ requests events ≤ S (length nd))%nat
            ∧ ∀ b, bucket b σ' = bucket b σ).
  { intros w' r. eexists w', σ1, r, [_].
    split_and!; first [done | rewrite requests_cons; cbn; lia]. }
  destruct raised as [e|]; [|apply Hone].
  destruct e; try apply Hone.
  destruct (_dl_exception_handle _ _ _ _ _ _ _) as [σ2 [r|e]] eqn:Hh.
  - pose proof Hh as (events & Hout & Hreq & Hbk)%dl_exception_handle_out.
    apply dl_exception_handle_shrinks in Hh as (nd' & -> & Hlt).
    destruct (IH w1 σ2 nd') as (w' & σ' & r & events' & -> & Hout' & Hreq' & Hbk');
      [lia|].
    eexists w', σ', r, (_ :: events ++ events'). split_and!; try done.
    + rewrite Hout', Hout. subst σ1. simpl. by rewrite <-!(assoc_L (++)).
    + rewrite requests_cons, requests_app, Hreq. cbn. lia.
    + rewrite requests_cons, requests_app, Hreq. cbn. lia.
    + intros b. by rewrite Hbk', Hbk.
  - apply dl_exception_handle_out in Hh as (events & Hout & Hreq & Hbk).
    eexists w1, σ2, (Raise e), (_ :: events). split_and!; try done.
    + rewrite Hout. subst σ1. simpl. by rewrite <-!(assoc_L (++)).
    + rewrite requests_cons, Hreq. cbn. lia.
    + rewrite requests_cons, Hreq. cbn. lia.
Qed.

(** X3: the loop of [_dl_launch] ends, whatever the downloader answers:
    it calls [ydl.download] at least once and at most once more than there
    are videos on the list it was given, and it leaves the three buckets
    of the archive as they were. *)
Theorem dl_launch_requests_bounded (w : World) (σ : State) (not_downloaded : list ref) :
  ∃ w' σ' r events,
    _dl_launch downloaded video_url clock ydl_download dflt w σ not_downloaded
      = Some (w', σ', r)
    ∧ out σ' = out σ ++ events
    ∧ (1 ≤ requests events ≤ S (length not_downloaded))%nat
    ∧ ∀ b, bucket b σ' = bucket b σ.
Proof. apply dl_launch_loop_requests. lia. Qed.

End LaunchFacts.

(** ** Skipping and searching *)

Section SkipFacts.
Context {World : Type}.
Variable downloaded : World → Video.t → bool.

Lemma first_undownloaded_filter (w : World) (objs : ref → Video.t)
  (videos : list ref) (i : nat) :
  match filter (λ v, downloaded w (objs v) = false) videos with
  | [] => first_undownloaded downloaded w objs videos i = None
  | video :: pending =>
      ∃ k, first_undownloaded downloaded w objs videos i = Some ((i + k)%nat, video)
           ∧ filter (λ v, downloaded w (objs v) = false) (drop (S k) videos) = pending
  end.
Proof.
  revert i. induction videos as [|v videos IH]; intros i; [done|].
  rewrite filter_cons. simpl. destruct (downloaded w (objs v)) eqn:Hv.
  - rewrite decide_False by done. specialize (IH (S i)).
    destruct (filter _ videos) as [|video pending]; [done|].
    destruct IH as (k & -> & Hk). exists (S k). split; [f_equal; f_equal; lia|done].
  - rewrite decide_True by done. exists 0%nat. split; [f_equal; f_equal; lia|done].
Qed.

(** X4: [_skip_video] raises the plain exception exactly when every video
    of the list is downloaded.  Otherwise it returns the first video that
    is not downloaded and prints the notice for it; the list it returns
    is the part of the given list behind that video, so the videos left
    to download are those that were left before, without the one skipped
    and in the same order. *)
Theorem skip_video_pending (w : World) (σ : State) (videos : list ref)
  (reason : string) (warning : bool) :
  match filter (λ v, downloaded w (objs σ v) = false) videos with
  | [] =>
      _skip_video downloaded w σ videos reason warning =
        (σ, Raise (Exception
           "We expected to skip a video and return it but nothing to skip was found"))
  | video :: pending =>
      ∃ rest,
        _skip_video downloaded w σ videos reason warning =
          (emit (Skipping (Video.id (objs σ video)) reason warning) σ, Ok (rest, video))
        ∧ rest `suffix_of` videos
        ∧ filter (λ v, downloaded w (objs σ v) = false) rest = pending
  end.
Proof.
  unfold _skip_video.
  pose proof (first_undownloaded_filter w (objs σ) videos 0) as H.
  destruct (filter _ videos) as [|video pending]; [by rewrite H|].
  destruct H as (k & -> & Hk). simpl. exists (drop (k + 1) videos).
  split; [done|]. split; [apply suffix_drop|].
  by replace (k + 1)%nat with (S k) by lia.
Qed.

End SkipFacts.

(** X5: [search] returns the first video of the bucket [videos] that has
    the id, and raises [VideoNotFoundException] exactly when no video of
    that bucket has it. *)
Theorem search_first_match (σ : State) (id : string) :
  match search σ id with
  | Ok video =>
      ∃ k, Archive.videos (archive σ) !! k = Some video
           ∧ Video.id (objs σ video) = id
           ∧ ∀ j v, (j < k)%nat → Archive.videos (archive σ) !! j = Some v →
               Video.id (objs σ v) ≠ id
  | Raise e =>
      e = VideoNotFoundException ("Couldn't find " +:+ id +:+ " inside archive")
      ∧ ∀ v, v ∈ Archive.videos (archive σ) → Video.id (objs σ v) ≠ id
  end.
Proof.
  unfold search. generalize (Archive.videos (archive σ)) as videos.
  induction videos as [|v videos IH]; simpl.
  - split; [done|]. by intros v ?%elem_of_nil.
  - case_bool_decide as Hv.
    + exists 0%nat. split_and!; [done|done|]. intros j ? Hj. lia.
    + destruct (List.find _ videos) as [video|].
      * destruct IH as (k & Hk & Hid & Hbefore). exists (S k). split_and!; [done|done|].
        intros [|j] u Hj; simpl; [by intros [= <-]|]. apply Hbefore. lia.
      * destruct IH as [_ IH]. split; [done|].
        intros u [->|Hu]%elem_of_cons; [done|by apply IH].
Qed.

(** ** What ingestion keeps *)

Section GrowthFacts.
Variable dflt : Defaults.

Lemma continues_refl (v : Video.t) : continues v v.
Proof. by repeat split. Qed.

Lemma continues_trans (v1 v2 v3 : Video.t) :
  continues v1 v2 → continues v2 v3 → continues v1 v3.
Proof.
  intros (A1 & A2 & A3 & A4 & A5 & A6 & A7 & A8) (B1 & B2 & B3 & B4 & B5 & B6 & B7 & B8).
  split_and!; try congruence; by etrans.
Qed.

Lemma element_update_prefix {T} `{EqDecision T} (d : T) (now : Time)
  (ts : option Time) (x : T) (e : Element.t T) :
  Element.inner e `prefix_of` Element.inner (Element.update d now ts x e).
Proof. unfold Element.update. case_decide; [done|]. by apply prefix_app_r. Qed.

Lemma video_update_continues (now : Time) (e : RawEntry.t) (v : Video.t) :
  continues v (Video.update dflt now e v).
Proof. split_and!; try done; apply element_update_prefix. Qed.

Lemma flag_continues (now : Time) (v : Video.t) :
  continues v
    (Video.set_deleted (Element.update (d_deleted dflt) now None true (Video.deleted v)) v).
Proof. split_and!; try done. apply element_update_prefix. Qed.

(** One entry: the bucket gains at most one reference, the new one. *)
Lemma parse_metadata_video_grows (now : Time) (e : RawEntry.t) (b : Bucket) (σ : State) :
  let σ' := _parse_metadata_video dflt now e b σ in
  ∃ new,
    (new = [] ∨ (new = [fresh σ] ∧ has_formats e = true))
    ∧ bucket b σ' = bucket b σ ++ new
    ∧ fresh σ' = (fresh σ + length new)%nat
    ∧ Reporter.added (Archive.reporter (archive σ')) =
        Reporter.added (Archive.reporter (archive σ)) ++ new
    ∧ Reporter.deleted (Archive.reporter (archive σ')) =
        Reporter.deleted (Archive.reporter (archive σ))
    ∧ (∀ b', b' ≠ b → bucket b' σ' = bucket b' σ)
    ∧ (∀ r, (r < fresh σ)%nat → continues (objs σ r) (objs σ' r)).
Proof.
  intros σ'. subst σ'. unfold _parse_metadata_video.
  assert (Hsame : ∃ new,
    (new = [] ∨ (new = [fresh σ] ∧ has_formats e = true))
    ∧ bucket b σ = bucket b σ ++ new
    ∧ fresh σ = (fresh σ + length new)%nat
    ∧ Reporter.added (Archive.reporter (archive σ)) =
        Reporter.added (Archive.reporter (archive σ)) ++ new
    ∧ Reporter.deleted (Archive.reporter (archive σ)) =
        Reporter.deleted (Archive.reporter (archive σ))
    ∧ (∀ b', b' ≠ b → bucket b' σ = bucket b' σ)
    ∧ (∀ r, (r < fresh σ)%nat → continues (objs σ r) (objs σ r))).
  { exists []. rewrite !app_nil_r.
    split_and!; first [by auto using continues_refl | simpl; lia]. }
  assert (Hhas : ∀ format formats, RawEntry.formats e = Some (format :: formats) →
            has_formats e = true).
  { intros format formats Hf. unfold has_formats. by rewrite Hf. }
  destruct (RawEntry.formats e) as [[|format formats]|]; try exact Hsame.
  specialize (Hhas _ _ eq_refl).
  rewrite bool_decide_eq_false_2 by done.
  destruct (find_id (objs σ) (RawEntry.id e) (bucket b σ)) as [video|].
  - exists []. rewrite !app_nil_r. split_and!; try first [by auto | simpl; lia].
    intros r _. simpl. destruct (decide (r = video)) as [->|Hne].
    + rewrite fn_lookup_insert. apply video_update_continues.
    + rewrite fn_lookup_insert_ne by done. apply continues_refl.
  - exists [fresh σ].
    split_and!; try first [by auto | by destruct b | simpl; lia].
    + intros b' Hb'. by destruct b, b'.
    + intros r Hr. simpl. rewrite fn_lookup_insert_ne by lia. apply continues_refl.
Qed.

Lemma parse_entries_grow (now : Time) (b : Bucket) (entries : list RawEntry.t) (σ : State) :
  let σ' := foldl (λ (σ : State) (entry : RawEntry.t),
                     _parse_metadata_video dflt now entry b σ) σ entries in
  ∃ new,
    new = seq (fresh σ) (length new)
    ∧ (length new ≤ length (filter (λ e, has_formats e = true) entries))%nat
    ∧ bucket b σ' = bucket b σ ++ new
    ∧ fresh σ' = (fresh σ + length new)%nat
    ∧ Reporter.added (Archive.reporter (archive σ')) =
        Reporter.added (Archive.reporter (archive σ)) ++ new
    ∧ Reporter.deleted (Archive.reporter (archive σ')) =
        Reporter.deleted (Archive.reporter (archive σ))
    ∧ (∀ b', b' ≠ b → bucket b' σ' = bucket b' σ)
    ∧ (∀ r, (r < fresh σ)%nat → continues (objs σ r) (objs σ' r)).
Proof.
  revert σ. induction entries as [|e entries IH]; intros σ σ'.
  - exists []. subst σ'. simpl. rewrite !app_nil_r.
    split_and!; first [by auto using continues_refl | lia].
  - subst σ'. simpl.
    destruct (parse_metadata_video_grows now e b σ)
      as (new1 & Hnew1 & Hb1 & Hf1 & Ha1 & Hd1 & Hfr1 & Hc1).
    destruct (IH (_parse_metadata_video dflt now e b σ))
      as (new2 & Hnew2 & Hlen2 & Hb2 & Hf2 & Ha2 & Hd2 & Hfr2 & Hc2).
    exists (new1 ++ new2). rewrite length_app. unfold ref in *. split_and!.
    + rewrite seq_app. f_equal.
      * destruct Hnew1 as [->|[-> _]]; done.
      * rewrite Hnew2 at 1. by rewrite Hf1.
    + rewrite filter_cons. destruct Hnew1 as [->|[-> He]].
      * case_decide; cbn [length]; lia.
      * rewrite decide_True by done. cbn [length]. lia.
    + by rewrite Hb2, Hb1, (assoc_L (++)).
    + rewrite Hf2, Hf1. lia.
    + by rewrite Ha2, Ha1, (assoc_L (++)).
    + by rewrite Hd2, Hd1.
    + intros b' Hb'. by rewrite Hfr2, Hfr1.
    + intros r Hr. eapply continues_trans; [by apply Hc1|]. apply Hc2. lia.
Qed.

(** X6: [_parse_metadata] only adds to its bucket.  The bucket afterwards
    is the bucket before together with the videos created, which are new
    objects, at most one for each entry that has formats, and which are
    the videos reported as added, in the order of their creation; it is
    ordered newest first; the other two buckets and the videos reported
    as deleted are as before. *)
Theorem parse_metadata_adds_and_sorts (now : Time) (entries : list RawEntry.t)
  (b : Bucket) (σ : State) :
  let σ' := _parse_metadata dflt now entries b σ in
  ∃ new,
    bucket b σ' ≡ₚ bucket b σ ++ new
    ∧ new = seq (fresh σ) (length new)
    ∧ fresh σ' = (fresh σ + length new)%nat
    ∧ (length new ≤ length (filter (λ e, has_formats e = true) entries))%nat
    ∧ is_newest_first (objs σ') (bucket b σ') = true
    ∧ (∀ b', b' ≠ b → bucket b' σ' = bucket b' σ)
    ∧ Reporter.added (Archive.reporter (archive σ')) =
        Reporter.added (Archive.reporter (archive σ)) ++ new
    ∧ Reporter.deleted (Archive.reporter (archive σ')) =
        Reporter.deleted (Archive.reporter (archive σ)).
Proof.
  intros σ'. subst σ'. unfold _parse_metadata.
  destruct (parse_entries_grow now b entries σ)
    as (new & Hnew & Hlen & Hb & Hf & Ha & Hd & Hfr & _).
  set (σ1 := foldl _ σ entries) in *.
  exists new. rewrite bucket_set_bucket, decide_True by done. split_and!.
  - by rewrite sort_newest_perm, Hb.
  - exact Hnew.
  - exact Hf.
  - exact Hlen.
  - apply sort_newest_sorted.
  - intros b' Hb'. rewrite bucket_set_bucket, decide_False by done. by apply Hfr.
  - by destruct b.
  - by destruct b.
Qed.

Lemma parse_metadata_continues (now : Time) (entries : list RawEntry.t)
  (b : Bucket) (σ : State) :
  let σ' := _parse_metadata dflt now entries b σ in
  (fresh σ ≤ fresh σ')%nat
  ∧ (∀ r, (r < fresh σ)%nat → continues (objs σ r) (objs σ' r))
  ∧ (∀ b' r, r ∈ bucket b' σ → r ∈ bucket b' σ').
Proof.
  intros σ'. subst σ'. unfold _parse_metadata.
  destruct (parse_entries_grow now b entries σ)
    as (new & Hnew & Hlen & Hb & Hf & Ha & Hd & Hfr & Hc).
  set (σ1 := foldl _ σ entries) in *. split_and!.
  - simpl. lia.
  - exact Hc.
  - intros b' r Hr. rewrite bucket_set_bucket. case_decide as Hbb.
    + subst b'. rewrite sort_newest_perm, Hb. apply elem_of_app. by left.
    + by rewrite Hfr.
Qed.

Lemma report_deleted_continues (now : Time) (l : list ref) (σ : State) :
  let σ' := _report_deleted dflt now l σ in
  fresh σ' = fresh σ ∧ ∀ r, continues (objs σ r) (objs σ' r).
Proof.
  revert σ. induction l as [|v l IH]; intros σ σ'; [split; auto using continues_refl|].
  subst σ'.
  change (_report_deleted dflt now (v :: l) σ)
    with (_report_deleted dflt now l (report_deleted_video dflt now σ v)).
  destruct (IH (report_deleted_video dflt now σ v)) as [Hf Hc].
  split.
  - rewrite Hf. unfold report_deleted_video. by destruct (_ && _).
  - intros r. eapply continues_trans; [|apply Hc].
    rewrite report_deleted_video_objs. case_decide; [apply flag_continues|apply continues_refl].
Qed.

(** X7: the second half of [Archive.metadata] (the three buckets parsed,
    then gone through for deleted videos) loses nothing: every video
    stays in its bucket, keeps its id and its recency key, and each of
    its six histories afterwards begins with the history it had before. *)
Theorem metadata_parse_keeps_history (now : Time)
  (videos livestreams shorts : list RawEntry.t) (σ : State) :
  let σ' := metadata_parse dflt now videos livestreams shorts σ in
  (∀ b r, r ∈ bucket b σ → r ∈ bucket b σ')
  ∧ (∀ r, (r < fresh σ)%nat → continues (objs σ r) (objs σ' r)).
Proof.
  intros σ'. subst σ'. unfold metadata_parse.
  destruct (parse_metadata_continues now videos Videos σ) as (F1 & C1 & B1).
  set (σ1 := _parse_metadata dflt now videos Videos σ) in *.
  destruct (parse_metadata_continues now livestreams Livestreams σ1) as (F2 & C2 & B2).
  set (σ2 := _parse_metadata dflt now livestreams Livestreams σ1) in *.
  destruct (parse_metadata_continues now shorts Shorts σ2) as (F3 & C3 & B3).
  set (σ3 := _parse_metadata dflt now shorts Shorts σ2) in *.
  destruct (report_deleted_continues now (Archive.videos (archive σ3)) σ3) as (F4 & C4).
  set (σ4 := _report_deleted dflt now (Archive.videos (archive σ3)) σ3) in *.
  destruct (report_deleted_continues now (Archive.livestreams (archive σ4)) σ4) as (F5 & C5).
  set (σ5 := _report_deleted dflt now (Archive.livestreams (archive σ4)) σ4) in *.
  destruct (report_deleted_continues now (Archive.shorts (archive σ5)) σ5) as (F6 & C6).
  split.
  - intros b r Hr. rewrite report_deleted_bucket. subst σ5. rewrite report_deleted_bucket.
    subst σ4. rewrite report_deleted_bucket. auto.
  - intros r Hr.
    eapply continues_trans; [apply C1; lia|].
    eapply continues_trans; [apply C2; lia|].
    eapply continues_trans; [apply C3; lia|].
    eapply continues_trans; [apply C4|].
    eapply continues_trans; [apply C5|apply C6].
Qed.

End GrowthFacts.

(** A video that is known from before and absent from the snapshot: it
    stays in its bucket and its history of deletion is continued. *)
Lemma metadata_parse_keeps_history_witness :
  let old := sample_loaded (Video.new 0 (sample_entry "a" "A" 1)) in
  let σ := sample_state [old] [0%nat] [] [] in
  let σ' := metadata_parse sample_defaults 5 [sample_entry "b" "B" 2] [] [] σ in
  (0%nat ∈ bucket Videos σ') ∧ continues old (objs σ' 0%nat).
Proof.
  intros old σ σ'.
  destruct (metadata_parse_keeps_history sample_defaults 5 [sample_entry "b" "B" 2] [] [] σ)
    as [Hkeep Hcont].
  split.
  - apply (Hkeep Videos). left.
  - apply (Hcont 0%nat). simpl. lia.
Defined.

(** ** The files of a commit *)

Section LayoutFacts.
Variable Video_to_dict : Video.t → json.
Variable CommentAuthor_to_dict_head : CommentAuthor.t → json.
Variable json_dump : json → string.

Lemma exists_path_mono (fs fs' : FS) (p : string) :
  (∀ q, is_Some (files fs !! q) → is_Some (files fs' !! q)) →
  dirs fs ⊆ dirs fs' →
  exists_path fs p = true → exists_path fs' p = true.
Proof.
  intros Hf Hd. unfold exists_path. rewrite !orb_true_iff, !bool_decide_eq_true.
  intros [?|?]; [left; auto|right; set_solver].
Qed.

Lemma make_dirs_spec (paths : list string) (fs : FS) :
  let fs' := foldl (λ (fs : FS) (path : string),
                      if exists_path fs path then fs else mkdir path fs) fs paths in
  files fs' = files fs ∧ dirs fs ⊆ dirs fs'
  ∧ ∀ p, p ∈ paths → exists_path fs' p = true.
Proof.
  revert fs. induction paths as [|p paths IH]; intros fs fs'; subst fs'.
  - split_and!; [done|done|]. by intros p ?%elem_of_nil.
  - simpl. set (fs1 := if exists_path fs p then fs else mkdir p fs).
    destruct (IH fs1) as (Hf & Hd & He).
    assert (H1 : files fs1 = files fs ∧ dirs fs ⊆ dirs fs1 ∧ exists_path fs1 p = true).
    { subst fs1. destruct (exists_path fs p) eqn:Hp; [done|].
      split_and!; [done|simpl; set_solver|].
      unfold exists_path. apply orb_true_iff. right. apply bool_decide_eq_true.
      simpl. set_solver. }
    destruct H1 as (Hf1 & Hd1 & He1). split_and!.
    + by rewrite Hf.
    + set_solver.
    + intros q [->|Hq]%elem_of_cons; [|by apply He].
      eapply exists_path_mono; [| |exact He1]; [|done]. intros q. by rewrite Hf.
Qed.

Lemma backup_spec (utcnow : string) (σ : State) (fs fs1 : FS) :
  _backup utcnow σ fs = Ok fs1 →
  dirs fs1 = dirs fs
  ∧ (∀ p, p ≠ join (Archive.path (archive σ)) "yark.bak" →
       files fs1 !! p = files fs !! p)
  ∧ (∀ p, is_Some (files fs !! p) → is_Some (files fs1 !! p)).
Proof.
  unfold _backup. destruct (negb _); [by intros [= <-]|].
  destruct (files fs !! _) as [old|]; [|done]. intros [= <-]. simpl. split_and!.
  - done.
  - intros p Hp. by rewrite lookup_insert_ne.
  - intros p Hp. destruct (decide (join (Archive.path (archive σ)) "yark.bak" = p)) as [->|Hne].
    + rewrite lookup_insert_eq. eauto.
    + by rewrite lookup_insert_ne.
Qed.

Lemma commit_Ok (utcnow : string) (σ : State) (fs fs' : FS) :
  commit Video_to_dict CommentAuthor_to_dict_head json_dump utcnow σ fs = Ok fs' →
  ∃ fs1, _backup utcnow σ fs = Ok fs1
    ∧ fs' = write_file (join (Archive.path (archive σ)) "yark.json")
              (json_dump (_to_dict Video_to_dict CommentAuthor_to_dict_head σ))
              (foldl (λ (fs : FS) (path : string),
                        if exists_path fs path then fs else mkdir path fs) fs1
                 [Archive.path (archive σ); join (Archive.path (archive σ)) "images";
                  join (Archive.path (archive σ)) "videos"]).
Proof.
  unfold commit. destruct (_backup utcnow σ fs) as [fs1|e]; [|done].
  intros [= <-]. by exists fs1.
Qed.

Lemma commit_effects (utcnow : string) (σ : State) (fs fs' : FS) :
  commit Video_to_dict CommentAuthor_to_dict_head json_dump utcnow σ fs = Ok fs' →
  let path := Archive.path (archive σ) in
  exists_path fs' path = true
  ∧ exists_path fs' (join path "images") = true
  ∧ exists_path fs' (join path "videos") = true
  ∧ files fs' !! join path "yark.json"
      = Some (json_dump (_to_dict Video_to_dict CommentAuthor_to_dict_head σ))
  ∧ (∀ p, exists_path fs p = true → exists_path fs' p = true)
  ∧ (∀ p, p ≠ join path "yark.json" → p ≠ join path "yark.bak" →
       files fs' !! p = files fs !! p).
Proof.
  intros (fs1 & Hbak & ->)%commit_Ok path. fold path.
  apply backup_spec in Hbak as (Bd & Bf & Bs). fold path in Bf.
  destruct (make_dirs_spec [path; join path "images"; join path "videos"] fs1)
    as (Mf & Md & Me).
  set (fs2 := foldl _ fs1 _) in *.
  assert (Hmono : ∀ p, exists_path fs p = true →
            exists_path (write_file (join path "yark.json")
              (json_dump (_to_dict Video_to_dict CommentAuthor_to_dict_head σ)) fs2) p = true).
  { intros p. apply exists_path_mono.
    - intros q Hq. cbn [files dirs write_file].
      destruct (decide (join path "yark.json" = q)) as [->|Hne].
      + rewrite lookup_insert_eq. eauto.
      + rewrite lookup_insert_ne by done. rewrite Mf. by apply Bs.
    - cbn [files dirs write_file]. by rewrite <-Bd. }
  assert (Hkeep : ∀ p, exists_path fs2 p = true →
            exists_path (write_file (join path "yark.json")
              (json_dump (_to_dict Video_to_dict CommentAuthor_to_dict_head σ)) fs2) p = true).
  { intros p. apply exists_path_mono; [|done].
    intros q Hq. cbn [files dirs write_file].
    destruct (decide (join path "yark.json" = q)) as [->|Hne].
    + rewrite lookup_insert_eq. eauto.
    + by rewrite lookup_insert_ne. }
  split_and!.
  - apply Hkeep, Me. left.
  - apply Hkeep, Me. right. left.
  - apply Hkeep, Me. right. right. left.
  - cbn [files dirs write_file]. by rewrite lookup_insert_eq.
  - exact Hmono.
  - intros p H1 H2. cbn [files dirs write_file]. rewrite lookup_insert_ne by done.
    rewrite Mf. by apply Bf.
Qed.

(** X8: a commit that returns leaves the whole layout of an archive on
    disk: the archive directory, [images], [videos] and the file
    [yark.json] exist afterwards.  It removes nothing: every path that
    existed before still exists, and no file other than [yark.json] and
    [yark.bak] of the archive has another content. *)
Theorem commit_layout (utcnow : string) (σ : State) (fs fs' : FS) :
  commit Video_to_dict CommentAuthor_to_dict_head json_dump utcnow σ fs = Ok fs' →
  let path := Archive.path (archive σ) in
  exists_path fs' path = true
  ∧ exists_path fs' (join path "images") = true
  ∧ exists_path fs' (join path "videos") = true
  ∧ files fs' !! join path "yark.json"
      = Some (json_dump (_to_dict Video_to_dict CommentAuthor_to_dict_head σ))
  ∧ (∀ p, exists_path fs p = true → exists_path fs' p = true)
  ∧ (∀ p, p ≠ join path "yark.json" → p ≠ join path "yark.bak" →
       files fs' !! p = files fs !! p).
Proof. apply commit_effects. Qed.

(** X9: of two commits of an archive in a row, the second leaves in
    [yark.bak] what the first wrote to [yark.json], behind the two comment
    lines, and in [yark.json] the encoding of the archive as it is at the
    second commit. *)
Theorem commit_twice_backup (utcnow1 utcnow2 : string) (σ1 σ2 : State) (fs fs1 fs2 : FS) :
  Archive.path (archive σ2) = Archive.path (archive σ1) →
  commit Video_to_dict CommentAuthor_to_dict_head json_dump utcnow1 σ1 fs = Ok fs1 →
  commit Video_to_dict CommentAuthor_to_dict_head json_dump utcnow2 σ2 fs1 = Ok fs2 →
  files fs2 !! join (Archive.path (archive σ1)) "yark.bak"
    = Some ("// Backup of a Yark archive, dated " +:+ utcnow2 +:+ newline +:+
            "// Remove these comments and rename to 'yark.json' to restore" +:+ newline +:+
            json_dump (_to_dict Video_to_dict CommentAuthor_to_dict_head σ1))
  ∧ files fs2 !! join (Archive.path (archive σ1)) "yark.json"
    = Some (json_dump (_to_dict Video_to_dict CommentAuthor_to_dict_head σ2)).
Proof.
  intros Hpath Hrun1 Hrun2.
  assert (Hne : join (Archive.path (archive σ1)) "yark.bak"
                ≠ join (Archive.path (archive σ1)) "yark.json").
  { intros H%join_inj. discriminate H. }
  assert (Hold : files fs1 !! join (Archive.path (archive σ1)) "yark.json"
                 = Some (json_dump (_to_dict Video_to_dict CommentAuthor_to_dict_head σ1))).
  { apply commit_Ok in Hrun1 as (fs0 & _ & ->).
    cbn [files write_file]. by rewrite lookup_insert_eq. }
  apply commit_Ok in Hrun2 as (fs3 & Hbak & ->). rewrite Hpath in *.
  unfold _backup in Hbak. rewrite Hpath in Hbak.
  unfold exists_path in Hbak. rewrite Hold in Hbak.
  rewrite bool_decide_eq_true_2 in Hbak by eauto.
  cbn [negb orb] in Hbak. injection Hbak as <-.
  split.
  - cbn [files write_file]. rewrite lookup_insert_ne by done.
    rewrite files_make_dirs. cbn [files write_file]. by rewrite lookup_insert_eq.
  - cbn [files write_file]. by rewrite lookup_insert_eq.
Qed.

End LayoutFacts.

(** A commit into an empty file system. *)
Lemma commit_layout_witness :
  let σ := sample_state [] [] [] [] in
  ∃ fs', commit sample_video_to_dict sample_author_to_dict (λ _, "new") "now" σ sample_fs
           = Ok fs'
         ∧ exists_path fs' "demo/videos" = true.
Proof.
  intros σ. eexists. split; [reflexivity|].
  refine (proj1 (proj2 (proj2
    (commit_layout sample_video_to_dict sample_author_to_dict (λ _, "new") "now"
       σ sample_fs _ eq_refl)))).
Defined.

(** Two commits of the sample archive in a row. *)
Lemma commit_twice_backup_witness :
  let σ := sample_state [] [] [] [] in
  ∃ fs1 fs2,
    commit sample_video_to_dict sample_author_to_dict (λ _, "dump") "t1" σ sample_fs = Ok fs1
    ∧ commit sample_video_to_dict sample_author_to_dict (λ _, "dump") "t2" σ fs1 = Ok fs2
    ∧ files fs2 !! "demo/yark.bak"
      = Some ("// Backup of a Yark archive, dated t2" +:+ newline +:+
              "// Remove these comments and rename to 'yark.json' to restore" +:+ newline +:+
              "dump").
Proof.
  intros σ. eexists _, _. split; [reflexivity|]. split; [reflexivity|].
  refine (proj1 (commit_twice_backup sample_video_to_dict sample_author_to_dict
    (λ _, "dump") "t1" "t2" σ σ sample_fs _ _ eq_refl eq_refl eq_refl)).
Defined.

(** ** What a migration does to the files *)

Section MigrationEffects.
Variable rename : FS → string → string → option FS.
Variable converter_run : FS → string → FS * option exn.
Variable deleted_false : json.

(** The edit of one version leaves the files alone, but for the edit of
    version 3 once the rename has succeeded. *)
Lemma migrate_edit_fs (path : string) (cur : Z) (encoded : json) (fs fs' : FS)
  (r : result json) :
  migrate_edit rename converter_run deleted_false path cur encoded fs = (fs', r) →
  (fs' = fs ∧ ∀ e, r = Ok e → cur = 1%Z ∨ cur = 2%Z)
  ∨ (cur = 3%Z
     ∧ ∃ fs1, rename fs (join path "thumbnails") (join path "images") = Some fs1
         ∧ fs' = (converter_run fs1 (join path "videos")).1
         ∧ ∀ e, r = Ok e → (converter_run fs1 (join path "videos")).2 = None).
Proof.
  unfold migrate_edit.
  destruct (cur =? 1)%Z eqn:H1; [apply Z.eqb_eq in H1; intros [= <- <-]; left; eauto|].
  destruct (cur =? 2)%Z eqn:H2; [apply Z.eqb_eq in H2; intros [= <- <-]; left; eauto|].
  destruct (cur =? 3)%Z eqn:H3; [|intros [= <- <-]; left; split; [done|by intros e]].
  apply Z.eqb_eq in H3.
  destruct (_ ← setitem "comment_authors" _ _; _) as [e4|e];
    [|intros [= <- <-]; left; split; [done|by intros ?]].
  destruct (rename fs _ _) as [fs1|] eqn:Hren;
    [|intros [= <- <-]; left; split; [done|by intros ?]].
  destruct (converter_run fs1 _) as [fs2 raised] eqn:Hconv.
  intros Hrun. right. split; [done|]. exists fs1. rewrite Hconv.
  destruct raised; injection Hrun as <- <-; done.
Qed.

Lemma migrate_step_fs (fuel : nat) (path : string) (cur : Z) (encoded : json)
  (fs fs' : FS) (r : result json) (written : list Z) :
  migrate_step rename converter_run deleted_false fuel 4 path cur encoded fs
    = Some (fs', r, written) →
  (fs' = fs ∧ ∀ e, r = Ok e → cur = 4%Z)
  ∨ (∃ fs1, rename fs (join path "thumbnails") (join path "images") = Some fs1
       ∧ fs' = (converter_run fs1 (join path "videos")).1
       ∧ ∀ e, r = Ok e → (converter_run fs1 (join path "videos")).2 = None).
Proof.
  revert cur encoded written. induction fuel as [|fuel IH]; intros cur encoded written;
    [done|].
  cbn [migrate_step].
  destruct (cur =? 4)%Z eqn:H4.
  { apply Z.eqb_eq in H4. intros [= <- <- _]. left. eauto. }
  destruct (migrate_edit _ _ _ _ _ _ _) as [fs1 r1] eqn:Hedit.
  apply migrate_edit_fs in Hedit as [[-> Hok]|(-> & fsr & Hren & -> & Hok)].
  - destruct r1 as [e1|e]; [|intros [= <- <- _]; left; split; [done|by intros ?]].
    destruct (setitem "version" _ e1) as [e2|e];
      [|intros [= <- <- _]; left; split; [done|by intros ?]].
    destruct (migrate_step _ _ _ fuel _ _ _ _ _) as [[[fs2 r2] w2]|] eqn:Hrec; [|done].
    intros [= <- <- _]. apply IH in Hrec as [[-> Hr]|Hrec]; [|by right].
    left. split; [done|]. intros e He. specialize (Hr e He).
    destruct (Hok e1 eq_refl); lia.
  - destruct r1 as [e1|e]; [|intros [= <- <- _]; right; exists fsr; split_and!; done].
    destruct (setitem "version" _ e1) as [e2|e];
      [|intros [= <- <- _]; right; exists fsr; split_and!; done].
    destruct fuel as [|fuel]; [done|]. cbn [migrate_step]. change (3 + 1 =? 4)%Z with true.
    intros [= <- <- _]. right. exists fsr. split_and!; [done|done|].
    intros _ _. by apply (Hok e1).
Qed.

(** X10: the only thing the migration of a store does to the files is the
    rename of [thumbnails] to [images] followed by one run of the
    converter on [videos]: it writes no file, and it returns a store for a
    version other than 4 only after the rename has succeeded and the
    converter has returned without an error. *)
Theorem migrate_archive_file_effects (path : string) (cur : Z) (encoded : json)
  (fs fs' : FS) (r : result json) (written : list Z) :
  _migrate_archive rename converter_run deleted_false cur ARCHIVE_COMPAT encoded path fs
    = Some (fs', r, written) →
  (fs' = fs
   ∨ ∃ fs1, rename fs (join path "thumbnails") (join path "images") = Some fs1
            ∧ fs' = (converter_run fs1 (join path "videos")).1)
  ∧ (∀ e, r = Ok e → cur ≠ 4%Z →
       ∃ fs1, rename fs (join path "thumbnails") (join path "images") = Some fs1
              ∧ converter_run fs1 (join path "videos") = (fs', None)).
Proof.
  intros [[-> Hok]|(fs1 & Hren & -> & Hok)]%migrate_step_fs.
  - split; [by left|]. intros e He Hcur. by destruct Hcur, (Hok e He).
  - split; [right; eauto|]. intros e He _. exists fs1. split; [done|].
    specialize (Hok e He). by destruct (converter_run fs1 _); simpl in *; subst.
Qed.

(** X11: when the directory [thumbnails] cannot be renamed, the migration
    of a store of any version other than 4 ends with an exception: no
    store is returned, and the files are as they were (the converter has
    not been run). *)
Theorem migrate_archive_rename_fails (path : string) (cur : Z) (encoded : json) (fs : FS) :
  rename fs (join path "thumbnails") (join path "images") = None →
  cur ≠ 4%Z →
  ∃ e written,
    _migrate_archive rename converter_run deleted_false cur ARCHIVE_COMPAT encoded path fs
      = Some (fs, Raise e, written).
Proof.
  intros Hren Hcur.
  destruct (migrate_step_total rename converter_run deleted_false 4 4 path cur encoded fs)
    as [[[fs' r] written] Hrun]; [lia|lia|].
  unfold _migrate_archive, ARCHIVE_COMPAT. rewrite Hrun.
  apply migrate_step_fs in Hrun as [[-> Hok]|(fs1 & Hren' & _)]; [|congruence].
  destruct r as [e|e]; [by destruct Hcur, (Hok e)|]. eauto.
Qed.

Lemma migrate_v1_store (path : string) (fs fs1 fs2 : FS)
  (fields : list (string * json)) (cid : string) (vids : list json) :
  dict_get "id" fields = Some (JStr cid) →
  dict_get "videos" fields = Some (JList vids) →
  Forall (λ e, is_dict e = true) vids →
  rename fs (join path "thumbnails") (join path "images") = Some fs1 →
  converter_run fs1 (join path "videos") = (fs2, None) →
  ∃ F,
    _migrate_archive rename converter_run deleted_false 1 ARCHIVE_COMPAT
      (JDict fields) path fs = Some (fs2, Ok (JDict F), [2; 3; 4]%Z)
    ∧ dict_get "version" F = Some (JInt 4)
    ∧ dict_get "url" F = Some (JStr ("https://www.youtube.com/channel/" +:+ cid))
    ∧ dict_get "videos" F
        = Some (JList (map (with_key "comments" (JDict []))
                         (map (with_key "deleted" deleted_false) vids)))
    ∧ dict_get "livestreams" F = Some (JList [])
    ∧ dict_get "shorts" F = Some (JList [])
    ∧ dict_get "comment_authors" F = Some (JDict [])
    ∧ ∀ key, key ∉ ["id"; "url"; "livestreams"; "shorts"; "version";
                    "comment_authors"; "videos"] →
        dict_get key F = dict_get key fields.
Proof.
  intros Hid Hvid Hall Hren Hconv.
  unfold _migrate_archive, ARCHIVE_COMPAT.
  cbn [migrate_step]. change (1 =? 4)%Z with false. cbv iota.
  rewrite (migrate_edit_1 rename converter_run deleted_false path cid) by done.
  cbn [setitem]. change (1 + 1)%Z with 2%Z.
  set (F1 := dict_set "version" (JInt 2) _).
  change (2 =? 4)%Z with false. cbv iota.
  rewrite (migrate_edit_2 rename converter_run deleted_false path F1 vids [] [])
    by (done || constructor || (subst F1; by dict_simpl)).
  cbn [setitem]. change (2 + 1)%Z with 3%Z.
  set (V2 := map (with_key "deleted" deleted_false) vids).
  set (F2 := dict_set "version" (JInt 3) _).
  change (3 =? 4)%Z with false. cbv iota.
  rewrite (migrate_edit_3 rename converter_run deleted_false path F2 V2 [] [] fs fs1 fs2)
    by (done || constructor || (subst F2; by dict_simpl)
        || by apply Forall_is_dict_with_key).
  cbn [setitem]. change (3 + 1)%Z with 4%Z.
  change (4 =? 4)%Z with true. cbn [mbind option_bind].
  eexists. split; [reflexivity|]. subst F2 F1.
  split_and!; try by dict_simpl.
  intros key Hkey. repeat (apply not_elem_of_cons in Hkey as [? Hkey]).
  by dict_simpl.
Qed.

(** X12: the migration of a version 1 store to version 4 keeps every key
    of the store that the edits do not name: but for [id], [url],
    [livestreams], [shorts], [version], [comment_authors] and [videos],
    a key has in the migrated store the value it had before, or is absent
    as before. *)
Theorem migrate_archive_keeps_other_keys (path : string) (fs fs1 fs2 : FS)
  (fields : list (string * json)) (cid : string) (vids : list json) :
  dict_get "id" fields = Some (JStr cid) →
  dict_get "videos" fields = Some (JList vids) →
  Forall (λ e, is_dict e = true) vids →
  rename fs (join path "thumbnails") (join path "images") = Some fs1 →
  converter_run fs1 (join path "videos") = (fs2, None) →
  ∃ e',
    _migrate_archive rename converter_run deleted_false 1 ARCHIVE_COMPAT
      (JDict fields) path fs = Some (fs2, Ok e', [2; 3; 4]%Z)
    ∧ ∀ key, key ∉ ["id"; "url"; "livestreams"; "shorts"; "version";
                    "comment_authors"; "videos"] →
        getitem key e' = getitem key (JDict fields).
Proof.
  intros Hid Hvid Hall Hren Hconv.
  destruct (migrate_v1_store path fs fs1 fs2 fields cid vids)
    as (F & Hrun & _ & _ & _ & _ & _ & _ & Hkeys); try done.
  exists (JDict F). split; [exact Hrun|].
  intros key Hkey. unfold getitem. by rewrite Hkeys.
Qed.

End MigrationEffects.

(** A store of version 3 and a rename that fails. *)
Lemma migrate_archive_rename_fails_witness :
  ∃ e written,
    _migrate_archive (λ _ _ _, None) sample_converter (JDict []) 3 ARCHIVE_COMPAT
      (JDict [("version", JInt 3); ("videos", JList []); ("livestreams", JList []);
              ("shorts", JList [])]) "demo" sample_fs
    = Some (sample_fs, Raise e, written).
Proof.
  apply (migrate_archive_rename_fails (λ _ _ _, None) sample_converter (JDict []));
    [reflexivity|lia].
Defined.

(** The version 1 sample store with one more key. *)
Lemma migrate_archive_keeps_other_keys_witness :
  ∃ e',
    _migrate_archive sample_rename sample_converter (JDict []) 1 ARCHIVE_COMPAT
      (JDict [("version", JInt 1); ("id", JStr "UCdemo"); ("note", JStr "mine");
              ("videos", JList [JDict [("id", JStr "a")]])]) "demo" sample_fs
    = Some (sample_fs, Ok e', [2; 3; 4]%Z)
    ∧ getitem "note" e' = Ok (JStr "mine").
Proof.
  destruct (migrate_archive_keeps_other_keys sample_rename sample_converter (JDict [])
    "demo" sample_fs sample_fs sample_fs
    [("version", JInt 1); ("id", JStr "UCdemo"); ("note", JStr "mine");
     ("videos", JList [JDict [("id", JStr "a")]])] "UCdemo" [JDict [("id", JStr "a")]])
    as (e' & Hrun & Hkeys).
  - reflexivity.
  - reflexivity.
  - repeat constructor.
  - reflexivity.
  - reflexivity.
  - exists e'. split; [exact Hrun|]. rewrite Hkeys; [reflexivity|].
    intros H. repeat (apply elem_of_cons in H as [H|H]; [discriminate H|]).
    by apply elem_of_nil in H.
Defined.

(** A store of version 3 with a rename and a conversion that succeed. *)
Lemma migrate_archive_file_effects_witness :
  ∃ fs1, sample_rename sample_fs (join "demo" "thumbnails") (join "demo" "images") = Some fs1
         ∧ sample_converter fs1 (join "demo" "videos") = (sample_fs, None).
Proof.
  refine (proj2 (migrate_archive_file_effects sample_rename sample_converter (JDict [])
    "demo" 3
    (JDict [("version", JInt 3); ("videos", JList []); ("livestreams", JList []);
            ("shorts", JList [])]) sample_fs sample_fs _ _ eq_refl) _ eq_refl _).
  lia.
Defined.

(** ** Creation and loading *)

Section LifecycleFacts.
Variable rename : FS → string → string → option FS.
Variable converter_run : FS → string → FS * option exn.
Variable deleted_false : json.
Variable Video_to_dict : Video.t → json.
Variable Video_from_dict : json → Archive.t → result Video.t.
Variable CommentAuthor_to_dict_head : CommentAuthor.t → json.
Variable CommentAuthor_from_dict_head : Archive.t → string → json → result CommentAuthor.t.
Variable json_dump : json → string.
Variable json_load : string → result json.

(** X13: [load] raises [ArchiveNotFoundException] exactly when nothing
    exists at the path, and then touches no file.  A path that exists
    without a file [yark.json] in it is another failure: the error of
    [open], which the callers of [load] do not catch. *)
Theorem load_not_found (path : string) (σ : State) (fs : FS) :
  (exists_path fs path = false →
     load rename converter_run deleted_false Video_from_dict
       CommentAuthor_from_dict_head json_load path σ fs
     = Some (fs, ArchiveNotFoundException "Archive doesn't exist"))
  ∧ (exists_path fs path = true → files fs !! join path "yark.json" = None →
     load rename converter_run deleted_false Video_from_dict
       CommentAuthor_from_dict_head json_load path σ fs
     = Some (fs, LoadFailed OSError))
  ∧ (∀ fs' msg,
       load rename converter_run deleted_false Video_from_dict
         CommentAuthor_from_dict_head json_load path σ fs
       = Some (fs', ArchiveNotFoundException msg) →
       exists_path fs path = false ∧ fs' = fs).
Proof.
  unfold load. split_and!.
  - by intros ->.
  - by intros -> ->.
  - intros fs' msg. destruct (exists_path fs path); [|by intros [= <- _]].
    cbn [negb]. destruct (files fs !! _); [|done].
    destruct (json_load _); [|done]. destruct (getitem _ _); [|done].
    destruct (if bool_decide _ then _ else _) as [[[fs1 [e1|e]] w]|]; [|done|done].
    cbn [mbind option_bind]. by destruct (_from_dict _ _ _ _ _).
Qed.

(** X14: [load] writes no file.  The files after it are the files before
    it, or what the rename of [thumbnails] to [images] and one run of the
    converter made of them; and they are the files before it when the
    stored version is 4.  So a store that [load] has migrated is on disk
    in its old version until a commit. *)
Theorem load_writes_nothing (path : string) (σ : State) (fs fs' : FS)
  (outcome : loaded State) :
  load rename converter_run deleted_false Video_from_dict
    CommentAuthor_from_dict_head json_load path σ fs = Some (fs', outcome) →
  (fs' = fs
   ∨ ∃ fs1, rename fs (join path "thumbnails") (join path "images") = Some fs1
            ∧ fs' = (converter_run fs1 (join path "videos")).1)
  ∧ (∀ text encoded,
       files fs !! join path "yark.json" = Some text →
       json_load text = Ok encoded →
       getitem "version" encoded = Ok (JInt 4) →
       fs' = fs).
Proof.
  intros Hrun. split.
  - revert Hrun. unfold load. destruct (negb _); [intros [= <- _]; by left|].
    destruct (files fs !! _) as [text|]; [|intros [= <- _]; by left].
    destruct (json_load text) as [encoded|e]; [|intros [= <- _]; by left].
    destruct (getitem "version" encoded) as [v|e]; [|intros [= <- _]; by left].
    case_bool_decide as Hv.
    + cbn [mbind option_bind].
      destruct (_from_dict _ _ _ _ _); intros [= <- _]; by left.
    + intros Hrun. destruct (as_int v) as [cur|].
      * destruct (_migrate_archive _ _ _ _ _ _ _ _) as [[[fs1 r] w]|] eqn:Hm; [|done].
        apply migrate_step_fs in Hm.
        assert (fs' = fs1) as ->.
        { cbn [mbind option_bind] in Hrun. destruct r; [|by injection Hrun].
          destruct (_from_dict _ _ _ _ _); by injection Hrun. }
        destruct Hm as [[-> _]|(fs0 & ? & -> & _)]; [by left|right; eauto].
      * cbn [mbind option_bind] in Hrun. injection Hrun as <- _. by left.
  - intros text encoded Ht Hl Hv. revert Hrun. unfold load.
    destruct (negb _); [by intros [= <- _]|]. rewrite Ht, Hl, Hv.
    cbn [as_int]. rewrite bool_decide_eq_true_2 by done. cbn [mbind option_bind].
    destruct (_from_dict _ _ _ _ _); by intros [= <- _].
Qed.

(** X15: an archive made by [new] loads back as it was made.  [new]
    writes the encoding of an archive of version 4 with the url and no
    video, after a backup of a file [yark.json] that was there; when
    [json.load] reads that encoding back, [load] on the path returns,
    without a migration and without a change to the files, an archive
    equal to the one [new] returned. *)
Theorem load_after_new (utcnow path url : string) (σ σ1 : State) (fs fs1 : FS) :
  new Video_to_dict CommentAuthor_to_dict_head json_dump utcnow path url σ fs
    = Ok (σ1, fs1) →
  json_load (json_dump (_to_dict Video_to_dict CommentAuthor_to_dict_head σ1))
    = Ok (_to_dict Video_to_dict CommentAuthor_to_dict_head σ1) →
  Archive.version (archive σ1) = 4%Z
  ∧ Archive.url (archive σ1) = url
  ∧ bucket Videos σ1 = [] ∧ bucket Livestreams σ1 = [] ∧ bucket Shorts σ1 = []
  ∧ (∀ old, files fs !! join path "yark.json" = Some old →
       files fs1 !! join path "yark.bak"
       = Some ("// Backup of a Yark archive, dated " +:+ utcnow +:+ newline +:+
               "// Remove these comments and rename to 'yark.json' to restore"
               +:+ newline +:+ old))
  ∧ ∀ σ0, ∃ σ',
      load rename converter_run deleted_false Video_from_dict
        CommentAuthor_from_dict_head json_load path σ0 fs1 = Some (fs1, Loaded σ')
      ∧ archive σ' = archive σ1
      ∧ objs σ' = objs σ0.
Proof.
  unfold new. set (σn := {| objs := objs σ |}).
  destruct (commit Video_to_dict CommentAuthor_to_dict_head json_dump utcnow σn fs)
    as [fs2|e] eqn:Hrun; [|done].
  intros [= <- <-] Hload.
  pose proof (commit_effects _ _ _ _ _ _ _ Hrun) as (Hdir & _ & _ & Hfile & _ & _).
  split_and!; try done.
  - intros old Hold.
    apply commit_Ok in Hrun as (fs0 & Hbak & ->).
    unfold _backup, exists_path in Hbak. cbn [archive Archive.path σn] in *.
    rewrite Hold in Hbak. rewrite bool_decide_eq_true_2 in Hbak by eauto.
    cbn [negb orb] in Hbak. injection Hbak as <-.
    cbn [files write_file].
    rewrite lookup_insert_ne by (intros H%join_inj; discriminate H).
    rewrite files_make_dirs. cbn [files write_file]. by rewrite lookup_insert_eq.
  - intros σ0. unfold load. cbn [archive Archive.path σn] in Hdir, Hfile.
    rewrite Hdir, Hfile. cbn [negb]. rewrite Hload.
    eexists. split; [reflexivity|]. done.
Qed.

(** X16: [load] migrates a version 1 store on the way.  For a store of
    version 1 with a channel id and a list of video dictionaries, when the
    rename of [thumbnails] and the converter succeed and the video codec
    decodes the migrated videos, [load] returns an archive of version 4
    whose url is the channel url of the id, with as many videos as the
    store has, no livestreams, no shorts and no comment authors. *)
Theorem load_migrates_v1 (path : string) (σ : State) (fs fs1 fs2 : FS) (text : string)
  (fields : list (string * json)) (cid : string) (vids : list json) :
  exists_path fs path = true →
  files fs !! join path "yark.json" = Some text →
  json_load text = Ok (JDict fields) →
  dict_get "version" fields = Some (JInt 1) →
  dict_get "id" fields = Some (JStr cid) →
  dict_get "videos" fields = Some (JList vids) →
  Forall (λ e, is_dict e = true) vids →
  rename fs (join path "thumbnails") (join path "images") = Some fs1 →
  converter_run fs1 (join path "videos") = (fs2, None) →
  (∀ item a, item ∈ vids →
     ∃ v, Video_from_dict
            (with_key "comments" (JDict []) (with_key "deleted" deleted_false item)) a
          = Ok v) →
  ∃ σ',
    load rename converter_run deleted_false Video_from_dict
      CommentAuthor_from_dict_head json_load path σ fs = Some (fs2, Loaded σ')
    ∧ Archive.version (archive σ') = 4%Z
    ∧ Archive.url (archive σ') = "https://www.youtube.com/channel/" +:+ cid
    ∧ length (Archive.videos (archive σ')) = length vids
    ∧ Archive.livestreams (archive σ') = []
    ∧ Archive.shorts (archive σ') = []
    ∧ Archive.comment_authors (archive σ') = ∅.
Proof.
  intros Hdir Hfile Hload Hversion Hid Hvid Hall Hren Hconv Hdec.
  destruct (migrate_v1_store rename converter_run deleted_false path fs fs1 fs2
              fields cid vids)
    as (F & Hrun & Fv & Fu & Fvid & Fl & Fs & Fc & _); try done.
  destruct (from_dict_returns Video_from_dict CommentAuthor_from_dict_head
    F [] 4 ("https://www.youtube.com/channel/" +:+ cid)
    (map (with_key "comments" (JDict [])) (map (with_key "deleted" deleted_false) vids))
    [] [] path σ)
    as (σ' & Hfrom & Hempty & Hpath & Hver & Hurl & F1 & F2 & F3); try done.
  { by intros id head a ?%elem_of_nil. }
  { intros item a Hin. rewrite !app_nil_r in Hin.
    apply list_elem_of_fmap in Hin as (item1 & -> & Hin).
    apply list_elem_of_fmap in Hin as (item0 & -> & Hin). by apply Hdec. }
  exists σ'. split_and!; try done.
  - unfold load. rewrite Hdir, Hfile. cbn [negb]. rewrite Hload.
    cbn [getitem]. rewrite Hversion. cbn [as_int].
    rewrite bool_decide_eq_false_2 by done. rewrite Hrun.
    cbn [mbind option_bind]. by rewrite Hfrom.
  - apply Forall2_length in F1. by rewrite !length_map in F1.
  - apply Forall2_length in F2. rewrite length_map in F2.
    symmetry in F2. by apply nil_length_inv in F2.
  - apply Forall2_length in F3. rewrite length_map in F3.
    symmetry in F3. by apply nil_length_inv in F3.
Qed.

Variable same_video : Video.t → Video.t → Prop.

(** X17: what a commit wrote, [load] reads back.  For an archive of
    version 4, when [json.load] returns the dictionary that [json.dump]
    was given and the codecs of videos and comment authors decode what
    they encode, [load] after a commit returns, without a migration and
    without a change to the files, an archive with the same path, version
    and url, whose three buckets hold one by one what the video codec
    gives back for the videos committed, and with no comment author. *)
Theorem load_after_commit (utcnow : string) (σa σ : State) (fs fs1 : FS) :
  Archive.version (archive σa) = ARCHIVE_COMPAT →
  commit Video_to_dict CommentAuthor_to_dict_head json_dump utcnow σa fs = Ok fs1 →
  json_load (json_dump (_to_dict Video_to_dict CommentAuthor_to_dict_head σa))
    = Ok (_to_dict Video_to_dict CommentAuthor_to_dict_head σa) →
  (∀ v a, ∃ v', Video_from_dict (Video_to_dict v) a = Ok v' ∧ same_video v v') →
  (∀ a id c, ∃ c', CommentAuthor_from_dict_head a id (CommentAuthor_to_dict_head c)
                   = Ok c') →
  ∃ σ',
    load rename converter_run deleted_false Video_from_dict
      CommentAuthor_from_dict_head json_load (Archive.path (archive σa)) σ fs1
    = Some (fs1, Loaded σ')
    ∧ Archive.path (archive σ') = Archive.path (archive σa)
    ∧ Archive.version (archive σ') = Archive.version (archive σa)
    ∧ Archive.url (archive σ') = Archive.url (archive σa)
    ∧ Archive.comment_authors (archive σ') = ∅
    ∧ Forall2 same_video (map (objs σa) (Archive.videos (archive σa)))
        (map (objs σ') (Archive.videos (archive σ')))
    ∧ Forall2 same_video (map (objs σa) (Archive.livestreams (archive σa)))
        (map (objs σ') (Archive.livestreams (archive σ')))
    ∧ Forall2 same_video (map (objs σa) (Archive.shorts (archive σa)))
        (map (objs σ') (Archive.shorts (archive σ'))).
Proof.
  intros Hversion Hrun Hload Hround Hauthor.
  pose proof (commit_effects _ _ _ _ _ _ _ Hrun) as (Hdir & _ & _ & Hfile & _ & _).
  cbn zeta in Hdir, Hfile.
  set (cas := map (λ kv : string * CommentAuthor.t,
                     (kv.1, CommentAuthor_to_dict_head kv.2))
                (map_to_list (Archive.comment_authors (archive σa)))).
  set (enc := λ video : ref, Video_to_dict (objs σa video)).
  destruct (from_dict_returns Video_from_dict CommentAuthor_from_dict_head
    [("version", JInt (Archive.version (archive σa)));
     ("url", JStr (Archive.url (archive σa)));
     ("videos", JList (map enc (Archive.videos (archive σa))));
     ("livestreams", JList (map enc (Archive.livestreams (archive σa))));
     ("shorts", JList (map enc (Archive.shorts (archive σa))));
     ("comment_authors", JDict cas)]
    cas (Archive.version (archive σa)) (Archive.url (archive σa))
    (map enc (Archive.videos (archive σa))) (map enc (Archive.livestreams (archive σa)))
    (map enc (Archive.shorts (archive σa))) (Archive.path (archive σa)) σ)
    as (σ' & Hdec & Hempty & Hpath & Hver & Hurl & F1 & F2 & F3); try reflexivity.
  { intros id head a Hin. apply list_elem_of_fmap in Hin as ([id' c] & [= -> ->] & _).
    apply Hauthor. }
  { intros item a Hin. rewrite <-!map_app in Hin.
    apply list_elem_of_fmap in Hin as (video & -> & _).
    destruct (Hround (objs σa video) a) as (v' & Hv' & _). eauto. }
  exists σ'. split_and!; try done.
  - unfold load. rewrite Hdir, Hfile. cbn [negb]. rewrite Hload.
    unfold _to_dict at 1. cbn [getitem dict_get]. rewrite decide_True by done.
    cbn [as_int]. rewrite Hversion. rewrite bool_decide_eq_true_2 by done.
    cbn [mbind option_bind].
    change (_to_dict Video_to_dict CommentAuthor_to_dict_head σa)
      with (JDict [("version", JInt (Archive.version (archive σa)));
                   ("url", JStr (Archive.url (archive σa)));
                   ("videos", JList (map enc (Archive.videos (archive σa))));
                   ("livestreams", JList (map enc (Archive.livestreams (archive σa))));
                   ("shorts", JList (map enc (Archive.shorts (archive σa))));
                   ("comment_authors", JDict cas)]).
    by rewrite Hdec.
  - by eapply Forall2_same_video.
  - by eapply Forall2_same_video.
  - by eapply Forall2_same_video.
Qed.

End LifecycleFacts.

(** An archive directory that holds a store of version 4. *)
Lemma load_writes_nothing_witness :
  let fs := {| files := {["demo/yark.json" := "text"]}; dirs := {["demo"]} |} in
  let store := JDict [("version", JInt 4); ("url", JStr "u"); ("videos", JList []);
                      ("livestreams", JList []); ("shorts", JList []);
                      ("comment_authors", JDict [])] in
  ∃ fs' outcome,
    load sample_rename sample_converter (JDict []) sample_video_from_dict
      sample_author_from_dict (λ _, Ok store) "demo" (sample_state [] [] [] []) fs
    = Some (fs', outcome)
    ∧ fs' = fs.
Proof.
  intros fs store. eexists _, _. split; [reflexivity|].
  apply (proj2 (load_writes_nothing sample_rename sample_converter (JDict [])
    sample_video_from_dict sample_author_from_dict (λ _, Ok store) "demo"
    (sample_state [] [] [] []) fs _ _ eq_refl) "text" store); reflexivity.
Defined.

(** A new archive in an empty file system. *)
Lemma load_after_new_witness :
  let σ0 := sample_state [] [] [] [] in
  ∃ σ1 fs1 σ',
    new sample_video_to_dict sample_author_to_dict (λ _, "dump") "now" "demo" "url"
      σ0 sample_fs = Ok (σ1, fs1)
    ∧ load sample_rename sample_converter (JDict []) sample_video_from_dict
        sample_author_from_dict
        (λ _, Ok (_to_dict sample_video_to_dict sample_author_to_dict σ1))
        "demo" σ0 fs1 = Some (fs1, Loaded σ')
    ∧ archive σ' = archive σ1.
Proof.
  intros σ0.
  destruct (new sample_video_to_dict sample_author_to_dict (λ _, "dump") "now" "demo"
              "url" σ0 sample_fs) as [[σ1 fs1]|e] eqn:Hnew; [|discriminate Hnew].
  destruct (load_after_new sample_rename sample_converter (JDict [])
    sample_video_to_dict sample_video_from_dict sample_author_to_dict
    sample_author_from_dict (λ _, "dump")
    (λ _, Ok (_to_dict sample_video_to_dict sample_author_to_dict σ1))
    "now" "demo" "url" σ0 σ1 sample_fs fs1 Hnew eq_refl)
    as (_ & _ & _ & _ & _ & _ & Hload).
  destruct (Hload σ0) as (σ' & Hrun & Harchive & _).
  exists σ1, fs1, σ'. split; [reflexivity|]. split; [exact Hrun|exact Harchive].
Defined.

(** The commit of an archive with one video, and codecs that keep the id. *)
Lemma load_after_commit_witness :
  let σa := sample_state [Video.new 0 (sample_entry "a" "A" 1)] [0%nat] [] [] in
  ∃ fs1 σ',
    commit sample_video_to_dict sample_author_to_dict (λ _, "dump") "now" σa sample_fs
      = Ok fs1
    ∧ load sample_rename sample_converter (JDict []) sample_video_from_dict
        sample_author_from_dict
        (λ _, Ok (_to_dict sample_video_to_dict sample_author_to_dict σa))
        "demo" σa fs1 = Some (fs1, Loaded σ')
    ∧ Forall2 (λ v v', Video.id v' = Video.id v)
        (map (objs σa) (Archive.videos (archive σa)))
        (map (objs σ') (Archive.videos (archive σ'))).
Proof.
  intros σa.
  destruct (commit sample_video_to_dict sample_author_to_dict (λ _, "dump") "now" σa
              sample_fs) as [fs1|e] eqn:Hrun; [|discriminate Hrun].
  destruct (load_after_commit sample_rename sample_converter (JDict [])
    sample_video_to_dict sample_video_from_dict sample_author_to_dict
    sample_author_from_dict (λ _, "dump")
    (λ _, Ok (_to_dict sample_video_to_dict sample_author_to_dict σa))
    (λ v v', Video.id v' = Video.id v) "now" σa σa sample_fs fs1 eq_refl Hrun eq_refl
    (λ v a, ex_intro _ _ (conj eq_refl eq_refl))
    (λ a id c, ex_intro _ _ eq_refl))
    as (σ' & Hload & _ & _ & _ & _ & Hvideos & _).
  exists fs1, σ'. split; [reflexivity|]. split; [exact Hload|exact Hvideos].
Defined.

(** The version 1 sample store on disk. *)
Lemma load_migrates_v1_witness :
  let fs := {| files := {["demo/yark.json" := "text"]}; dirs := {["demo"]} |} in
  ∃ σ',
    load sample_rename sample_converter (JDict []) sample_video_from_dict
      sample_author_from_dict (λ _, Ok sample_store_v1) "demo"
      (sample_state [] [] [] []) fs = Some (fs, Loaded σ')
    ∧ Archive.version (archive σ') = 4%Z
    ∧ Archive.url (archive σ') = "https://www.youtube.com/channel/UCdemo".
Proof.
  intros fs.
  destruct (load_migrates_v1 sample_rename sample_converter (JDict [])
    sample_video_from_dict sample_author_from_dict (λ _, Ok sample_store_v1)
    "demo" (sample_state [] [] [] []) fs fs fs "text"
    [("version", JInt 1); ("id", JStr "UCdemo");
     ("videos", JList [JDict [("id", JStr "a"); ("title", JDict [])]])]
    "UCdemo" [JDict [("id", JStr "a"); ("title", JDict [])]])
    as (σ' & Hrun & Hversion & Hurl & _); try reflexivity.
  - repeat constructor.
  - intros item a ->%list_elem_of_singleton. by eexists.
  - exists σ'. split; [exact Hrun|]. split; [exact Hversion|exact Hurl].
Defined.

(** The sample archive without maxima, with its only video downloaded. *)
Lemma curate_buckets_in_order_witness :
  let σ := sample_state [Video.new 0 (sample_entry "a" "A" 1)] [0%nat] [] [] in
  ∃ l, _curate sample_downloaded ["a"] σ sample_config = Ok l
       ∧ Forall (λ video, sample_downloaded ["a"] (objs σ video) = false) l.
Proof.
  intros σ.
  destruct (curate_buckets_in_order sample_downloaded ["a"] σ sample_config)
    as (a & b & c & Hrun & _ & _ & _ & Hall & _).
  exists (a ++ b ++ c). split; [exact Hrun|exact Hall].
Defined.

(** Nothing at the path. *)
Lemma load_not_found_witness :
  load sample_rename sample_converter (JDict []) sample_video_from_dict
    sample_author_from_dict (λ _, Raise TypeError) "demo" (sample_state [] [] [] [])
    sample_fs
  = Some (sample_fs, ArchiveNotFoundException "Archive doesn't exist").
Proof.
  apply (proj1 (load_not_found sample_rename sample_converter (JDict [])
    sample_video_from_dict sample_author_from_dict (λ _, Raise TypeError) "demo"
    (sample_state [] [] [] []) sample_fs)).
  reflexivity.
Defined.

(** ** Strings *)

Lemma append_cons (c : Ascii.ascii) (a s : string) : String c a +:+ s = String c (a +:+ s).
Proof. reflexivity. Qed.

Lemma append_nil_l (s : string) : "" +:+ s = s.
Proof. reflexivity. Qed.

Lemma append_nil_r (s : string) : s +:+ "" = s.
Proof. induction s as [|c s IH]; [reflexivity|]. by rewrite append_cons, IH. Qed.

Lemma append_assoc (a b c : string) : (a +:+ b) +:+ c = a +:+ b +:+ c.
Proof. induction a as [|x a IH]; [reflexivity|]. by rewrite !append_cons, IH. Qed.

Lemma prefix_nil (s : string) : String.prefix "" s = true.
Proof. by destruct s. Qed.

Lemma prefix_append (p s : string) : String.prefix p (p +:+ s) = true.
Proof.
  induction p as [|c p IH]; [apply prefix_nil|]. rewrite append_cons. simpl.
  by destruct (Ascii.ascii_dec c c).
Qed.

Lemma prefix_cut (p x y : string) :
  String.prefix p (x +:+ y) = true → (String.length p ≤ String.length x)%nat →
  String.prefix p x = true.
Proof.
  revert x. induction p as [|c p IH]; intros x; [intros; apply prefix_nil|].
  destruct x as [|d x]; [simpl; lia|]. rewrite append_cons. simpl.
  destruct (Ascii.ascii_dec c d); [|done]. intros H Hlen. apply IH; [done|lia].
Qed.

Lemma length_append (a b : string) :
  String.length (a +:+ b) = (String.length a + String.length b)%nat.
Proof. induction a as [|c a IH]; [reflexivity|]. rewrite append_cons. simpl. by rewrite IH. Qed.

(** No occurrence of [needle] in a string begins any of its ends. *)
Lemma str_in_false_suffix (needle a1 a2 : string) :
  str_in needle (a1 +:+ a2) = false → String.prefix needle a2 = false.
Proof.
  induction a1 as [|c a1 IH].
  - rewrite append_nil_l. destruct a2; simpl; intros H%orb_false_iff; apply H.
  - rewrite append_cons. simpl. intros [_ H]%orb_false_iff. by apply IH.
Qed.

Lemma split_from_skip (sep x part rest : string) :
  split_from sep (String.length x) part (x +:+ rest) = split_from sep 0 part rest.
Proof. induction x as [|c x IH]; [reflexivity|]. rewrite append_cons. by simpl. Qed.

Lemma split_from_last (sep : string) (skip : nat) (part s : string) :
  is_Some (last (split_from sep skip part s)).
Proof.
  revert skip part. induction s as [|c s IH]; intros skip part; [by eexists|].
  cbn [split_from]. destruct skip; [|apply IH].
  destruct (String.prefix sep _); [|apply IH].
  destruct (IH (String.length sep - 1)%nat "") as [x Hx].
  rewrite last_cons, Hx. by eexists.
Qed.

(** A string without the separator is one part. *)
Lemma split_from_none (sep part s : string) :
  str_in sep s = false → split_from sep 0 part s = [part +:+ s].
Proof.
  revert part. induction s as [|c s IH]; intros part Hs.
  - by rewrite append_nil_r.
  - cbn [split_from]. rewrite (str_in_false_suffix sep "" (String c s)) by done.
    rewrite IH.
    + by rewrite append_assoc.
    + simpl in Hs. by apply orb_false_iff in Hs as [_ ?].
Qed.

(** The first part ends at the first occurrence of the separator. *)
Lemma split_from_first (init : string) (c : Ascii.ascii) (part a rest : string) :
  str_in (init +:+ String c "") (a +:+ init) = false →
  split_from (init +:+ String c "") 0 part (a +:+ (init +:+ String c "") +:+ rest)
  = (part +:+ a) :: split_from (init +:+ String c "") 0 "" rest.
Proof.
  set (sep := init +:+ String c "").
  assert (Hlen : String.length sep = S (String.length init)).
  { subst sep. rewrite length_append. simpl. lia. }
  revert part. induction a as [|d a IH]; intros part Ha.
  - rewrite append_nil_r, append_nil_l.
    destruct (sep +:+ rest) as [|s0 s'] eqn:Hs.
    { destruct sep; [done|]. by rewrite append_cons in Hs. }
    cbn [split_from]. rewrite <-Hs, prefix_append. f_equal.
    destruct sep as [|s1 sep']; [done|]. rewrite append_cons in Hs.
    injection Hs as <- <-. cbn [String.length].
    replace (S (String.length sep') - 1)%nat with (String.length sep') by lia.
    apply split_from_skip.
  - rewrite append_cons. cbn [split_from].
    assert (String.prefix sep (String d (a +:+ sep +:+ rest)) = false) as ->.
    { destruct (String.prefix sep _) eqn:Hp; [|done].
      assert (String.prefix sep (String d a +:+ init) = true) as Hcut.
      { apply (prefix_cut _ _ (String c "" +:+ rest)).
        - rewrite append_assoc, append_cons. subst sep.
          by rewrite append_assoc in Hp.
        - rewrite Hlen, length_append. simpl. lia. }
      by rewrite (str_in_false_suffix sep "" (String d a +:+ init)) in Hcut. }
    rewrite IH.
    + by rewrite append_assoc.
    + rewrite append_cons in Ha. simpl in Ha. by apply orb_false_iff in Ha as [_ ?].
Qed.

(** ** The buckets of a snapshot *)

(** X18: the kind of a playlist is read off its title.  A title without
    [" - "] is the kind as a whole; in a title [name - label], where the
    first [" - "] is the one before the label and the label holds none,
    the kind is the label; the kind is in lower case in both cases, so
    that the comparison with the three known kinds ignores the case. *)
Theorem kind_of_title (entry : json) (title : string) :
  getitem "title" entry = Ok (JStr title) →
  (str_in " - " title = false → kind_of entry = Ok (str_lower title))
  ∧ (∀ name label, title = name +:+ " - " +:+ label →
       str_in " - " (name +:+ " -") = false → str_in " - " label = false →
       kind_of entry = Ok (str_lower label)).
Proof.
  intros Htitle. unfold kind_of. rewrite Htitle. cbn [mbind result_bind].
  unfold str_split. split.
  - intros Hnone. by rewrite split_from_none.
  - intros name label -> Hname Hlabel.
    pose proof (split_from_first " -" (Ascii.ascii_of_nat 32) "" name label Hname) as H.
    change (" -" +:+ String (Ascii.ascii_of_nat 32) "") with " - " in H.
    rewrite H. by rewrite split_from_none.
Qed.

Lemma kind_of_playlist (item : json) :
  is_playlist item → ∃ kind, kind_of item = Ok kind.
Proof.
  intros (title & entries & Ht & _). unfold kind_of. rewrite Ht.
  cbn [mbind result_bind]. unfold str_split.
  destruct (split_from_last " - " 0 "" title) as [part ->]. eauto.
Qed.

Lemma playlist_of_cons (kind : string) (item : json) (items : list json) (init : json) :
  Forall is_playlist items →
  playlist_of kind (item :: items) init =
  if is_kind kind item
  then playlist_of kind items
         (match getitem "entries" item with Ok entries => entries | Raise _ => init end)
  else playlist_of kind items init.
Proof.
  intros Hall. unfold playlist_of. rewrite filter_cons.
  destruct (is_kind kind item) eqn:Hk.
  - rewrite decide_True by done. rewrite last_cons.
    destruct (last (filter _ items)) as [item0|] eqn:Hlast; [|done].
    apply last_Some in Hlast as [l Hl].
    assert (item0 ∈ filter (λ item1, is_kind kind item1 = true) items) as Hin.
    { rewrite Hl. apply elem_of_app. right. left. }
    apply list_elem_of_filter in Hin as [_ Hin].
    rewrite Forall_forall in Hall. destruct (Hall _ Hin) as (? & ? & _ & ->). done.
  - rewrite decide_False by done. done.
Qed.

Lemma split_entries_playlists (items : list json) (videos livestreams shorts : json)
  (warned : list string) :
  Forall is_playlist items →
  split_entries items videos livestreams shorts warned =
    (warned ++ unknown_kinds items,
     Ok (playlist_of "videos" items videos, playlist_of "live" items livestreams,
         playlist_of "shorts" items shorts)).
Proof.
  intros Hall. revert videos livestreams shorts warned.
  induction Hall as [|item items Hitem Hall IH]; intros videos livestreams shorts warned.
  - simpl. by rewrite app_nil_r.
  - destruct (kind_of_playlist item Hitem) as [kind Hkind].
    destruct Hitem as (title & entries & _ & Hentries).
    cbn [split_entries]. rewrite !playlist_of_cons by done. unfold is_kind, unknown_kinds.
    cbn [omap list_omap]. fold (unknown_kinds items).
    rewrite Hkind, Hentries.
    assert (Hknown : ∀ k : string, k ∈ ["videos"; "live"; "shorts"] ↔
              k = "videos" ∨ k = "live" ∨ k = "shorts").
    { intros k. rewrite !elem_of_cons, elem_of_nil. tauto. }
    destruct (decide (kind = "videos")) as [->|H1];
      [|destruct (decide (kind = "live")) as [->|H2];
        [|destruct (decide (kind = "shorts")) as [->|H3]]];
      repeat first
        [ rewrite decide_True by (apply Hknown; tauto)
        | rewrite decide_False by (rewrite Hknown; tauto)
        | rewrite bool_decide_eq_true_2 by done
        | rewrite bool_decide_eq_false_2 by done ];
      rewrite IH; [done..|].
    by rewrite <-(assoc_L (++)).
Qed.

(** X19: a response whose list of entries is empty makes the metadata
    pass fail with an [IndexError]; a response whose first entry is a
    dictionary without the key [entries] is a plain list of videos: all
    its entries go to the videos, none to the livestreams and the shorts,
    and nothing is warned about. *)
Theorem metadata_buckets_flat (res : json) :
  (getitem "entries" res = Ok (JList []) →
     metadata_buckets res = ([], Raise IndexError))
  ∧ (∀ first rest,
       getitem "entries" res = Ok (JList (JDict first :: rest)) →
       dict_get "entries" first = None →
       metadata_buckets res = ([], Ok (JList (JDict first :: rest), JList [], JList []))).
Proof.
  unfold metadata_buckets. split.
  - by intros ->.
  - intros first rest -> Hfirst. cbn [mbind result_bind getitem_0 contains_str].
    rewrite Hfirst. by rewrite bool_decide_eq_false_2 by by intros [? ?].
Qed.

(** X20: a response that is a list of playlists, each with a title and
    entries, is cut by kind: the videos are the entries of the last
    playlist of the kind [videos], the livestreams those of the last of
    the kind [live], the shorts those of the last of the kind [shorts],
    and each is empty when there is no playlist of its kind; the kinds
    that are none of the three are warned about, in their order, and
    their entries are dropped. *)
Theorem metadata_buckets_nested (res : json) (items : list json) :
  getitem "entries" res = Ok (JList items) →
  items ≠ [] →
  Forall is_playlist items →
  metadata_buckets res =
    (unknown_kinds items,
     Ok (playlist_of "videos" items (JList []), playlist_of "live" items (JList []),
         playlist_of "shorts" items (JList []))).
Proof.
  intros Hres Hne Hall. unfold metadata_buckets. rewrite Hres.
  destruct items as [|first rest]; [done|].
  cbn [mbind result_bind getitem_0].
  pose proof (Forall_inv Hall) as (title & entries & _ & Hentries).
  destruct first as [| | | | |fields]; try done.
  cbn [contains_str mbind result_bind]. unfold getitem in Hentries.
  destruct (dict_get "entries" fields) eqn:Hget; [|done].
  rewrite bool_decide_eq_true_2 by eauto. cbn [iterate].
  by rewrite split_entries_playlists.
Qed.

(** A title with the name of a channel before the label. *)
Lemma kind_of_title_witness :
  kind_of (JDict [("title", JStr "Some Channel - Videos")]) = Ok "videos".
Proof.
  refine (proj2 (kind_of_title (JDict [("title", JStr "Some Channel - Videos")])
                   "Some Channel - Videos" eq_refl) "Some Channel" "Videos" eq_refl
            eq_refl eq_refl).
Defined.

(** A channel with a playlist of videos, one of an unknown kind and one of
    livestreams. *)
Lemma metadata_buckets_nested_witness :
  metadata_buckets
    (JDict [("entries",
       JList [JDict [("title", JStr "C - Videos"); ("entries", JList [JInt 1])];
              JDict [("title", JStr "C - Podcasts"); ("entries", JList [JInt 2])];
              JDict [("title", JStr "C - Live"); ("entries", JList [JInt 3])]])])
  = (["podcasts"], Ok (JList [JInt 1], JList [JInt 3], JList [])).
Proof.
  apply (metadata_buckets_nested _
    [JDict [("title", JStr "C - Videos"); ("entries", JList [JInt 1])];
     JDict [("title", JStr "C - Podcasts"); ("entries", JList [JInt 2])];
     JDict [("title", JStr "C - Live"); ("entries", JList [JInt 3])]]).
  - reflexivity.
  - discriminate.
  - repeat constructor; by eexists _, _.
Defined.

(** A channel without entries, and a playlist of two videos. *)
Lemma metadata_buckets_flat_witness :
  metadata_buckets (JDict [("entries", JList [])]) = ([], Raise IndexError)
  ∧ metadata_buckets
      (JDict [("entries", JList [JDict [("id", JStr "a")]; JDict [("id", JStr "b")]])])
    = ([], Ok (JList [JDict [("id", JStr "a")]; JDict [("id", JStr "b")]],
               JList [], JList [])).
Proof.
  split.
  - apply (proj1 (metadata_buckets_flat (JDict [("entries", JList [])]))). reflexivity.
  - apply (proj2 (metadata_buckets_flat
      (JDict [("entries", JList [JDict [("id", JStr "a")]; JDict [("id", JStr "b")]])]))
      [("id", JStr "a")] [JDict [("id", JStr "b")]]); reflexivity.
Defined.

(** ** Timestamps *)

Lemma split_from_head (sep : string) (skip : nat) (part s : string) :
  ∃ x l, split_from sep skip part s = x :: l.
Proof.
  revert skip part. induction s as [|c s IH]; intros skip part; [by eexists _, _|].
  cbn [split_from]. destruct skip; [|apply IH].
  destruct (String.prefix sep _); [by eexists _, _|apply IH].
Qed.

(** The part before the first occurrence of a separator of one character. *)
Lemma str_split_char (c : Ascii.ascii) (a rest : string) :
  str_in (String c "") a = false →
  str_split (String c "") (a +:+ String c "" +:+ rest) = a :: str_split (String c "") rest.
Proof.
  intros Ha. unfold str_split.
  pose proof (split_from_first "" c "" a rest) as H.
  rewrite !append_nil_l in H. apply H. by rewrite append_nil_r.
Qed.

Lemma str_split_none (sep s : string) : str_in sep s = false → str_split sep s = [s].
Proof. intros H. unfold str_split. by rewrite split_from_none. Qed.

Section TimestampFacts.
Variable strip : string → string.
Variable int : string → option Z.

(** X21: a timestamp [h:m:s] of three fields that [int] reads is decoded
    to [s + 60 m + 3600 h] seconds; no field is checked against a range,
    so that minutes or seconds of 60 and more, and negative fields, are
    accepted as they are. *)
Theorem decode_timestamp_hms (input h m s : string) (hours minutes seconds : Z) :
  strip input = h +:+ ":" +:+ m +:+ ":" +:+ s →
  str_in ":" h = false → str_in ":" m = false → str_in ":" s = false →
  int h = Some hours → int m = Some minutes → int s = Some seconds →
  _decode_timestamp strip int input = Seconds (seconds + minutes * 60 + hours * 60 * 60).
Proof.
  intros Hin Hh Hm Hs Ih Im Is. unfold _decode_timestamp. rewrite Hin.
  rewrite decide_False.
  2:{ destruct h; [discriminate|]. by rewrite append_cons. }
  rewrite (str_split_char _ h) by done.
  rewrite (str_split_char _ m) by done.
  rewrite (str_split_none _ s) by done.
  cbn [rev app length]. rewrite decide_False by lia.
  cbn [lookup list_lookup mbind option_bind]. rewrite Is.
  cbn [mbind option_bind]. rewrite decide_True by lia. rewrite Im.
  cbn [mbind option_bind]. rewrite decide_True by lia. rewrite Ih.
  cbn [mbind option_bind]. f_equal.
Qed.

(** X22: a timestamp of four fields or more is refused for its length,
    before any field is read as a number. *)
Theorem decode_timestamp_too_long (input a b c rest : string) :
  strip input = a +:+ ":" +:+ b +:+ ":" +:+ c +:+ ":" +:+ rest →
  str_in ":" a = false → str_in ":" b = false → str_in ":" c = false →
  _decode_timestamp strip int input
  = TimestampException "Days and onwards aren't supported".
Proof.
  intros Hin Ha Hb Hc. unfold _decode_timestamp. rewrite Hin.
  rewrite decide_False.
  2:{ destruct a; [discriminate|]. by rewrite append_cons. }
  rewrite (str_split_char _ a) by done.
  rewrite (str_split_char _ b) by done.
  rewrite (str_split_char _ c) by done.
  unfold str_split. destruct (split_from_head ":" 0 "" rest) as (x & l & ->).
  rewrite decide_True; [done|]. rewrite length_rev. simpl. lia.
Qed.

End TimestampFacts.

(** Ninety minutes and ninety seconds, with an [int] that reads two digits. *)
Lemma decode_timestamp_hms_witness :
  _decode_timestamp (λ s, s) (λ s, if decide (s = "90") then Some 90 else Some 1) "1:90:90"
  = Seconds (90 + 90 * 60 + 1 * 60 * 60).
Proof.
  apply (decode_timestamp_hms (λ s, s) (λ s, if decide (s = "90") then Some 90 else Some 1)
           "1:90:90" "1" "90" "90"); reflexivity.
Defined.

(** Four fields that are no numbers. *)
Lemma decode_timestamp_too_long_witness :
  _decode_timestamp (λ s, s) (λ _, None) "a:b:c:d"
  = TimestampException "Days and onwards aren't supported".
Proof.
  apply (decode_timestamp_too_long (λ s, s) (λ _, None) "a:b:c:d" "a" "b" "c" "d");
    reflexivity.
Defined.

(** ** Configuration arguments *)

Lemma prefix_split (p s : string) : String.prefix p s = true → ∃ r, s = p +:+ r.
Proof.
  revert s. induction p as [|c p IH]; intros s; [by exists s|].
  destruct s as [|d s]; [done|]. simpl.
  destruct (Ascii.ascii_dec c d) as [->|]; [|done].
  intros [r ->]%IH. by exists r.
Qed.

Section CliFacts.
Variable int : string → option Z.

(** Behind a key and [=] there is a value to take. *)
Lemma parse_value_key (key rest : string) :
  str_in "=" key = false →
  ∃ value, parse_value (key +:+ "=" +:+ rest) = Ok value
           ∧ (str_in "=" rest = false → value = rest)
           ∧ ∀ v more, rest = v +:+ "=" +:+ more → str_in "=" v = false → value = v.
Proof.
  intros Hkey. unfold parse_value. rewrite (str_split_char _ key) by done.
  unfold str_split at 1. destruct (split_from_head "=" 0 "" rest) as (x & l & Hx).
  rewrite Hx. exists x. split_and!; [done| |].
  - intros Hrest. rewrite split_from_none in Hx by done. by injection Hx as <- _.
  - intros v more -> Hv. fold (str_split "=" (v +:+ "=" +:+ more)) in Hx.
    rewrite (str_split_char _ v) in Hx by done. by injection Hx as <- _.
Qed.

(** X23: the value of [--format=] and of [--proxy=] is the text between
    the first [=] and the second, if there is a second: what follows a
    second [=], as in a proxy address with a query, is dropped without a
    notice. *)
Theorem parse_config_arg_value (c : CliConfig) (v more : string) :
  str_in "=" v = false →
  parse_config_arg int c ("--proxy=" +:+ v) = Ok (set_config (set_proxy (Some v)) c)
  ∧ parse_config_arg int c ("--proxy=" +:+ v +:+ "=" +:+ more)
    = Ok (set_config (set_proxy (Some v)) c)
  ∧ parse_config_arg int c ("--format=" +:+ v) = Ok (set_config (set_format (Some v)) c)
  ∧ parse_config_arg int c ("--format=" +:+ v +:+ "=" +:+ more)
    = Ok (set_config (set_format (Some v)) c).
Proof.
  intros Hv.
  destruct (parse_value_key "--proxy" v eq_refl) as (x1 & P1 & E1 & _).
  destruct (parse_value_key "--proxy" (v +:+ "=" +:+ more) eq_refl) as (x2 & P2 & _ & E2).
  destruct (parse_value_key "--format" v eq_refl) as (x3 & P3 & E3 & _).
  destruct (parse_value_key "--format" (v +:+ "=" +:+ more) eq_refl) as (x4 & P4 & _ & E4).
  rewrite (E1 Hv) in P1. rewrite (E2 v more eq_refl Hv) in P2.
  rewrite (E3 Hv) in P3. rewrite (E4 v more eq_refl Hv) in P4.
  unfold parse_config_arg. split_and!.
  - assert (String.prefix "--comments" ("--proxy=" +:+ v) = false) as -> by reflexivity.
    assert (String.prefix "--videos=" ("--proxy=" +:+ v) = false) as -> by reflexivity.
    assert (String.prefix "--livestreams=" ("--proxy=" +:+ v) = false) as -> by reflexivity.
    assert (String.prefix "--shorts=" ("--proxy=" +:+ v) = false) as -> by reflexivity.
    rewrite (decide_False (P := _ = "--skip-metadata")) by (intros H; discriminate H).
    rewrite (decide_False (P := _ = "--skip-download")) by (intros H; discriminate H).
    assert (String.prefix "--format=" ("--proxy=" +:+ v) = false) as -> by reflexivity.
    rewrite prefix_append.
    change ("--proxy=" +:+ v) with ("--proxy" +:+ "=" +:+ v). by rewrite P1.
  - set (r := v +:+ "=" +:+ more).
    assert (String.prefix "--comments" ("--proxy=" +:+ r) = false) as -> by reflexivity.
    assert (String.prefix "--videos=" ("--proxy=" +:+ r) = false) as -> by reflexivity.
    assert (String.prefix "--livestreams=" ("--proxy=" +:+ r) = false) as -> by reflexivity.
    assert (String.prefix "--shorts=" ("--proxy=" +:+ r) = false) as -> by reflexivity.
    rewrite (decide_False (P := _ = "--skip-metadata")) by (intros H; discriminate H).
    rewrite (decide_False (P := _ = "--skip-download")) by (intros H; discriminate H).
    assert (String.prefix "--format=" ("--proxy=" +:+ r) = false) as -> by reflexivity.
    rewrite prefix_append.
    change ("--proxy=" +:+ r) with ("--proxy" +:+ "=" +:+ r). subst r. by rewrite P2.
  - assert (String.prefix "--comments" ("--format=" +:+ v) = false) as -> by reflexivity.
    assert (String.prefix "--videos=" ("--format=" +:+ v) = false) as -> by reflexivity.
    assert (String.prefix "--livestreams=" ("--format=" +:+ v) = false) as -> by reflexivity.
    assert (String.prefix "--shorts=" ("--format=" +:+ v) = false) as -> by reflexivity.
    rewrite (decide_False (P := _ = "--skip-metadata")) by (intros H; discriminate H).
    rewrite (decide_False (P := _ = "--skip-download")) by (intros H; discriminate H).
    rewrite prefix_append.
    change ("--format=" +:+ v) with ("--format" +:+ "=" +:+ v). by rewrite P3.
  - set (r := v +:+ "=" +:+ more).
    assert (String.prefix "--comments" ("--format=" +:+ r) = false) as -> by reflexivity.
    assert (String.prefix "--videos=" ("--format=" +:+ r) = false) as -> by reflexivity.
    assert (String.prefix "--livestreams=" ("--format=" +:+ r) = false) as -> by reflexivity.
    assert (String.prefix "--shorts=" ("--format=" +:+ r) = false) as -> by reflexivity.
    rewrite (decide_False (P := _ = "--skip-metadata")) by (intros H; discriminate H).
    rewrite (decide_False (P := _ = "--skip-download")) by (intros H; discriminate H).
    rewrite prefix_append.
    change ("--format=" +:+ r) with ("--format" +:+ "=" +:+ r). subst r. by rewrite P4.
Qed.

Lemma parse_value_guarded (key config_arg : string) :
  str_in "=" key = false →
  String.prefix (key +:+ "=") config_arg = true →
  ∃ value, parse_value config_arg = Ok value.
Proof.
  intros Hkey [r ->]%prefix_split. rewrite append_assoc.
  destruct (parse_value_key key r Hkey) as (value & Hv & _). eauto.
Qed.

Lemma parse_maximum_int_guarded (key config_arg : string) :
  str_in "=" key = false →
  String.prefix (key +:+ "=") config_arg = true →
  (∃ n, parse_maximum_int int config_arg = Ok n)
  ∨ parse_maximum_int int config_arg = Raise (SystemExit 1).
Proof.
  intros Hkey Hp. unfold parse_maximum_int.
  destruct (parse_value_guarded key config_arg Hkey Hp) as [value ->].
  cbn [mbind result_bind]. destruct (int value); eauto.
Qed.

Lemma parse_config_arg_outcome (c : CliConfig) (config_arg : string) :
  (∃ c', parse_config_arg int c config_arg = Ok c' ∧ known_argument config_arg = true)
  ∨ parse_config_arg int c config_arg = Raise (SystemExit 1).
Proof.
  unfold parse_config_arg, known_argument.
  destruct (String.prefix "--comments" config_arg); [left; eauto|].
  destruct (String.prefix "--videos=" config_arg) eqn:H1.
  { destruct (parse_maximum_int_guarded "--videos" config_arg eq_refl H1) as [[n ->]| ->];
      [left; eauto|by right]. }
  destruct (String.prefix "--livestreams=" config_arg) eqn:H2.
  { destruct (parse_maximum_int_guarded "--livestreams" config_arg eq_refl H2)
      as [[n ->]| ->]; [left; eauto|by right]. }
  destruct (String.prefix "--shorts=" config_arg) eqn:H3.
  { destruct (parse_maximum_int_guarded "--shorts" config_arg eq_refl H3) as [[n ->]| ->];
      [left; eauto|by right]. }
  case_decide; [left; rewrite bool_decide_eq_true_2 by done; eauto|].
  rewrite bool_decide_eq_false_2 by done.
  case_decide; [left; rewrite bool_decide_eq_true_2 by done; eauto|].
  rewrite bool_decide_eq_false_2 by done.
  destruct (String.prefix "--format=" config_arg) eqn:H4.
  { destruct (parse_value_guarded "--format" config_arg eq_refl H4) as [v ->].
    left; eauto. }
  destruct (String.prefix "--proxy=" config_arg) eqn:H5.
  { destruct (parse_value_guarded "--proxy" config_arg eq_refl H5) as [v ->].
    left; eauto. }
  by right.
Qed.

(** X24: the parsing of the configuration arguments ends in one of two
    ways, whatever the arguments and whatever [int] does: with a
    configuration, and then every argument is one of the known ones, or
    with [sys.exit(1)]; the [split("=")[1]] of a value never fails with
    an [IndexError].  One argument that is not known makes the whole
    command exit. *)
Theorem parse_config_args_outcome (c : CliConfig) (args : list string) :
  ((∃ c', parse_config_args int c args = Ok c'
          ∧ Forall (λ config_arg, known_argument config_arg = true) args)
   ∨ parse_config_args int c args = Raise (SystemExit 1))
  ∧ ((∃ config_arg, config_arg ∈ args ∧ known_argument config_arg = false) →
     parse_config_args int c args = Raise (SystemExit 1)).
Proof.
  assert (Hout : ∀ c,
    (∃ c', parse_config_args int c args = Ok c'
           ∧ Forall (λ config_arg, known_argument config_arg = true) args)
    ∨ parse_config_args int c args = Raise (SystemExit 1)).
  { clear c. induction args as [|config_arg args IH]; intros c; [left; eauto|].
    cbn [parse_config_args].
    destruct (parse_config_arg_outcome c config_arg) as [(c' & -> & Hk)| ->];
      [|by right].
    cbn [mbind result_bind].
    destruct (IH c') as [(c'' & -> & Hall)| ->]; [left; eauto|by right]. }
  split; [apply Hout|].
  intros (config_arg & Hin & Hunknown).
  destruct (Hout c) as [(c' & _ & Hall)|H]; [|exact H].
  rewrite Forall_forall in Hall. specialize (Hall _ Hin). congruence.
Qed.

End CliFacts.

(** A proxy address with a query. *)
Lemma parse_config_arg_value_witness :
  parse_config_arg (λ _, None)
    {| config := sample_config; skip_metadata := false; skip_download := false |}
    "--proxy=http://host/?a=b"
  = Ok {| config := set_proxy (Some "http://host/?a") sample_config;
          skip_metadata := false; skip_download := false |}.
Proof.
  exact (proj1 (proj2 (parse_config_arg_value (λ _, None)
    {| config := sample_config; skip_metadata := false; skip_download := false |}
    "http://host/?a" "b" eq_refl))).
Defined.

(** An argument that is not known, behind one that is. *)
Lemma parse_config_args_outcome_witness :
  parse_config_args (λ _, Some 1%Z)
    {| config := sample_config; skip_metadata := false; skip_download := false |}
    ["--videos=1"; "--fast"]
  = Raise (SystemExit 1).
Proof.
  apply (proj2 (parse_config_args_outcome (λ _, Some 1%Z)
    {| config := sample_config; skip_metadata := false; skip_download := false |}
    ["--videos=1"; "--fast"])).
  exists "--fast". split; [|reflexivity]. right. left.
Defined.

(** ** Search after ingestion *)

(** X25: after the second half of [Archive.metadata] has run on an
    archive that satisfies the invariant of the data model, [search]
    finds every entry with formats that the snapshot lists among the
    videos: it returns the video of the bucket [videos] that has the id of
    the entry, and the current values of that video are those of the
    entry. *)
Theorem search_finds_ingested (dflt : Defaults) (now : Time)
  (videos livestreams shorts : list RawEntry.t) (σ : State) (e : RawEntry.t) :
  well_formed σ → consistent videos → consistent livestreams → consistent shorts →
  e ∈ videos → has_formats e = true →
  let σ' := metadata_parse dflt now videos livestreams shorts σ in
  ∃ video,
    search σ' (RawEntry.id e) = Ok video
    ∧ video ∈ bucket Videos σ'
    ∧ Video.id (objs σ' video) = RawEntry.id e
    ∧ settled_video dflt e (objs σ' video).
Proof.
  intros Hwf Hv Hl Hs Hin Hformats σ'.
  destruct (metadata_parse_settles dflt now videos livestreams shorts σ Hwf Hv Hl Hs)
    as ((Hnodup & Hall & _) & _). fold σ' in Hnodup, Hall.
  destruct (Hall e Hin Hformats) as (r & Hr & Hid & Hsettled).
  destruct (find_id_is_Some (objs σ') (RawEntry.id e) (bucket Videos σ'))
    as [video Hfind]; [eauto|].
  pose proof (find_id_Some _ _ _ _ Hfind) as [Hvideo Hvid].
  assert (video = r) as ->.
  { eapply (fmap_NoDup_inj (λ r, Video.id (objs σ' r))); [exact Hnodup|done..|congruence]. }
  exists r. split_and!; try done.
  unfold search. unfold find_id in Hfind. simpl in Hfind. by rewrite Hfind.
Qed.

(** A snapshot with two videos, ingested into an empty archive. *)
Lemma search_finds_ingested_witness :
  let σ' := metadata_parse sample_defaults 1
              [sample_entry "a" "A" 1; sample_entry "b" "B" 2] [] []
              (sample_state [] [] [] []) in
  ∃ video, search σ' "b" = Ok video ∧ Video.id (objs σ' video) = "b".
Proof.
  intros σ'.
  destruct (search_finds_ingested sample_defaults 1
              [sample_entry "a" "A" 1; sample_entry "b" "B" 2] [] []
              (sample_state [] [] [] []) (sample_entry "b" "B" 2))
    as (video & Hsearch & _ & Hid & _).
  - split; [|split].
    + intros [] r Hr; by apply elem_of_nil in Hr.
    + intros [] [] r _ Hr; by apply elem_of_nil in Hr.
    + intros []; constructor.
  - intros e e' He He' _ _ Hid.
    apply elem_of_cons in He as [->|He]; [|apply list_elem_of_singleton in He as ->];
    (apply elem_of_cons in He' as [->|He']; [|apply list_elem_of_singleton in He' as ->]);
    done.
  - by intros e e' He%elem_of_nil.
  - by intros e e' He%elem_of_nil.
  - right. left.
  - reflexivity.
  - exists video. split; [exact Hsearch|exact Hid].
Defined.
